(** * Docker Registry API v2 client: a shallow embedding of
      [lib/registry-client-v2.js] and the properties its specification states.

    JavaScript strings are modelled as [string] (texts of characters below
    256), node [Buffer]s as [list byte], response headers as [gmap string string]
    (node lower-cases header names), optional fields as [option], decoded
    JSON as [JsValue].  What the file obtains from other packages
    (base64url, JSON, jwk-to-pem, jws, crypto, url, querystring, restify's
    error constructors) and from the runtime where it depends on the
    version of node is gathered in the class [Platform]; the network is an
    argument of every operation that uses it. *)

From Stdlib Require Import ZArith NArith QArith String Ascii List Lia Bool.
From Stdlib.Strings Require Import Byte.
From stdpp Require Import base option list gmap strings pretty.

Open Scope string_scope.

(** ** Errors *)

(** The error classes the file constructs.  [Error] is JavaScript's plain
    [Error], [TypeError] the one the runtime raises, [HttpError] what the
    HTTP collaborator reports for a failed request. *)
Inductive error : Type :=
  | Error (msg : string)
  | TypeError (msg : string)
  | HttpError (statusCode : Z) (msg : string)
  | UnauthorizedError (msg : string)
  | BadDigestError (msg : string)
  | InvalidContentError (msg : string) (i : nat)
  | ManifestVerificationError (msg : string) (i : nat)
  | DownloadError (msg : string)
  | InternalError (msg : string) (i : nat).

Inductive result (A : Type) : Type :=
  | Ok (a : A)
  | Throw (e : error).
Arguments Ok {A} a.
Arguments Throw {A} e.

Definition bind {A B : Type} (r : result A) (k : A -> result B) : result B :=
  match r with
  | Ok a => k a
  | Throw e => Throw e
  end.

#[global] Instance result_fmap : FMap result := fun A B f r =>
  match r with
  | Ok a => Ok (f a)
  | Throw e => Throw e
  end.

Notation "'let?' x ':=' r 'in' k" := (bind r (fun x => k))
  (at level 10, x name, r at level 100, k at level 200).

Definition isUnauthorized (e : error) : bool :=
  match e with UnauthorizedError _ => true | _ => false end.
Definition isBadDigest (e : error) : bool :=
  match e with BadDigestError _ => true | _ => false end.
Definition isManifestVerification (e : error) : bool :=
  match e with ManifestVerificationError _ _ => true | _ => false end.
Definition isDownload (e : error) : bool :=
  match e with DownloadError _ => true | _ => false end.
Definition isInternal (e : error) : bool :=
  match e with InternalError _ _ => true | _ => false end.

(** ** JavaScript truthiness of optional strings *)

(** [if (x)] on a value that is a string or [undefined]: the empty string
    and [undefined] are falsy. *)
Definition truthy (x : option string) : bool :=
  match x with
  | Some s => negb (String.eqb s "")
  | None => false
  end.

Definition str (x : option string) : string := default "undefined" x.

(** A field is present when it holds a text that is not empty: this is what
    [if (x)] tests. *)
Definition present (x : option string) : Prop :=
  exists s, x = Some s /\ s <> "".

(** ** Base64 *)

Definition base64_alphabet : string :=
  "ABCDEFGHIJKLMNOPQRSTUVWXYZabcdefghijklmnopqrstuvwxyz0123456789+/".

Definition base64_char (n : N) : ascii :=
  default "="%char (String.get (N.to_nat (N.land n 63)) base64_alphabet).

(** [buffer.toString('base64')]. *)
Fixpoint base64_encode (bs : list byte) : string :=
  match bs with
  | [] => ""
  | [a] =>
      let n := N.shiftl (Byte.to_N a) 16 in
      String (base64_char (N.shiftr n 18))
        (String (base64_char (N.shiftr n 12)) "==")
  | [a; b] =>
      let n := N.lor (N.shiftl (Byte.to_N a) 16) (N.shiftl (Byte.to_N b) 8) in
      String (base64_char (N.shiftr n 18))
        (String (base64_char (N.shiftr n 12))
           (String (base64_char (N.shiftr n 6)) "="))
  | a :: b :: c :: rest =>
      let n := N.lor (N.lor (N.shiftl (Byte.to_N a) 16)
                            (N.shiftl (Byte.to_N b) 8)) (Byte.to_N c) in
      String (base64_char (N.shiftr n 18))
        (String (base64_char (N.shiftr n 12))
           (String (base64_char (N.shiftr n 6))
              (String (base64_char n) (base64_encode rest))))
  end.

(** The UTF-8 bytes of a character below 256. *)
Definition utf8_of_ascii (c : ascii) : list byte :=
  let n := N_of_ascii c in
  if (n <? 128)%N then [byte_of_ascii c]
  else [default x00 (Byte.of_N (N.lor 192 (N.shiftr n 6)));
        default x00 (Byte.of_N (N.lor 128 (N.land n 63)))].

(** [new Buffer(s, 'utf8')]. *)
Definition Buffer_from (s : string) : list byte :=
  flat_map utf8_of_ascii (list_ascii_of_string s).

(** ** Authorization headers *)

Record AuthInfo : Type := mkAuthInfo {
  token : option string;
  username : option string;
  password : option string
}.

Definition _basicAuthHeader (username password : option string) : string :=
  let buffer := Buffer_from (str username +:+ ":" +:+ str password) in
  "Basic " +:+ base64_encode buffer.

(** Bearer auth if [token]; else Basic auth if [username] and [password];
    else [undefined]. *)
Definition _authHeaderFromAuthInfo (authInfo : AuthInfo) : option string :=
  if truthy (token authInfo) then
    Some ("Bearer " +:+ str (token authInfo))
  else if truthy (username authInfo) && truthy (password authInfo) then
    Some (_basicAuthHeader (username authInfo) (password authInfo))
  else
    None.

(** ** Base64url, buffers, splitting *)

Fixpoint fromBase64 (s : string) : string :=
  match s with
  | EmptyString => ""
  | String c rest =>
      if Ascii.eqb c "="%char then fromBase64 rest
      else if Ascii.eqb c "+"%char then String "-"%char (fromBase64 rest)
      else if Ascii.eqb c "/"%char then String "_"%char (fromBase64 rest)
      else String c (fromBase64 rest)
  end.

(** [base64url(buffer)]: base64 without padding, [+] and [/] replaced. *)
Definition base64url (b : list byte) : string := fromBase64 (base64_encode b).

(** [buf.slice(0, end)] for an integer or absent [end]: [end] is clamped to
    the length, a negative [end] counts from the end of the buffer. *)
Definition Buffer_slice0 (buf : list byte) (end_ : option Z) : list byte :=
  match end_ with
  | None => buf
  | Some e =>
      let len := Z.of_nat (length buf) in
      let e' := if (len <=? e)%Z then len
                else if (0 <=? e)%Z then e
                else if (0 <=? e + len)%Z then (e + len)%Z
                else 0%Z in
      take (Z.to_nat e') buf
  end.

(** [strsplit(s, ':', 2)]: the text before the first colon and the text
    after it; [None] stands for the one-element result when there is no
    colon. *)
Fixpoint strsplit_colon2 (s : string) : option (string * string) :=
  match s with
  | EmptyString => None
  | String c rest =>
      if Ascii.eqb c ":"%char then Some ("", rest)
      else match strsplit_colon2 rest with
           | Some (a, b) => Some (String c a, b)
           | None => None
           end
  end.

(** ** Data model *)

(** What [Number(s)] makes of a header: [NaN] or an integer. *)
Inductive numField : Type :=
  | NotANumber
  | Num (n : Z).

Definition isNaN (v : numField) : bool :=
  match v with
  | Num _ => false
  | _ => true
  end.

#[local] Unset Elimination Schemes.

(** A value [JSON.parse] returns.  Numbers are the rationals (the
    infinities an overflowing literal gives are left out); the keys of an
    object are distinct, and none of them is [toString] or [valueOf], which
    would stand in the way of the conversions. *)
Inductive JsValue : Type :=
  | JsNull
  | JsBool (b : bool)
  | JsNumber (q : Q)
  | JsString (s : string)
  | JsArray (elems : list JsValue)
  | JsObject (fields : list (string * JsValue)).

#[local] Set Elimination Schemes.

(** [v.key], for a key that strings, arrays and the prototypes do not
    have: [None] is [undefined], and reading a property of [null] throws. *)
Definition property (v : JsValue) (key : string) : result (option JsValue) :=
  match v with
  | JsNull =>
      Throw (TypeError ("Cannot read property '" +:+ key +:+ "' of null"))
  | JsObject fields =>
      Ok (snd <$> List.find (fun kv => String.eqb (fst kv) key) fields)
  | _ => Ok None
  end.

(** [a === b] for values of two calls of [JSON.parse]: numbers, strings,
    booleans and [null] are compared by value; an array or an object is
    only equal to itself, and the two calls never return the same one. *)
Definition strict_eq (a b : JsValue) : bool :=
  match a, b with
  | JsNull, JsNull => true
  | JsBool x, JsBool y => Bool.eqb x y
  | JsNumber p, JsNumber q => Qeq_bool p q
  | JsString s, JsString t => String.eqb s t
  | _, _ => false
  end.

(** The integer part of a number, as [~~x] and [Math.trunc] take it. *)
Definition Qtrunc (q : Q) : Z := Z.quot (Qnum q) (Z.pos (Qden q)).

(** A number is an integer of 32 bits. *)
Definition int32 (q : Q) : bool :=
  ((Z.rem (Qnum q) (Z.pos (Qden q)) =? 0)
   && (- 2 ^ 31 <=? Qtrunc q) && (Qtrunc q <? 2 ^ 31))%Z.

(** A text between double quotes. *)
Definition quoted (s : string) : string :=
  String (ascii_of_nat 34) (s +:+ String (ascii_of_nat 34) EmptyString).

(** A text without a percent sign. *)
Fixpoint no_percent (s : string) : Prop :=
  match s with
  | EmptyString => True
  | String c rest => c <> "%"%char /\ no_percent rest
  end.

Record JWK : Type := mkJWK {
  kty : string;
  crv : string;
  jwk_x : string;
  jwk_y : string
}.

Record SigHeader : Type := mkSigHeader {
  alg : option string;
  jwk : option JWK;
  chain : option (list string)
}.

(** A signature of the manifest; [header] is [None] when the signature has
    no such key. *)
Record ManifestSignature : Type := mkManifestSignature {
  header : option SigHeader;
  signature : string;
  protected : string
}.

Record Manifest : Type := mkManifest {
  schemaVersion : Z;
  name : string;
  tag : string;
  architecture : string;
  fsLayers : list string;
  history : list string;
  signatures : list ManifestSignature
}.

(** A signature of the JWS object: the JWK has become a PEM text. *)
Record JwsSigHeader : Type := mkJwsSigHeader {
  jws_alg : option string;
  jws_chain : option (list string);
  jws_jwk : option string
}.

Record JwsSig : Type := mkJwsSig {
  jws_header : JwsSigHeader;
  jws_signature : string;
  jws_protected : string
}.

Record Jws : Type := mkJws {
  jws_signatures : list JwsSig;
  payload : list byte
}.

Record Response : Type := mkResponse {
  statusCode : Z;
  headers : gmap string string
}.

(** ** What the file obtains from other packages *)

Class Platform : Type := {
  (** [base64url.decode(s)], a string. *)
  base64url_decode : string -> string;
  (** [JSON.parse(s)]; [None] when it throws. *)
  JSON_parse : string -> option JsValue;
  (** [JSON.stringify(v)], which [%j] of [util.format] pastes. *)
  JSON_stringify : JsValue -> string;
  (** [Number(s)] of a string; [None] is [NaN]. *)
  StringToNumber : string -> option Q;
  (** The end [buf.slice(0, end)] reads in a value that is not an integer
      of 32 bits: an integer, or [None] for the length of the buffer.  It
      depends on the version of node ([~~end] or [+end], and the length of
      the buffer or [~~end] for what is not a number). *)
  slice_end : JsValue -> option Z;
  (** The message of an error of restify: its constructors render their
      message with [sprintf] and no arguments, which throws ([None]) when
      the message holds a printf conversion. *)
  sprintf : string -> option string;
  (** [jwkToPem(jwk)]; it throws on keys it does not support. *)
  jwkToPem : JWK -> result string;
  (** [mod_jws.verify(compact, alg, key)]. *)
  mod_jws_verify : string -> option string -> option string -> result bool;
  (** whether [crypto.createHash(algorithm)] succeeds *)
  crypto_createHash : string -> bool;
  (** the message of the error [crypto.createHash(algorithm)] throws *)
  createHash_message : string -> string;
  (** [hash.digest('hex')] after the given bytes were fed to [update] *)
  crypto_digest_hex : string -> list byte -> string;
  encodeURI : string -> string;
  encodeURIComponent : string -> string;
  (** [mod_url.parse(u)]: protocol, host and path *)
  mod_url_parse : string -> string * string * string;
  (** [querystring.stringify] of the keys with their values, in order *)
  querystring_stringify : list (string * list string) -> string
}.

(** What the statements about rendered messages assume of [sprintf]: a
    message without percent sign is rendered as it is, and a message whose
    first percent sign starts [%s] cannot be rendered without arguments. *)
Class SprintfLaws (platform : Platform) : Prop := {
  sprintf_plain : forall s, no_percent s -> sprintf s = Some s;
  sprintf_conversion : forall pre post,
    no_percent pre -> sprintf (pre +:+ "%s" +:+ post) = None
}.

Section Client.
Context `{Platform}.

(** ** Errors of restify *)

(** [new restify.SomeError(message)]: the error, unless rendering the
    message throws. *)
Definition restify_new (ctor : string -> error) (message : string)
    : result error :=
  match sprintf message with
  | Some m => Ok (ctor m)
  | None => Throw (Error "too few args to sprintf")
  end.

(** What [throw new restify.SomeError(message)] throws. *)
Definition restify_error (ctor : string -> error) (message : string)
    : error :=
  match restify_new ctor message with
  | Ok e => e
  | Throw e => e
  end.

(** [err.message]. *)
Definition message (e : error) : string :=
  match e with
  | Error msg | TypeError msg | HttpError _ msg | UnauthorizedError msg
  | BadDigestError msg | InvalidContentError msg _
  | ManifestVerificationError msg _ | DownloadError msg
  | InternalError msg _ => msg
  end.

(** ** Numbers *)

(** [Number(v)]; [None] is [NaN].  An array is read through its text:
    that of its only element, the empty text for [[]] and [[null]], and a
    text with commas otherwise. *)
Fixpoint ToNumber (v : JsValue) : option Q :=
  match v with
  | JsNull => Some 0%Q
  | JsBool b => Some (if b then 1%Q else 0%Q)
  | JsNumber q => Some q
  | JsString s => StringToNumber s
  | JsArray [] => Some 0%Q
  | JsArray [x] =>
      match x with
      | JsNull => Some 0%Q
      | JsBool _ => None
      | JsNumber q => Some q
      | JsString s => StringToNumber s
      | JsArray _ => ToNumber x
      | JsObject _ => None
      end
  | JsArray _ => None
  | JsObject _ => None
  end.

(** [isNaN(v)] for a property that may be [undefined]. *)
Definition isNaN_value (v : option JsValue) : bool :=
  match v with
  | None => true
  | Some v => match ToNumber v with
              | Some _ => false
              | None => true
              end
  end.

(** [%j] of [util.format]. *)
Definition fmt_j (v : option JsValue) : string :=
  match v with
  | None => "undefined"
  | Some v => JSON_stringify v
  end.

(** [buf.slice(0, end)]: an integer of 32 bits is the end as it is;
    what is made of another value depends on the version of node. *)
Definition Buffer_slice (buf : list byte) (end_ : option JsValue)
    : list byte :=
  match end_ with
  | None => buf
  | Some (JsNumber q) =>
      if int32 q then Buffer_slice0 buf (Some (Qtrunc q))
      else Buffer_slice0 buf (slice_end (JsNumber q))
  | Some v => Buffer_slice0 buf (slice_end v)
  end.

(** ** The JWS extractor *)

(** The variables of [_jwsFromManifest] that the loop over the signatures
    updates. *)
Record JwsLoop : Type := mkJwsLoop {
  loop_formatLength : option JsValue;
  loop_formatTail : option string;
  loop_signatures : list JwsSig
}.

(** The number in a field that [isNaN] lets through. *)
Definition numField_value (v : numField) : Z :=
  match v with
  | Num n => n
  | _ => 0%Z
  end.

(** One iteration of the loop, for [manifest.signatures[i]]. *)
Definition jwsFromManifest_step (i : nat) (sig : ManifestSignature)
    (st : JwsLoop) : result JwsLoop :=
  let InvalidContent m := InvalidContentError m i in
  let place := quoted ("signatures[" +:+ pretty i +:+ "].protected") in
  let? protectedHeader :=
    match JSON_parse (base64url_decode (protected sig)) with
    | Some v => Ok v
    | None =>
        Throw (restify_error InvalidContent
                 ("could not parse manifest " +:+ place +:+ ": "
                    +:+ JSON_stringify (JsString (protected sig))))
    end in
  let? formatLength_ := property protectedHeader "formatLength" in
  let? formatLength' :=
    if isNaN_value formatLength_ then
      Throw (restify_error InvalidContent
               ("invalid " +:+ quoted "formatLength" +:+ " in " +:+ place
                  +:+ ": " +:+ fmt_j formatLength_))
    else match loop_formatLength st, formatLength_ with
         | Some formatLength, Some v =>
             if negb (strict_eq v formatLength) then
               Throw (restify_error InvalidContent
                        ("conflicting " +:+ quoted "formatLength" +:+ " in "
                           +:+ place +:+ ": " +:+ fmt_j formatLength_))
             else Ok (Some formatLength)
         | _, _ => Ok formatLength_
         end in
  let? formatTail_ := property protectedHeader "formatTail" in
  let? formatTail_ :=
    match formatTail_ with
    | Some (JsString s) =>
        if String.eqb s "" then
          Throw (restify_error InvalidContent
                   ("missing " +:+ quoted "formatTail" +:+ " in " +:+ place))
        else Ok (base64url_decode s)
    | _ =>
        Throw (restify_error InvalidContent
                 ("missing " +:+ quoted "formatTail" +:+ " in " +:+ place))
    end in
  let? formatTail' :=
    match loop_formatTail st with
    | None => Ok (Some formatTail_)
    | Some ft =>
        if negb (String.eqb formatTail_ ft) then
          Throw (restify_error InvalidContent
                   ("conflicting " +:+ quoted "formatTail" +:+ " in "
                      +:+ place +:+ ": "
                      +:+ JSON_stringify (JsString formatTail_)))
        else Ok (Some ft)
    end in
  let? header_ :=
    match header sig with
    | Some h => Ok h
    | None => Throw (TypeError "Cannot read property 'alg' of undefined")
    end in
  let? pem :=
    match jwk header_ with
    | Some k =>
        match jwkToPem k with
        | Ok p => Ok (Some p)
        | Throw jwkErr =>
            Throw (restify_error InvalidContent
                     ("error in "
                        +:+ quoted ("signatures[" +:+ pretty i
                                      +:+ "].header.jwk")
                        +:+ ": " +:+ message jwkErr))
        end
    | None => Ok None
    end in
  let jwsSig :=
    {| jws_header := {| jws_alg := alg header_;
                        jws_chain := chain header_;
                        jws_jwk := pem |};
       jws_signature := signature sig;
       jws_protected := protected sig |} in
  Ok {| loop_formatLength := formatLength';
        loop_formatTail := formatTail';
        loop_signatures := loop_signatures st ++ [jwsSig] |}.

Fixpoint jwsFromManifest_loop (i : nat) (sigs : list ManifestSignature)
    (st : JwsLoop) : result JwsLoop :=
  match sigs with
  | [] => Ok st
  | sig :: rest =>
      let? st' := jwsFromManifest_step i sig st in
      jwsFromManifest_loop (S i) rest st'
  end.

(** [_jwsFromManifest(manifest, body)].  With no signature [formatTail]
    stays [undefined] and [new Buffer(undefined)] throws. *)
Definition _jwsFromManifest (manifest : Manifest) (body : list byte)
    : result Jws :=
  let? st := jwsFromManifest_loop 0 (signatures manifest)
               {| loop_formatLength := None; loop_formatTail := None;
                  loop_signatures := [] |} in
  match loop_formatTail st with
  | None => Throw (TypeError "must start with number, buffer, array or string")
  | Some formatTail =>
      Ok {| jws_signatures := loop_signatures st;
            payload := Buffer_slice body (loop_formatLength st)
                         ++ Buffer_from formatTail |}
  end.

(** ** Docker-Content-Digest *)

(** The parsed header; [hash] holds the bytes fed to the hash object so
    far. *)
Record DcdInfo : Type := mkDcdInfo {
  raw : string;
  hash : list byte;
  algorithm : string;
  expectedDigest : string
}.

Definition hash_update (d : DcdInfo) (chunk : list byte) : DcdInfo :=
  {| raw := raw d; hash := hash d ++ chunk; algorithm := algorithm d;
     expectedDigest := expectedDigest d |}.

Definition hash_digest_hex (d : DcdInfo) : string :=
  crypto_digest_hex (algorithm d) (hash d).

Definition _parseDockerContentDigest (dcd : option string) : result DcdInfo :=
  if negb (truthy dcd) then
    Throw (restify_error BadDigestError
             ("missing " +:+ quoted "Docker-Content-Digest" +:+ " header"))
  else
    match strsplit_colon2 (str dcd) with
    | None =>
        Throw (restify_error BadDigestError
                 ("could not parse " +:+ quoted "Docker-Content-Digest"
                    +:+ " header: " +:+ str dcd))
    | Some (part0, part1) =>
        if negb (crypto_createHash part0) then
          Throw (restify_error BadDigestError
                   (quoted "Docker-Content-Digest" +:+ " header error: "
                      +:+ createHash_message part0 +:+ ": " +:+ str dcd))
        else
          Ok {| raw := str dcd; hash := []; algorithm := part0;
                expectedDigest := part1 |}
    end.

Definition _verifyManifestDockerContentDigest (res : Response) (jws : Jws)
    : result unit :=
  let? dcdInfo :=
    _parseDockerContentDigest (headers res !! "docker-content-digest") in
  let dcdInfo := hash_update dcdInfo (payload jws) in
  let digest := hash_digest_hex dcdInfo in
  if negb (String.eqb (expectedDigest dcdInfo) digest) then
    Throw (restify_error BadDigestError "Docker-Content-Digest")
  else Ok tt.

(** ** The JWS verifier *)

Definition disallowedAlgs : list (option string) := [Some "none"].

Definition jwsCompact (encodedPayload : string) (jwsSig : JwsSig) : string :=
  jws_protected jwsSig +:+ "." +:+ encodedPayload +:+ "."
    +:+ jws_signature jwsSig.

(** The body of the loop of [_verifyJws], for [jws.signatures[i]]. *)
Definition verifyJws_step (encodedPayload : string) (i : nat)
    (jwsSig : JwsSig) : result unit :=
  let alg := jws_alg (jws_header jwsSig) in
  if bool_decide (alg ∈ disallowedAlgs) then
    Throw (ManifestVerificationError "disallowed JWS signature algorithm" i)
  else if bool_decide (is_Some (jws_chain (jws_header jwsSig))) then
    Throw (InternalError
             "JWS verification with a cert chain is not implemented" i)
  else
    let? verified := mod_jws_verify (jwsCompact encodedPayload jwsSig) alg
                       (jws_jwk (jws_header jwsSig)) in
    if negb verified then
      Throw (ManifestVerificationError
               "JWS signature failed verification" i)
    else Ok tt.

Fixpoint verifyJws_loop (encodedPayload : string) (i : nat)
    (sigs : list JwsSig) : result unit :=
  match sigs with
  | [] => Ok tt
  | jwsSig :: rest =>
      let? _ := verifyJws_step encodedPayload i jwsSig in
      verifyJws_loop encodedPayload (S i) rest
  end.

Definition _verifyJws (jws : Jws) : result unit :=
  let encodedPayload := base64url (payload jws) in
  verifyJws_loop encodedPayload 0 (jws_signatures jws).

(** ** The token fetcher *)

Definition is_word_char (c : ascii) : bool :=
  let n := N_of_ascii c in
  ((48 <=? n) && (n <=? 57) || (65 <=? n) && (n <=? 90)
   || (97 <=? n) && (n <=? 122) || (n =? 95))%N.

(** The longest run of word characters at the start of a text, and the
    rest. *)
Fixpoint span_word (s : string) : string * string :=
  match s with
  | EmptyString => ("", "")
  | String c rest =>
      if is_word_char c then
        let (w, r) := span_word rest in (String c w, r)
      else ("", s)
  end.

(** [/^(\w+):\/\//.exec(s)]: the first group of the match, if any. *)
Definition exec_scheme (s : string) : option string :=
  let (w, r) := span_word s in
  if String.eqb w "" then None
  else if String.prefix "://" r then Some w
  else None.

Record TokenOpts : Type := mkTokenOpts {
  indexName : string;
  realm : string;
  service : option string;
  scopes : option (list string);
  tok_username : option string;
  tok_password : option string;
  insecure : bool
}.

(** What [client.get] of the token request calls back with: an error (with
    the status of the response, if there is one) or a body and its [token]
    key. *)
Inductive TokenReply : Type :=
  | TokenErr (err : error) (status : option Z)
  | TokenBody (body_token : option string).

(** The request [_getToken] sends. *)
Record TokenRequest : Type := mkTokenRequest {
  tokreq_url : string;
  tokreq_path : string;
  tokreq_authorization : option string
}.

(** Lines 160 to 168: the realm with a scheme. *)
Definition getToken_tokenUrl (opts : TokenOpts) : result string :=
  let tokenUrl := realm opts in
  match exec_scheme tokenUrl with
  | None =>
      Ok ((if insecure opts then "http" else "https") +:+ "://" +:+ tokenUrl)
  | Some scheme =>
      if bool_decide (scheme ∉ ["http"; "https"]) then
        Throw (Error ("unsupported scheme for WWW-Authenticate realm "
                        +:+ realm opts +:+ ": " +:+ scheme))
      else Ok tokenUrl
  end.

Definition getToken_query (opts : TokenOpts) : list (string * list string) :=
  (if truthy (service opts) then [("service", [str (service opts)])] else [])
  ++ (match scopes opts with
      | Some (sc :: scs) => [("scope", sc :: scs)]
      | _ => []
      end)
  ++ (if truthy (tok_username opts)
      then [("account", [str (tok_username opts)])] else []).

Definition getToken_request (opts : TokenOpts) (tokenUrl : string)
    : TokenRequest :=
  let authorization :=
    if truthy (tok_username opts) && truthy (tok_password opts)
    then Some (_basicAuthHeader (tok_username opts) (tok_password opts))
    else None in
  let query := getToken_query opts in
  let tokenUrl :=
    match query with
    | [] => tokenUrl
    | _ => tokenUrl +:+ "?" +:+ querystring_stringify query
    end in
  let '(protocol, host, path) := mod_url_parse tokenUrl in
  {| tokreq_url := protocol +:+ "//" +:+ host;
     tokreq_path := path;
     tokreq_authorization := authorization |}.

(** From line 170 on: the request and what its callback does. *)
Definition getToken_fetch (http_get : TokenRequest -> TokenReply)
    (opts : TokenOpts) (tokenUrl : string) : result string :=
  match http_get (getToken_request opts tokenUrl) with
  | TokenErr err status =>
      Throw (UnauthorizedError "token auth attempt: request failed")
  | TokenBody body_token =>
      if negb (truthy body_token) then
        Throw (UnauthorizedError
          "authorization server did not include a token in the response")
      else Ok (str body_token)
  end.

(** [_getToken(opts, cb)]: what [cb] receives. *)
Definition _getToken (http_get : TokenRequest -> TokenReply)
    (opts : TokenOpts) : result string :=
  let? tokenUrl := getToken_tokenUrl opts in
  getToken_fetch http_get opts tokenUrl.

(** ** The client *)

Record RegistryClientV2 : Type := mkClient {
  remoteName : string;
  localName : string;
  _url : string;
  client_username : option string;
  client_password : option string;
  _loggedIn : bool;
  _authInfo : option AuthInfo;
  _headers_authorization : option string;
  __api : bool;
  _clientsToClose : list string
}.

Record ClientOpts : Type := mkClientOpts {
  opts_remoteName : string;
  opts_localName : string;
  opts_url : string;
  opts_username : option string;
  opts_password : option string;
  opts_token : option string
}.

(** The constructor, after [common] has parsed the repository and resolved
    the URL of its index. *)
Definition createClient (opts : ClientOpts) : RegistryClientV2 :=
  {| remoteName := opts_remoteName opts;
     localName := opts_localName opts;
     _url := opts_url opts;
     client_username := opts_username opts;
     client_password := opts_password opts;
     _loggedIn := false;
     _authInfo := None;
     _headers_authorization :=
       _authHeaderFromAuthInfo {| token := opts_token opts;
                                  username := opts_username opts;
                                  password := opts_password opts |};
     __api := false;
     _clientsToClose := [] |}.

Definition set_clientsToClose (cs : list string) (self : RegistryClientV2)
    : RegistryClientV2 :=
  {| remoteName := remoteName self; localName := localName self;
     _url := _url self; client_username := client_username self;
     client_password := client_password self; _loggedIn := _loggedIn self;
     _authInfo := _authInfo self;
     _headers_authorization := _headers_authorization self;
     __api := __api self; _clientsToClose := cs |}.

(** The getter [_api]: the JSON client is created at its first use. *)
Definition _api (self : RegistryClientV2) : RegistryClientV2 :=
  if __api self then self
  else
    {| remoteName := remoteName self; localName := localName self;
       _url := _url self; client_username := client_username self;
       client_password := client_password self; _loggedIn := _loggedIn self;
       _authInfo := _authInfo self;
       _headers_authorization := _headers_authorization self;
       __api := true; _clientsToClose := _clientsToClose self ++ [_url self] |}.

Definition close (self : RegistryClientV2) : RegistryClientV2 :=
  set_clientsToClose [] self.

(** The options [regLogin] hands to the module's [login]. *)
Record LoginOpts : Type := mkLoginOpts {
  login_username : option string;
  login_password : option string;
  login_scope : string
}.

(** [RegistryClientV2.prototype.login]; [login] is the module's function of
    that name, given by what it calls back with. *)
Definition regLogin (login : LoginOpts -> result AuthInfo)
    (self : RegistryClientV2) : RegistryClientV2 * option error :=
  if _loggedIn self then (self, None)
  else
    let scope := "repository:" +:+ remoteName self +:+ ":pull" in
    match login {| login_username := client_username self;
                   login_password := client_password self;
                   login_scope := scope |} with
    | Throw err => (self, Some err)
    | Ok authInfo =>
        ({| remoteName := remoteName self; localName := localName self;
            _url := _url self; client_username := client_username self;
            client_password := client_password self; _loggedIn := true;
            _authInfo := Some authInfo;
            _headers_authorization := _authHeaderFromAuthInfo authInfo;
            __api := __api self; _clientsToClose := _clientsToClose self |},
         None)
    end.

(** ** supportsV2 *)

(** JavaScript's [\s] on characters below 256. *)
Definition is_space (c : ascii) : bool :=
  let n := N_of_ascii c in
  ((9 <=? n) && (n <=? 13) || (n =? 32) || (n =? 160))%N.

(** [s.split(/\s+/g)], with the piece being read in [cur]; [in_sep] tells
    that the last character read was white space. *)
Fixpoint split_spaces_from (cur : string) (in_sep : bool) (s : string)
    : list string :=
  match s with
  | EmptyString => [cur]
  | String c rest =>
      if is_space c then
        if in_sep then split_spaces_from "" true rest
        else cur :: split_spaces_from "" true rest
      else split_spaces_from (cur +:+ String c "") false rest
  end.

Definition split_spaces (s : string) : list string :=
  split_spaces_from "" false s.

(** The callback [supportsV2] gives to [ping], which receives [err],
    [body] and [res]: the two arguments it passes to [cb]. *)
Definition supportsV2_cb (err : option error) (res : option Response)
    : option error * bool :=
  match res with
  | Some res =>
      if ((statusCode res =? 200) || (statusCode res =? 401))%Z then
        let header := headers res !! "docker-distribution-api-version" in
        if truthy header then
          let versions := split_spaces (str header) in
          if bool_decide ("registry/2.0" ∈ versions) then (None, true)
          else (None, false)
        else (None, false)
      else (None, false)
  | None => (None, false)
  end.

(** ** getManifest *)

(** What an operation does with its callback: it calls it with an error
    and the other arguments, or an exception escapes before it is called. *)
Inductive Callback (A : Type) : Type :=
  | Called (err : option error) (args : A)
  | Uncaught (e : error).
Arguments Called {A} err args.
Arguments Uncaught {A} e.

(** What [self._api.get] calls back with for a manifest request. *)
Inductive ManifestReply : Type :=
  | ManifestErr (err : error)
  | ManifestGot (res_ : Response) (manifest_ : Manifest) (body : list byte).

Definition manifest_path (self : RegistryClientV2) (ref : string) : string :=
  "/v2/" +:+ encodeURI (remoteName self) +:+ "/manifests/"
    +:+ encodeURIComponent ref.

(** The three verification calls inside [try]. *)
Definition manifest_verify (res_ : Response) (manifest_ : Manifest)
    (body : list byte) : result unit :=
  let? jws := _jwsFromManifest manifest_ body in
  let? _ := _verifyManifestDockerContentDigest res_ jws in
  _verifyJws jws.

(** [getManifest(opts, cb)], with [api_get path authorization] standing for
    the HTTP collaborator.  The callback receives [err], [manifest] and
    [res]. *)
Definition getManifest (login : LoginOpts -> result AuthInfo)
    (api_get : string -> option string -> ManifestReply)
    (ref : string) (self : RegistryClientV2)
    : RegistryClientV2 * Callback (option Manifest * option Response) :=
  match regLogin login self with
  | (self, Some err) => (self, Called (Some err) (None, None))
  | (self, None) =>
      let self := _api self in
      match api_get (manifest_path self ref) (_headers_authorization self) with
      | ManifestErr err => (self, Called (Some err) (None, None))
      | ManifestGot res_ manifest_ body =>
          match manifest_verify res_ manifest_ body with
          | Throw verifyErr => (self, Called (Some verifyErr) (None, None))
          | Ok _ =>
              let InvalidContent m := InvalidContentError m 0 in
              let which := localName self +:+ ":" +:+ ref +:+ " manifest" in
              if negb (schemaVersion manifest_ =? 1)%Z then
                (self, Uncaught (restify_error InvalidContent
                   ("unsupported schema version "
                      +:+ pretty (schemaVersion manifest_) +:+ " in "
                      +:+ which)))
              else if negb (length (fsLayers manifest_)
                            =? length (history manifest_))%nat then
                (self, Uncaught (restify_error InvalidContent
                   ("length of history not equal to number of layers in "
                      +:+ which)))
              else if (length (fsLayers manifest_) =? 0)%nat then
                (self, Uncaught (restify_error InvalidContent
                   ("no layers in " +:+ which)))
              else (self, Called None (Some manifest_, Some res_))
          end
      end
  end.

(** ** Blob transport *)

(** The options of one request.  [req_headers] is [None] when the options
    have no [headers] key; otherwise it holds the value of the
    [authorization] key. *)
Record ReqOpts : Type := mkReqOpts {
  req_url : string;
  req_path : string;
  req_headers : option (option string)
}.

(** What one request leads to: a connection error, a [result] event with an
    error (and maybe a response), or a [result] event with a response. *)
Inductive ReqOutcome : Type :=
  | ConnErr (connErr : error)
  | ResultErr (err : error) (res : option Response)
  | ResultOk (res : Response).

(** The variables [_headOrGetBlob] shares between the calls of [makeReq]:
    the redirect counter, the responses, the HTTP clients created, and
    (for the proofs) the requests sent. *)
Record BlobState : Type := mkBlobState {
  numRedirs : nat;
  ress : list (option Response);
  clients : list string;
  sent : list ReqOpts
}.

Definition MAX_NUM_REDIRS : nat := 3.

Definition is_redirect (res : Response) : bool :=
  ((statusCode res =? 302) || (statusCode res =? 307))%Z.

(** How the pipeline step ends: [next] is called, or an exception escapes
    from an event handler. *)
Inductive StepEnd : Type :=
  | Next (err : option error)
  | Escaped (e : error).

(** [makeReq(reqOpts)].  [net n method reqOpts] is the outcome of the
    request sent after [n] others.  [fuel] bounds the recursion; [None]
    means it ran out. *)
Fixpoint makeReq (fuel : nat) (net : nat -> string -> ReqOpts -> ReqOutcome)
    (method digest : string) (reqOpts : ReqOpts) (st : BlobState)
    : option (BlobState * StepEnd) :=
  match fuel with
  | O => None
  | S fuel =>
      if (MAX_NUM_REDIRS <=? numRedirs st)%nat then
        Some (st, Next (Some (DownloadError
          ("maximum number of redirects (3) hit when attempting to get "
             +:+ "blob for digest " +:+ digest))))
      else
        let st := {| numRedirs := numRedirs st + 1;
                     ress := ress st;
                     clients := clients st ++ [req_url reqOpts];
                     sent := sent st ++ [reqOpts] |} in
        let push res := {| numRedirs := numRedirs st;
                           ress := ress st ++ [res];
                           clients := clients st;
                           sent := sent st |} in
        match net (length (sent st) - 1)%nat method reqOpts with
        | ConnErr connErr => Some (st, Next (Some connErr))
        | ResultErr err res => Some (push res, Next (Some err))
        | ResultOk res =>
            let st := push (Some res) in
            if is_redirect res then
              match headers res !! "location" with
              | None =>
                  Some (st, Escaped
                    (TypeError "Parameter url must be a string"))
              | Some location =>
                  let '(protocol, host, path) := mod_url_parse location in
                  makeReq fuel net method digest
                    {| req_url := protocol +:+ "//" +:+ host;
                       req_path := path;
                       req_headers := None |} st
              end
            else Some (st, Next None)
        end
  end.

Definition blob_path (self : RegistryClientV2) (digest : string) : string :=
  "/v2/" +:+ encodeURI (remoteName self) +:+ "/blobs/"
    +:+ encodeURIComponent digest.

(** What [_headOrGetBlob] leaves behind: the client, the requests it sent,
    and what happened to the callback [cb(err, ress)]. *)
Record BlobResult : Type := mkBlobResult {
  blob_client : RegistryClientV2;
  blob_sent : list ReqOpts;
  blob_cb : Callback (list (option Response))
}.

Definition headOrGetBlob_fuel (fuel : nat)
    (login : LoginOpts -> result AuthInfo)
    (net : nat -> string -> ReqOpts -> ReqOutcome)
    (method digest : string) (self : RegistryClientV2) : option BlobResult :=
  match regLogin login self with
  | (self, Some err) =>
      Some {| blob_client := self; blob_sent := [];
              blob_cb := Called (Some err) [] |}
  | (self, None) =>
      match makeReq fuel net method digest
              {| req_url := _url self;
                 req_path := blob_path self digest;
                 req_headers := Some (_headers_authorization self) |}
              {| numRedirs := 0; ress := [];
                 clients := _clientsToClose self; sent := [] |} with
      | None => None
      | Some (st, fin) =>
          Some {| blob_client := set_clientsToClose (clients st) self;
                  blob_sent := sent st;
                  blob_cb := match fin with
                             | Next err => Called err (ress st)
                             | Escaped e => Uncaught e
                             end |}
      end
  end.

(** [_headOrGetBlob(opts, cb)]: [makeReq] is entered at most
    [MAX_NUM_REDIRS + 1] times. *)
Definition _headOrGetBlob (login : LoginOpts -> result AuthInfo)
    (net : nat -> string -> ReqOpts -> ReqOutcome)
    (method digest : string) (self : RegistryClientV2) : option BlobResult :=
  headOrGetBlob_fuel (S MAX_NUM_REDIRS) login net method digest self.

Definition headBlob login net (digest : string) (self : RegistryClientV2)
    : option BlobResult :=
  _headOrGetBlob login net "head" digest self.

(** ** Blob streams *)

(** [Number(s)] for a header that is absent or a text of decimal digits
    (what the HTTP parser lets through as [Content-Length]); any other text
    is read as [NaN]. *)
Fixpoint digits_value (acc : Z) (s : string) : option Z :=
  match s with
  | EmptyString => Some acc
  | String c rest =>
      let n := N_of_ascii c in
      if ((48 <=? n) && (n <=? 57))%N
      then digits_value (10 * acc + Z.of_N (n - 48))%Z rest
      else None
  end.

Definition Number (s : option string) : numField :=
  match s with
  | None => NotANumber
  | Some s => match digits_value 0 s with
              | Some n => Num n
              | None => NotANumber
              end
  end.

(** The stream handed to the caller: the last response with the two
    variables its [data] and [end] handlers close over. *)
Record BlobStream : Type := mkBlobStream {
  stream_res : Response;
  numBytes : Z;
  dcdInfo : option DcdInfo
}.

Definition on_data (chunk : list byte) (stream : BlobStream) : BlobStream :=
  {| stream_res := stream_res stream;
     numBytes := (numBytes stream + Z.of_nat (length chunk))%Z;
     dcdInfo := match dcdInfo stream with
                | Some d => Some (hash_update d chunk)
                | None => None
                end |}.

(** The [end] handler: the error it emits, if any. *)
Definition on_end (stream : BlobStream) : option error :=
  let cLen := Number (headers (stream_res stream) !! "content-length") in
  if negb (isNaN cLen) && negb (numBytes stream =? numField_value cLen)%Z then
    Some (DownloadError "unexpected downloaded size")
  else
    match dcdInfo stream with
    | Some d =>
        let digest := hash_digest_hex d in
        if negb (String.eqb (expectedDigest d) digest) then
          Some (BadDigestError "Docker-Content-Digest")
        else None
    | None => None
    end.

(** Reading a stream to its end: the [data] events, then [end]. *)
Definition consume (chunks : list (list byte)) (stream : BlobStream)
    : option error :=
  on_end (fold_left (fun st chunk => on_data chunk st) chunks stream).

(** What [createBlobReadStream] leaves behind; the callback receives
    [err], [stream] and [ress]. *)
Record StreamResult : Type := mkStreamResult {
  stream_client : RegistryClientV2;
  stream_sent : list ReqOpts;
  stream_cb : Callback (option BlobStream * list (option Response))
}.

(** The callback [createBlobReadStream] gives to [_headOrGetBlob].  The two
    returns for a bad digest header pass the error alone, when it can be
    made: the message for a header that does not parse has two [%s] and
    [util.format] is given one argument, so it ends in [%s]. *)
Definition createBlobReadStream_cb (digest : string) (err : option error)
    (ress : list (option Response))
    : Callback (option BlobStream * list (option Response)) :=
  match err with
  | Some err => Called (Some err) (None, ress)
  | None =>
      match last ress, head ress with
      | Some (Some stream), Some (Some first) =>
          let dcdHeader := headers first !! "docker-content-digest" in
          let finish dcdInfo :=
            Called None (Some {| stream_res := stream; numBytes := 0;
                                 dcdInfo := dcdInfo |}, ress) in
          let fail message :=
            match restify_new BadDigestError message with
            | Ok e => Called (Some e) (None, [])
            | Throw e => Uncaught e
            end in
          if truthy dcdHeader then
            match _parseDockerContentDigest dcdHeader with
            | Throw parseErr =>
                fail ("could not parse Docker-Content-Digest header, "
                        +:+ quoted (str dcdHeader) +:+ ": %s")
            | Ok dcdInfo =>
                if negb (String.eqb (raw dcdInfo) digest) then
                  fail ("Docker-Content-Digest header, " +:+ raw dcdInfo
                          +:+ ", does not match given digest, " +:+ digest)
                else finish (Some dcdInfo)
            end
          else finish None
      | _, _ => Uncaught (TypeError "Cannot read property headers of undefined")
      end
  end.

Definition createBlobReadStream (login : LoginOpts -> result AuthInfo)
    (net : nat -> string -> ReqOpts -> ReqOutcome)
    (digest : string) (self : RegistryClientV2) : option StreamResult :=
  match _headOrGetBlob login net "get" digest self with
  | None => None
  | Some r =>
      Some {| stream_client := blob_client r;
              stream_sent := blob_sent r;
              stream_cb := match blob_cb r with
                           | Called err ress =>
                               createBlobReadStream_cb digest err ress
                           | Uncaught e => Uncaught e
                           end |}
  end.

End Client.

Arguments Called {A} err args.
Arguments Uncaught {A} e.

(** ** Sanitizing errors *)

(** An error object as [_sanitizeErr] reads and writes it. *)
Record ErrObject : Type := mkErrObject {
  err_statusCode : option Z;
  err_message : string
}.

(** [s.split(';')[0]]. *)
Fixpoint before_semicolon (s : string) : string :=
  match s with
  | EmptyString => ""
  | String c rest =>
      if Ascii.eqb c ";"%char then "" else String c (before_semicolon rest)
  end.

(** [_sanitizeErr(err, req, res, errmsg)]; [req] is not used. *)
Definition _sanitizeErr (err : ErrObject) (res : option Response)
    (errmsg : option string) : ErrObject :=
  match res with
  | Some res =>
      let contentType := headers res !! "content-type" in
      if bool_decide (err_statusCode err = Some 404%Z)
         && truthy contentType
         && negb (String.eqb (before_semicolon (str contentType))
                    "application/json")
      then {| err_statusCode := err_statusCode err;
              err_message := if truthy errmsg then str errmsg
                             else "not found" |}
      else err
  | None => err
  end.

(** ** Ping and login of the module *)

Definition DEFAULT_V2_REGISTRY : string := "https://registry-1.docker.io".

(** An index as [common.parseIndex] returns it. *)
Record Index : Type := mkIndex {
  index_name : string;
  official : bool;
  index_scheme : option string
}.

(** [opts.index]: a name or URL still to be parsed, or an index object. *)
Inductive IndexArg : Type :=
  | IndexName (name : string)
  | IndexObject (index : Index).

(** A parsed challenge. *)
Record AuthChallenge : Type := mkAuthChallenge {
  chal_scheme : string;
  chal_parms : gmap string string
}.

(** What [new parsers.WWW_Authenticate(header)] holds: [err], or the
    scheme and the parameters. *)
Inductive Parsed : Type :=
  | ParsedErr (err : string)
  | ParsedChallenge (challenge : AuthChallenge).

(** What the file obtains from [./common] and from the package
    [www-authenticate]. *)
Class Common : Type := {
  parseIndex : string -> result Index;
  urlFromIndex : Index -> string;
  WWW_Authenticate : string -> Parsed
}.

(** What escapes a function as an exception: a failed assertion of
    [assert-plus], or an error. *)
Inductive Thrown : Type :=
  | AssertionError (msg : string)
  | Raised (e : error).

(** What a function of the module does with its callback. *)
Inductive Outcome (A : Type) : Type :=
  | Done (err : option error) (args : A)
  | Threw (t : Thrown).
Arguments Done {A} err args.
Arguments Threw {A} t.

(** [s.toLowerCase()] on characters below 256. *)
Definition lower_char (c : ascii) : ascii :=
  let n := N_of_ascii c in
  if ((65 <=? n) && (n <=? 90)
      || (192 <=? n) && (n <=? 222) && negb (n =? 215))%N
  then ascii_of_N (n + 32) else c.

Fixpoint toLowerCase (s : string) : string :=
  match s with
  | EmptyString => ""
  | String c rest => String (lower_char c) (toLowerCase rest)
  end.

Section Module.
Context `{Platform} `{Common}.

Definition _parseWWWAuthenticate (header : string) : result AuthChallenge :=
  match WWW_Authenticate header with
  | ParsedErr err =>
      let q := String (ascii_of_nat 34) EmptyString in
      Throw (Error ("could not parse WWW-Authenticate header " +:+ q
                      +:+ header +:+ q +:+ ": " +:+ err))
  | ParsedChallenge parsed => Ok parsed
  end.

Record PingOpts : Type := mkPingOpts {
  ping_index : IndexArg;
  ping_username : option string;
  ping_password : option string;
  ping_authInfo : option AuthInfo;
  ping_insecure : option bool;
  ping_rejectUnauthorized : option bool
}.

(** The request of a ping: the URL the client is made for, the
    Authorization header of [GET /v2/], and the TLS option. *)
Record PingRequest : Type := mkPingRequest {
  pingreq_url : string;
  pingreq_authorization : option string;
  pingreq_rejectUnauthorized : option bool
}.

(** What [client.get] of a ping calls back with: [err], [res], and of
    [req] the [host] header. *)
Record PingReply : Type := mkPingReply {
  reply_err : option error;
  reply_res : option Response;
  reply_host : string
}.

(** How far [ping] gets before it sends its request. *)
Inductive PingPrep : Type :=
  | PrepThrew (t : Thrown)
  | PrepErr (indexNameErr : error)
  | PrepRequest (req : PingRequest).

(** [ping(opts, cb)] up to [client.get]. *)
Definition ping_request (opts : PingOpts) : PingPrep :=
  if truthy (ping_username opts)
     && negb (bool_decide (is_Some (ping_password opts))) then
    PrepThrew (AssertionError "opts.password required if username given")
  else
    match match ping_index opts with
          | IndexName name => parseIndex name
          | IndexObject index => Ok index
          end with
    | Throw indexNameErr => PrepErr indexNameErr
    | Ok index =>
        let registryUrl :=
          if official index then DEFAULT_V2_REGISTRY
          else urlFromIndex index in
        match match ping_insecure opts, ping_rejectUnauthorized opts with
              | Some _, Some _ => None
              | Some insecure, None => Some (Some (negb insecure))
              | None, Some rejectUnauthorized =>
                  Some (Some rejectUnauthorized)
              | None, None => Some None
              end with
        | None =>
            PrepThrew (AssertionError
              "cannot set both opts.insecure and opts.rejectUnauthorized")
        | Some rejectUnauthorized =>
            PrepRequest
              {| pingreq_url := registryUrl;
                 pingreq_authorization :=
                   match ping_authInfo opts with
                   | Some authInfo => _authHeaderFromAuthInfo authInfo
                   | None =>
                       if truthy (ping_username opts)
                       then Some (_basicAuthHeader (ping_username opts)
                                    (ping_password opts))
                       else None
                   end;
                 pingreq_rejectUnauthorized := rejectUnauthorized |}
        end
    end.

(** [ping(opts, cb)]: the callback receives [err], [res] and [req] (here
    its [host] header); [body] is left out. *)
Definition ping (client_get : PingRequest -> PingReply) (opts : PingOpts)
    : Outcome (option Response * string) :=
  match ping_request opts with
  | PrepThrew t => Threw t
  | PrepErr indexNameErr => Done (Some indexNameErr) (None, "")
  | PrepRequest req =>
      let reply := client_get req in
      Done (reply_err reply) (reply_res reply, reply_host reply)
  end.

Record LoginArgs : Type := mkLoginArgs {
  lg_index : IndexArg;
  lg_username : option string;
  lg_password : option string;
  lg_scope : option string;
  lg_pingRes : option Response;
  lg_pingErr : option error;
  lg_insecure : option bool;
  lg_rejectUnauthorized : option bool
}.

(** The auth info of a login: [{type: 'basic', username, password}] or
    [{type: 'bearer', token}], without the [type]. *)
Definition basic_authInfo (opts : LoginArgs) : AuthInfo :=
  {| token := None; username := lg_username opts;
     password := lg_password opts |}.

Definition bearer_authInfo (t : string) : AuthInfo :=
  {| token := Some t; username := None; password := None |}.

(** The challenge the hack for quay.io puts in place of a missing one. *)
Definition quay_challenge : string :=
  let q := String (ascii_of_nat 34) "" in
  "Bearer realm=" +:+ q +:+ "https://quay.io/v2/auth" +:+ q
    +:+ ",service=" +:+ q +:+ "quay.io" +:+ q.

(** The steps [parseAuthChallenge], [basicAuthFail], [bearerAuth] and
    [unknownAuthScheme] of the pipeline of [login], with the callback at
    its end. *)
Definition login_challenge (http_get : TokenRequest -> TokenReply)
    (opts : LoginArgs) (index : Index) (chalHeader : string)
    (pingErr : option error) : Outcome (option AuthInfo) :=
  match _parseWWWAuthenticate chalHeader with
  | Throw chalErr =>
      Done (Some (UnauthorizedError "could not parse WWW-Authenticate header"))
        None
  | Ok authChallenge =>
      let scheme := chal_scheme authChallenge in
      let parms := chal_parms authChallenge in
      if String.eqb (toLowerCase scheme) "basic" then
        match pingErr with
        | None => Threw (AssertionError "no pingErr?")
        | Some err => Done (Some err) None
        end
      else if String.eqb (toLowerCase scheme) "bearer" then
        match parms !! "realm" with
        | None => Threw (AssertionError "opts.realm (string) is required")
        | Some realm =>
            let scope := if truthy (lg_scope opts) then str (lg_scope opts)
                         else "" in
            match _getToken http_get
                    {| indexName := index_name index;
                       realm := realm;
                       service := parms !! "service";
                       scopes := Some (if String.eqb scope "" then []
                                       else [scope]);
                       tok_username := lg_username opts;
                       tok_password := lg_password opts;
                       insecure := default false (lg_insecure opts) |} with
            | Throw err => Done (Some err) None
            | Ok t => Done None (Some (bearer_authInfo t))
            end
        end
      else
        Done (Some (UnauthorizedError "unsupported auth scheme")) None
  end.

(** [login(opts, cb)]; the callback receives [err] and, on success, the
    auth info of the result. *)
Definition login (client_get : PingRequest -> PingReply)
    (http_get : TokenRequest -> TokenReply) (opts : LoginArgs)
    : Outcome (option AuthInfo) :=
  if match lg_pingRes opts with
     | Some pingRes => negb (statusCode pingRes =? 200)%Z
                       && negb (bool_decide (is_Some (lg_pingErr opts)))
     | None => false
     end
  then Threw (AssertionError "opts.pingErr (object) is required")
  else
    match match lg_index opts with
          | IndexName name => parseIndex name
          | IndexObject index => Ok index
          end with
    | Throw indexNameErr => Done (Some indexNameErr) None
    | Ok index =>
        let supplied :=
          match lg_pingRes opts with
          | Some pingRes => headers pingRes !! "www-authenticate"
          | None => None
          end in
        if truthy supplied then
          login_challenge http_get opts index (str supplied)
            (lg_pingErr opts)
        else
          match ping client_get
                  {| ping_index := lg_index opts;
                     ping_username := lg_username opts;
                     ping_password := lg_password opts;
                     ping_authInfo := None;
                     ping_insecure := lg_insecure opts;
                     ping_rejectUnauthorized := lg_rejectUnauthorized opts |}
          with
          | Threw t => Threw t
          | Done None (Some res, _) =>
              if (statusCode res =? 200)%Z
              then Done None (Some (basic_authInfo opts))
              else Threw (AssertionError "ping success without 200")
          | Done None (None, _) =>
              Threw (Raised (TypeError
                "Cannot read property statusCode of undefined"))
          | Done (Some err) (res, host) =>
              match res with
              | Some res =>
                  if (statusCode res =? 401)%Z then
                    let chalHeader := headers res !! "www-authenticate" in
                    let chalHeader :=
                      if negb (truthy chalHeader) && String.eqb host "quay.io"
                      then Some quay_challenge else chalHeader in
                    if negb (truthy chalHeader) then
                      Done (Some (UnauthorizedError
                        "missing WWW-Authenticate header in 401 response"))
                        None
                    else
                      login_challenge http_get opts index (str chalHeader)
                        (Some err)
                  else Done (Some err) None
              | None => Done (Some err) None
              end
          end
    end.



(** ** listTags *)

Record RepoTags : Type := mkRepoTags {
  tags_name : string;
  tags : list string
}.

Inductive TagsReply : Type :=
  | TagsErr (err : error)
  | TagsGot (res_ : Response) (repoTags_ : RepoTags).

(** [listTags(cb)]; the callback receives [err], [repoTags] and [res]. *)
Definition listTags (login : LoginOpts -> result AuthInfo)
    (api_get : string -> option string -> TagsReply)
    (self : RegistryClientV2)
    : RegistryClientV2 * Callback (option RepoTags * option Response) :=
  match regLogin login self with
  | (self, Some err) => (self, Called (Some err) (None, None))
  | (self, None) =>
      let self := _api self in
      match api_get ("/v2/" +:+ encodeURI (remoteName self) +:+ "/tags/list")
              (_headers_authorization self) with
      | TagsErr err => (self, Called (Some err) (None, None))
      | TagsGot res_ repoTags_ =>
          (self, Called None (Some repoTags_, Some res_))
      end
  end.

End Module.

Arguments Done {A} err args.
Arguments Threw {A} t.

(** ** Predicates of the statements *)

(** Texts made of word characters, and texts without white space. *)
Fixpoint all_word (s : string) : Prop :=
  match s with
  | EmptyString => True
  | String c rest => is_word_char c = true /\ all_word rest
  end.

Fixpoint no_space (s : string) : Prop :=
  match s with
  | EmptyString => True
  | String c rest => is_space c = false /\ no_space rest
  end.

(** A signature carries the format length [v] and the decoded format tail
    [tail]: its protected header is a JSON text with these two values. *)
Definition carries_value `{Platform} (v : JsValue) (tail : string)
    (sig : ManifestSignature) : Prop :=
  exists ph ft,
    JSON_parse (base64url_decode (protected sig)) = Some ph
    /\ property ph "formatLength" = Ok (Some v)
    /\ property ph "formatTail" = Ok (Some (JsString ft))
    /\ base64url_decode ft = tail.

(** The same, for a format length that is the integer [fl]. *)
Definition carries `{Platform} (fl : Z) (tail : string)
    (sig : ManifestSignature) : Prop :=
  exists q, Qeq q (inject_Z fl) /\ carries_value (JsNumber q) tail sig.

(** The compact form [jws.verify] is given for a signature of the manifest
    and a signing payload. *)
Definition compact_of (payload : list byte) (sig : ManifestSignature)
    : string :=
  protected sig +:+ "." +:+ base64url payload +:+ "." +:+ signature sig.

(** A signature verifies against its embedded JWK, for a signing payload:
    it embeds a JWK, and [mod_jws.verify] accepts its compact form with the
    PEM text of that JWK. *)
Definition verifies_against_jwk `{Platform} (payload : list byte)
    (sig : ManifestSignature) : Prop :=
  exists h k pem,
    header sig = Some h /\ jwk h = Some k /\ jwkToPem k = Ok pem
    /\ mod_jws_verify (compact_of payload sig) (alg h) (Some pem) = Ok true.

(** A signature that embeds no JWK is accepted without a key. *)
Definition verifies_without_key `{Platform} (payload : list byte)
    (sig : ManifestSignature) : Prop :=
  exists h,
    header sig = Some h /\ jwk h = None
    /\ mod_jws_verify (compact_of payload sig) (alg h) None = Ok true.

(** What the verifier has checked of a signature of a returned manifest. *)
Definition signature_verifies `{Platform} (payload : list byte)
    (sig : ManifestSignature) : Prop :=
  verifies_against_jwk payload sig \/ verifies_without_key payload sig.

(** The link between a signature of the manifest and the signature the
    extractor makes of it. *)
Definition extracted `{Platform} (sig : ManifestSignature) (jwsSig : JwsSig)
    : Prop :=
  exists h,
    header sig = Some h
    /\ jws_alg (jws_header jwsSig) = alg h
    /\ jws_chain (jws_header jwsSig) = chain h
    /\ jws_signature jwsSig = signature sig
    /\ jws_protected jwsSig = protected sig
    /\ match jwk h with
       | Some k => exists pem, jwkToPem k = Ok pem
                               /\ jws_jwk (jws_header jwsSig) = Some pem
       | None => jws_jwk (jws_header jwsSig) = None
       end.

(** What the verifier requires of a signature that comes before the one it
    rejects for its algorithm: no certificate chain, and a verification
    that returns. *)
Definition plain_signature `{Platform} (encodedPayload : string)
    (jwsSig : JwsSig) : Prop :=
  jws_chain (jws_header jwsSig) = None
  /\ exists verified,
       mod_jws_verify (jwsCompact encodedPayload jwsSig)
         (jws_alg (jws_header jwsSig)) (jws_jwk (jws_header jwsSig))
       = Ok verified.

(** A text without a colon. *)
Fixpoint no_colon (s : string) : Prop :=
  match s with
  | EmptyString => True
  | String c rest => c <> ":"%char /\ no_colon rest
  end.

(** The three checks of [_verifyJws] let a signature through. *)
Definition sig_passes `{Platform} (encodedPayload : string)
    (jwsSig : JwsSig) : Prop :=
  jws_alg (jws_header jwsSig) <> Some "none"
  /\ jws_chain (jws_header jwsSig) = None
  /\ mod_jws_verify (jwsCompact encodedPayload jwsSig)
       (jws_alg (jws_header jwsSig)) (jws_jwk (jws_header jwsSig))
     = Ok true.

(** The request [makeReq] is called with for a redirect to [location]. *)
Definition redirect_request `{Platform} (location : string) : ReqOpts :=
  let '(protocol, host, path) := mod_url_parse location in
  {| req_url := protocol +:+ "//" +:+ host;
     req_path := path;
     req_headers := None |}.

(** What holds of a client between two operations: once logged in, it keeps
    the auth info of the login and the header made of it. *)
Definition client_inv (self : RegistryClientV2) : Prop :=
  _loggedIn self = true ->
  exists authInfo,
    _authInfo self = Some authInfo
    /\ _headers_authorization self = _authHeaderFromAuthInfo authInfo.

(** The UTF-8 bytes of a text of characters below 256, by arithmetic: one
    byte below 128, else a byte [192 + n / 64] and a byte [128 + n mod 64]. *)
Definition utf8_bytes (s : string) : list byte :=
  flat_map (fun c =>
              let n := N_of_ascii c in
              if (n <? 128)%N then [byte_of_ascii c]
              else [default x00 (Byte.of_N (192 + n / 64));
                    default x00 (Byte.of_N (128 + n mod 64))])
           (list_ascii_of_string s).

(** A text of characters below 128. *)
Fixpoint ascii_text (s : string) : Prop :=
  match s with
  | EmptyString => True
  | String c rest => (N_of_ascii c < 128)%N /\ ascii_text rest
  end.

(** The characters of which URL schemes are made, with the underscore. *)
Definition is_scheme_char (c : ascii) : bool :=
  let n := N_of_ascii c in
  ((48 <=? n) && (n <=? 57) || (65 <=? n) && (n <=? 90)
   || (97 <=? n) && (n <=? 122) || (n =? 95)
   || (n =? 43) || (n =? 45) || (n =? 46))%N.

Fixpoint all_scheme (s : string) : Prop :=
  match s with
  | EmptyString => True
  | String c rest => is_scheme_char c = true /\ all_scheme rest
  end.

(** A URL starts with the scheme [scheme] and [://]. *)
Definition has_scheme (url scheme : string) : Prop :=
  scheme <> "" /\ all_scheme scheme
  /\ exists rest, url = scheme +:+ "://" +:+ rest.

Definition lacks_scheme (url : string) : Prop :=
  forall scheme, ~ has_scheme url scheme.




(** ** A platform for the examples *)

(** A test double of the required packages.  A protected header is written
    [<formatLength>:<formatTail>], where a format length that is not an
    integer is read as a string, and [null] is the JSON [null]; base64url
    decoding leaves such texts as they are.  A signature verifies with a
    key when it is the text [valid]; for the algorithm [none] written in
    another case there is no key and the signature is to be empty.  The
    digest of some bytes is their base64 text, and a message cannot be
    rendered when it holds [%s], [%d] or [%j]. *)
Definition example_number (a : string) : option JsValue :=
  match a with
  | EmptyString => None
  | String c d =>
      match (if Ascii.eqb c "-" then Z.opp <$> digits_value 0 d
             else digits_value 0 a) with
      | Some n => Some (JsNumber (inject_Z n))
      | None => Some (JsString a)
      end
  end.

Definition example_JSON_parse (s : string) : option JsValue :=
  if String.eqb s "null" then Some JsNull
  else
    match strsplit_colon2 s with
    | None => None
    | Some (a, b) =>
        Some (JsObject
                (match example_number a with
                 | Some v => [("formatLength", v)]
                 | None => []
                 end
                 ++ match b with
                    | EmptyString => []
                    | _ => [("formatTail", JsString b)]
                    end)%list)
    end.

Definition example_JSON_stringify (v : JsValue) : string :=
  match v with
  | JsNull => "null"
  | JsBool b => if b then "true" else "false"
  | JsNumber q => pretty (Qtrunc q)
  | JsString s => quoted s
  | JsArray _ => "[]"
  | JsObject _ => "{}"
  end.

Definition example_jwkToPem (k : JWK) : result string :=
  if String.eqb (kty k) "EC" then Ok ("PEM " +:+ jwk_x k +:+ " " +:+ jwk_y k)
  else Throw (Error "Unsupported key type").

Definition ends_with (suffix s : string) : bool :=
  String.prefix (String.rev suffix) (String.rev s).

Definition example_verify (compact : string) (alg key : option string)
    : result bool :=
  match alg with
  | None => Throw (Error "Missing algorithm parameter for jws.verify")
  | Some a =>
      if String.eqb (toLowerCase a) "none" then Ok (ends_with "." compact)
      else match key with
           | Some _ => Ok (ends_with ".valid" compact)
           | None => Throw (TypeError "key must be a string or a buffer")
           end
  end.

Fixpoint has_conversion (s : string) : bool :=
  match s with
  | EmptyString => false
  | String c rest =>
      Ascii.eqb c "%"
      && match rest with
         | String d _ => Ascii.eqb d "s" || Ascii.eqb d "d" || Ascii.eqb d "j"
         | EmptyString => false
         end
      || has_conversion rest
  end.

Definition example_sprintf (s : string) : option string :=
  if has_conversion s then None else Some s.

Definition example_url_parse (u : string) : string * string * string :=
  match String.index 0 "://" u with
  | None => ("", "", u)
  | Some i =>
      let rest := String.substring (i + 3) (String.length u) u in
      let j := default (String.length rest) (String.index 0 "/" rest) in
      (String.substring 0 (i + 1) u, String.substring 0 j rest,
       String.substring j (String.length rest) rest)
  end.

Definition example_stringify (q : list (string * list string)) : string :=
  String.concat "&"
    (flat_map (fun kv => map (fun v => fst kv +:+ "=" +:+ v) (snd kv)) q).

#[local] Instance example_platform : Platform := {|
  base64url_decode := fun s => s;
  JSON_parse := example_JSON_parse;
  JSON_stringify := example_JSON_stringify;
  StringToNumber := fun s => inject_Z <$> digits_value 0 s;
  slice_end := fun v => match v with
                        | JsNumber q => Some (Qtrunc q)
                        | _ => None
                        end;
  sprintf := example_sprintf;
  jwkToPem := example_jwkToPem;
  mod_jws_verify := example_verify;
  crypto_createHash := fun a => String.eqb a "sha256";
  createHash_message := fun a => "Digest method not supported";
  crypto_digest_hex := fun _ b => base64_encode b;
  encodeURI := fun s => s;
  encodeURIComponent := fun s => s;
  mod_url_parse := example_url_parse;
  querystring_stringify := example_stringify
|}.

(** A test double of [./common] and of the challenge parser: an index is
    its name, official when the name is [docker.io]; a challenge is a
    scheme, a space, and parameters [key=value] between commas, with or
    without quotes. *)
Fixpoint cut (c : ascii) (s : string) : option (string * string) :=
  match s with
  | EmptyString => None
  | String a rest =>
      if Ascii.eqb a c then Some ("", rest)
      else match cut c rest with
           | Some (l, r) => Some (String a l, r)
           | None => None
           end
  end.

Fixpoint pieces (c : ascii) (s : string) : list string :=
  match s with
  | EmptyString => [""]
  | String a rest =>
      if Ascii.eqb a c then "" :: pieces c rest
      else match pieces c rest with
           | p :: ps => String a p :: ps
           | [] => [String a ""]
           end
  end.

Fixpoint unquote (s : string) : string :=
  match s with
  | EmptyString => ""
  | String a rest =>
      if Ascii.eqb a (ascii_of_nat 34) then unquote rest
      else String a (unquote rest)
  end.

Definition example_WWW_Authenticate (header : string) : Parsed :=
  match cut " "%char header with
  | None => ParsedErr "no parameters"
  | Some (scheme, rest) =>
      ParsedChallenge
        {| chal_scheme := scheme;
           chal_parms :=
             list_to_map
               (omap (fun p => match cut "="%char p with
                               | Some (k, v) => Some (k, unquote v)
                               | None => None
                               end)
                  (pieces ","%char rest)) |}
  end.

#[local] Instance example_common : Common := {|
  parseIndex := fun name =>
    if String.eqb name "" then Throw (Error "invalid index name")
    else Ok {| index_name := name; official := String.eqb name "docker.io";
               index_scheme := None |};
  urlFromIndex := fun index => "https://" +:+ index_name index;
  WWW_Authenticate := example_WWW_Authenticate
|}.

Definition example_loginArgs (index : string) : LoginArgs :=
  {| lg_index := IndexName index; lg_username := None; lg_password := None;
     lg_scope := Some "repository:library/busybox:pull";
     lg_pingRes := None; lg_pingErr := None;
     lg_insecure := None; lg_rejectUnauthorized := Some true |}.

Definition example_challenge : string :=
  "Bearer realm=https://auth.docker.io/token,service=registry.docker.io".

(** A registry that answers a ping with 401 and the given challenge. *)
Definition example_ping_401 (challenge : option string) (host : string)
    (req : PingRequest) : PingReply :=
  {| reply_err := Some (HttpError 401 "Unauthorized");
     reply_res :=
       Some {| statusCode := 401;
               headers := match challenge with
                          | Some c => {[ "www-authenticate" := c ]}
                          | None => ∅
                          end |};
     reply_host := host |}.

Definition example_ping_200 (req : PingRequest) : PingReply :=
  {| reply_err := None;
     reply_res := Some {| statusCode := 200; headers := ∅ |};
     reply_host := "registry.example.com" |}.

(** ** Inputs of the examples *)

Definition example_tokenOpts (realm : string) (insecure : bool) : TokenOpts :=
  {| indexName := "docker.io"; realm := realm;
     service := Some "registry.docker.io";
     scopes := Some ["repository:library/busybox:pull"];
     tok_username := None; tok_password := None; insecure := insecure |}.

Definition example_http_get (req : TokenRequest) : TokenReply :=
  if String.eqb (tokreq_url req) "https://auth.docker.io"
  then TokenBody (Some "abc") else TokenErr (Error "ENOTFOUND") None.

Definition example_sig (alg : option string) (chain : option (list string))
    (signature protected : string) : ManifestSignature :=
  {| header := Some {| alg := alg;
                       jwk := Some {| kty := "EC"; crv := "P-256";
                                      jwk_x := "Cu_U"; jwk_y := "zUsj" |};
                       chain := chain |};
     signature := signature;
     protected := protected |}.


Definition example_manifest (sigs : list ManifestSignature) : Manifest :=
  {| schemaVersion := 1; name := "library/busybox"; tag := "latest";
     architecture := "amd64"; fsLayers := ["sha256:c862"];
     history := ["{}"]; signatures := sigs |}.

Definition example_jwsSig (alg : option string)
    (chain : option (list string)) (signature : string) : JwsSig :=
  {| jws_header := {| jws_alg := alg; jws_chain := chain;
                      jws_jwk := Some "PEM Cu_U zUsj" |};
     jws_signature := signature;
     jws_protected := "7:}" |}.

Definition example_client : RegistryClientV2 :=
  createClient {| opts_remoteName := "library/busybox";
                  opts_localName := "busybox";
                  opts_url := "https://registry-1.docker.io";
                  opts_username := None; opts_password := None;
                  opts_token := None |}.

Definition example_login (opts : LoginOpts) : result AuthInfo :=
  Ok {| token := Some "abc"; username := None; password := None |}.

(** The digest header of the examples: the example platform's digest of
    the payload [{layers}]. *)
Definition example_manifest_response : Response :=
  {| statusCode := 200;
     headers := {[ "docker-content-digest" := "sha256:e2xheWVyc30=" ]} |}.

Definition example_body : list byte := Buffer_from "{layers},signatures}".

Definition example_api_get (path : string) (authorization : option string)
    : ManifestReply :=
  if String.eqb path "/v2/library/busybox/manifests/latest" then
    ManifestGot example_manifest_response
      (example_manifest [example_sig (Some "ES256") None "valid" "7:}"])
      example_body
  else ManifestErr (HttpError 404 "manifest unknown").

(** A registry that answers the first [k] requests with a redirect to a
    store and the next one with the blob. *)
Definition example_redirect : Response :=
  {| statusCode := 307;
     headers := {[ "location" := "https://cdn.example.com/registry-v2/blob";
                   "docker-content-digest" := "sha256:YmxvYg==" ]} |}.

Definition example_blob_response : Response :=
  {| statusCode := 200; headers := {[ "content-length" := "4" ]} |}.

Definition example_net (k : nat) (n : nat) (method : string)
    (reqOpts : ReqOpts) : ReqOutcome :=
  if (n <? k)%nat then ResultOk example_redirect
  else ResultOk example_blob_response.

(** The stream [createBlobReadStream] returns for that registry after one
    redirect. *)
Definition example_stream : BlobStream :=
  {| stream_res := example_blob_response; numBytes := 0;
     dcdInfo := Some {| raw := "sha256:YmxvYg=="; hash := [];
                        algorithm := "sha256";
                        expectedDigest := "YmxvYg==" |} |}.

(** * Properties *)

(** ** The platform of the examples *)

Lemma example_sprintf_plain (s : string) :
  no_percent s -> example_sprintf s = Some s.
Proof.
  intros Hs. unfold example_sprintf.
  assert (Hno : has_conversion s = false).
  { induction s as [|c rest IH]; [reflexivity |].
    destruct Hs as [Hc Hrest]. cbn [has_conversion].
    rewrite (IH Hrest), orb_false_r.
    apply andb_false_iff. left. apply Ascii.eqb_neq. exact Hc. }
  rewrite Hno. reflexivity.
Qed.

Lemma example_sprintf_conversion (pre post : string) :
  no_percent pre -> example_sprintf (pre +:+ "%s" +:+ post) = None.
Proof.
  intros Hpre. unfold example_sprintf.
  assert (Hyes : has_conversion (pre +:+ "%s" +:+ post) = true).
  { induction pre as [|c rest IH]; [reflexivity |].
    destruct Hpre as [_ Hrest].
    change (String c rest +:+ "%s" +:+ post)
      with (String c (rest +:+ "%s" +:+ post)).
    cbn [has_conversion]. rewrite (IH Hrest). apply orb_true_r. }
  rewrite Hyes. reflexivity.
Qed.

#[local] Instance example_sprintf_laws : SprintfLaws example_platform := {|
  sprintf_plain := example_sprintf_plain;
  sprintf_conversion := example_sprintf_conversion
|}.

(** ** Base64, buffers and splitting *)

Example basicAuthHeader_user_pass :
  _basicAuthHeader (Some "user") (Some "pass") = "Basic dXNlcjpwYXNz".
Proof. reflexivity. Qed.

Example basicAuthHeader_padding :
  _basicAuthHeader (Some "a") (Some "b") = "Basic YTpi"
  /\ _basicAuthHeader (Some "ab") (Some "c") = "Basic YWI6Yw=="
  /\ _basicAuthHeader (Some "ab") (Some "cd") = "Basic YWI6Y2Q=".
Proof. repeat split; reflexivity. Qed.

Example base64url_example :
  base64url (Buffer_from "??>") = "Pz8-" /\ base64url (Buffer_from "a") = "YQ".
Proof. split; reflexivity. Qed.

Example Buffer_slice0_examples :
  Buffer_slice0 (Buffer_from "abcdef") (Some 4%Z) = Buffer_from "abcd"
  /\ Buffer_slice0 (Buffer_from "abcdef") (Some 9%Z) = Buffer_from "abcdef"
  /\ Buffer_slice0 (Buffer_from "abcdef") (Some (-2)%Z) = Buffer_from "abcd"
  /\ Buffer_slice0 (Buffer_from "abcdef") None = Buffer_from "abcdef".
Proof. repeat split; reflexivity. Qed.

Example strsplit_colon2_examples :
  strsplit_colon2 "sha256:ab:cd" = Some ("sha256", "ab:cd")
  /\ strsplit_colon2 "cafebabe" = None.
Proof. split; reflexivity. Qed.

(** ** Authorization header *)

Example authHeader_examples :
  _authHeaderFromAuthInfo
    {| token := Some "tok"; username := Some "u"; password := Some "p" |}
    = Some "Bearer tok"
  /\ _authHeaderFromAuthInfo
       {| token := None; username := Some "user"; password := Some "pass" |}
     = Some "Basic dXNlcjpwYXNz"
  /\ _authHeaderFromAuthInfo
       {| token := None; username := Some "user"; password := None |} = None
  /\ _authHeaderFromAuthInfo
       {| token := Some ""; username := Some "user"; password := Some "pass" |}
     = Some "Basic dXNlcjpwYXNz".
Proof. repeat split; reflexivity. Qed.

Lemma truthy_present (x : option string) : truthy x = true <-> present x.
Proof.
  unfold truthy, present. destruct x as [s|].
  - rewrite negb_true_iff, String.eqb_neq. split.
    + intros Hs. exists s. split; [reflexivity | exact Hs].
    + intros (s' & Heq & Hs'). inversion Heq. subst. exact Hs'.
  - split; [discriminate | intros (s & Heq & _); discriminate].
Qed.

Lemma truthy_absent (x : option string) : truthy x = false <-> ~ present x.
Proof.
  rewrite <- truthy_present. destruct (truthy x); split; intros; done.
Qed.

(** C10: the authorization header of an AuthInfo.  A present token gives
    [Bearer <token>] whatever the username and password are; without a
    token, a present username and password give
    [Basic <base64(username:password)>]; in the other cases (among them a
    username without a password) there is no header. *)
Theorem authHeader_bearer_precedence (a : AuthInfo) :
  (forall t, token a = Some t -> t <> "" ->
     _authHeaderFromAuthInfo a = Some ("Bearer " +:+ t))
  /\ (forall u p, ~ present (token a) ->
        username a = Some u -> u <> "" -> password a = Some p -> p <> "" ->
        _authHeaderFromAuthInfo a
        = Some ("Basic " +:+ base64_encode (Buffer_from (u +:+ ":" +:+ p))))
  /\ (~ present (token a) ->
      ~ present (username a) \/ ~ present (password a) ->
      _authHeaderFromAuthInfo a = None).
Proof.
  unfold _authHeaderFromAuthInfo. repeat split.
  - intros t Ht Hne.
    assert (Hp : truthy (token a) = true)
      by (apply truthy_present; exists t; auto).
    rewrite Hp, Ht. reflexivity.
  - intros u p Htok Hu Hune Hp Hpne.
    apply truthy_absent in Htok. rewrite Htok.
    assert (Hu' : truthy (username a) = true)
      by (apply truthy_present; exists u; auto).
    assert (Hp' : truthy (password a) = true)
      by (apply truthy_present; exists p; auto).
    rewrite Hu', Hp'. simpl. unfold _basicAuthHeader. rewrite Hu, Hp.
    reflexivity.
  - intros Htok Hup. apply truthy_absent in Htok. rewrite Htok.
    destruct Hup as [Hu | Hp].
    + apply truthy_absent in Hu. rewrite Hu. reflexivity.
    + apply truthy_absent in Hp. rewrite Hp, andb_false_r. reflexivity.
Qed.

Lemma authHeader_bearer_precedence_witness :
  _authHeaderFromAuthInfo
    {| token := Some "abc"; username := Some "user"; password := Some "pass" |}
  = Some "Bearer abc"
  /\ _authHeaderFromAuthInfo
       {| token := None; username := Some "user"; password := Some "pass" |}
     = Some "Basic dXNlcjpwYXNz"
  /\ _authHeaderFromAuthInfo
       {| token := None; username := Some "user"; password := None |} = None.
Proof.
  split; [| split].
  - apply (proj1 (authHeader_bearer_precedence
       {| token := Some "abc"; username := Some "user";
          password := Some "pass" |}) "abc"); [reflexivity | discriminate].
  - apply (proj1 (proj2 (authHeader_bearer_precedence
       {| token := None; username := Some "user"; password := Some "pass" |}))
       "user" "pass"); try reflexivity; try discriminate.
    intros (s & Hs & _); discriminate.
  - apply (proj2 (proj2 (authHeader_bearer_precedence
       {| token := None; username := Some "user"; password := None |}))).
    + intros (s & Hs & _); discriminate.
    + right. intros (s & Hs & _); discriminate.
Defined.

(** ** Splitting a header on white space *)

Example split_spaces_examples :
  split_spaces "registry/2.0" = ["registry/2.0"]
  /\ split_spaces "registry/1.0  registry/2.0" = ["registry/1.0"; "registry/2.0"]
  /\ split_spaces " a" = [""; "a"]
  /\ split_spaces "a " = ["a"; ""]
  /\ split_spaces "" = [""].
Proof. repeat split; reflexivity. Qed.

(** ** Reading texts *)

Example exec_scheme_examples :
  exec_scheme "https://auth.docker.io/token" = Some "https"
  /\ exec_scheme "auth.docker.io/token" = None
  /\ exec_scheme "localhost:5000/token" = None
  /\ exec_scheme "ftp://auth.example.com/token" = Some "ftp"
  /\ exec_scheme "://x" = None
  /\ exec_scheme "HTTP://x" = Some "HTTP".
Proof. repeat split; reflexivity. Qed.

Lemma append_nil_l (s : string) : "" +:+ s = s.
Proof. reflexivity. Qed.

Lemma append_cons (c : ascii) (w r : string) :
  String c w +:+ r = String c (w +:+ r).
Proof. reflexivity. Qed.

Lemma append_nil_r (s : string) : s +:+ "" = s.
Proof.
  induction s as [|c s IH]; [reflexivity |].
  rewrite append_cons, IH. reflexivity.
Qed.

Lemma span_word_spec (s : string) :
  s = fst (span_word s) +:+ snd (span_word s)
  /\ all_word (fst (span_word s))
  /\ match snd (span_word s) with
     | String c _ => is_word_char c = false
     | EmptyString => True
     end.
Proof.
  induction s as [|c rest IH]; simpl; [auto |].
  destruct (is_word_char c) eqn:Hc; simpl; [| auto].
  destruct (span_word rest) as [w r]; simpl in *.
  destruct IH as (Heq & Hw & Hr). subst rest. split; [reflexivity | auto].
Qed.

Lemma span_word_app (w r : string) :
  all_word w ->
  match r with
  | String c _ => is_word_char c = false
  | EmptyString => True
  end ->
  span_word (w +:+ r) = (w, r).
Proof.
  intros Hw Hr. induction w as [|c w IH].
  - rewrite append_nil_l. destruct r as [|c r]; [reflexivity |].
    cbn [span_word]. rewrite Hr. reflexivity.
  - destruct Hw as [Hc Hw]. rewrite append_cons. cbn [span_word].
    rewrite Hc, (IH Hw). reflexivity.
Qed.

Lemma prefix_scheme_sep (r : string) :
  String.prefix "://" r = true <-> exists rest, r = "://" +:+ rest.
Proof.
  split.
  - intros Hpre. apply String.prefix_correct in Hpre.
    destruct r as [|c1 [|c2 [|c3 rest]]]; simpl in Hpre; try discriminate.
    injection Hpre as -> -> -> _. exists rest. reflexivity.
  - intros (rest & ->). apply String.prefix_correct.
    destruct rest; reflexivity.
Qed.

(** [exec_scheme] is the match of [/^(\w+):\/\//]: the text starts with a
    run of word characters, not empty, followed by [://]. *)
Lemma exec_scheme_Some (s w : string) :
  exec_scheme s = Some w <->
  w <> "" /\ all_word w /\ exists rest, s = w +:+ "://" +:+ rest.
Proof.
  unfold exec_scheme. split.
  - destruct (span_word_spec s) as (Heq & Hw & _).
    destruct (span_word s) as [w0 r]; simpl in *.
    destruct (String.eqb w0 "") eqn:Hne; [discriminate |].
    destruct (String.prefix "://" r) eqn:Hpre; [| discriminate].
    intros Hsome. injection Hsome as <-.
    apply String.eqb_neq in Hne. apply prefix_scheme_sep in Hpre.
    destruct Hpre as (rest & ->). eauto.
  - intros (Hne & Hw & rest & ->).
    rewrite (span_word_app w ("://" +:+ rest) Hw) by reflexivity.
    apply String.eqb_neq in Hne. rewrite Hne.
    rewrite (proj2 (prefix_scheme_sep ("://" +:+ rest))) by eauto.
    reflexivity.
Qed.

Lemma split_spaces_from_no_space (s : string) : forall cur,
  no_space s -> split_spaces_from cur false s = [cur +:+ s].
Proof.
  induction s as [|c rest IH]; intros cur Hs; cbn [split_spaces_from].
  - rewrite append_nil_r. reflexivity.
  - destruct Hs as [Hc Hrest]. rewrite Hc, (IH _ Hrest). f_equal.
    induction cur as [|a cur IHc]; [reflexivity |].
    rewrite !append_cons, IHc. reflexivity.
Qed.

Lemma no_space_snoc (cur : string) (c : ascii) :
  no_space cur -> is_space c = false -> no_space (cur +:+ String c "").
Proof.
  intros Hcur Hc. induction cur as [|a cur IH].
  - rewrite append_nil_l. split; [exact Hc | exact I].
  - rewrite append_cons. destruct Hcur as [Ha Hcur].
    split; [exact Ha | exact (IH Hcur)].
Qed.

(** The pieces a header is split into have no white space. *)
Lemma split_spaces_from_pieces (s : string) : forall cur in_sep,
  no_space cur -> Forall no_space (split_spaces_from cur in_sep s).
Proof.
  induction s as [|c rest IH]; intros cur in_sep Hcur; simpl.
  - constructor; [exact Hcur | constructor].
  - destruct (is_space c) eqn:Hc.
    + destruct in_sep; [apply IH; exact I |].
      constructor; [exact Hcur | apply IH; exact I].
    + apply IH. apply no_space_snoc; assumption.
Qed.

Lemma append_assoc (a b c : string) : (a +:+ b) +:+ c = a +:+ b +:+ c.
Proof.
  induction a as [|x a IH]; [reflexivity |].
  rewrite !append_cons, IH. reflexivity.
Qed.





(** ** supportsV2 *)


Section SupportsV2.
Context `{Platform} `{Common}.


End SupportsV2.



Example supportsV2_examples :
  supportsV2_cb (Some (HttpError 401 "Unauthorized"))
    (Some {| statusCode := 401;
             headers := {[ "docker-distribution-api-version"
                             := "registry/2.0" ]} |}) = (None, true)
  /\ supportsV2_cb (Some (HttpError 404 "Not Found"))
       (Some {| statusCode := 404;
                headers := {[ "docker-distribution-api-version"
                                := "registry/2.0" ]} |}) = (None, false)
  /\ supportsV2_cb None
       (Some {| statusCode := 200;
                headers := {[ "docker-distribution-api-version"
                                := "registry/2.0a" ]} |}) = (None, false)
  /\ supportsV2_cb (Some (Error "connect ECONNREFUSED")) None = (None, false).
Proof. repeat split; vm_compute; reflexivity. Qed.

(** ** The token fetcher *)

Lemma word_scheme_char (c : ascii) :
  is_word_char c = true -> is_scheme_char c = true.
Proof.
  unfold is_word_char, is_scheme_char. intros ->. reflexivity.
Qed.

Lemma all_word_scheme (w : string) : all_word w -> all_scheme w.
Proof.
  induction w as [|c w IH]; [auto |].
  intros [Hc Hw]. split; [apply word_scheme_char; exact Hc | exact (IH Hw)].
Qed.

Section TokenFetcher.
Context `{Platform}.

(** C7, as the code has it: a realm without a scheme gets [https://] (or
    [http://] when [insecure]) in front and the token is requested there; a
    realm with a scheme of word characters that is neither [http] nor
    [https] makes the fetch fail, before any request, with a plain [Error]
    (not an Unauthorized error). *)
Theorem getToken_realm_scheme (http_get : TokenRequest -> TokenReply)
    (opts : TokenOpts) :
  (lacks_scheme (realm opts) ->
     _getToken http_get opts
     = getToken_fetch http_get opts
         ((if insecure opts then "http://" else "https://") +:+ realm opts))
  /\ (forall scheme rest,
        realm opts = scheme +:+ "://" +:+ rest ->
        scheme <> "" -> all_word scheme ->
        scheme <> "http" -> scheme <> "https" ->
        exists msg, _getToken http_get opts = Throw (Error msg)).
Proof.
  unfold _getToken, getToken_tokenUrl. split.
  - intros Hlacks.
    destruct (exec_scheme (realm opts)) as [w|] eqn:Hexec.
    + apply exec_scheme_Some in Hexec. destruct Hexec as (Hne & Hw & Hrest).
      exfalso. apply (Hlacks w). split; [exact Hne |].
      split; [apply all_word_scheme; exact Hw | exact Hrest].
    + simpl. destruct (insecure opts); reflexivity.
  - intros scheme rest Hrealm Hne Hw Hhttp Hhttps.
    rewrite (proj2 (exec_scheme_Some (realm opts) scheme)) by eauto.
    rewrite bool_decide_eq_true_2.
    + simpl. eexists. reflexivity.
    + intros Hin. apply list_elem_of_In in Hin.
      destruct Hin as [<- | [<- | []]]; congruence.
Qed.

End TokenFetcher.

(** A realm is shown to lack a scheme by reading it character by
    character. *)
Ltac no_scheme Hne Hall Heq :=
  repeat match type of Heq with
    | _ = ?scheme +:+ _ =>
        destruct scheme as [|? scheme];
        [ first [ exact (Hne eq_refl) | vm_compute in Heq; discriminate Heq ]
        | rewrite append_cons in Heq; injection Heq as <- Heq;
          let Hc := fresh "Hc" in
          destruct Hall as [Hc Hall];
          try (vm_compute in Hc; discriminate Hc) ]
    end.

Lemma getToken_realm_scheme_witness :
  _getToken example_http_get (example_tokenOpts "auth.docker.io/token" false)
  = Ok "abc"
  /\ exists msg,
       _getToken example_http_get
         (example_tokenOpts "ftp://auth.docker.io/token" false)
       = Throw (Error msg).
Proof.
  split.
  - rewrite (proj1 (getToken_realm_scheme example_http_get
               (example_tokenOpts "auth.docker.io/token" false)));
      [reflexivity |].
    intros scheme (Hne & Hall & rest & Heq). simpl in Heq.
    no_scheme Hne Hall Heq.
  - apply (proj2 (getToken_realm_scheme example_http_get
               (example_tokenOpts "ftp://auth.docker.io/token" false))
             "ftp" "auth.docker.io/token");
      [reflexivity | discriminate | repeat split | discriminate
       | discriminate].
Defined.

(** The fetch for a realm with the scheme [ftp] fails, but not with an
    Unauthorized error. *)
Lemma getToken_bad_scheme_not_Unauthorized :
  exists e,
    _getToken example_http_get
      (example_tokenOpts "ftp://auth.docker.io/token" false) = Throw e
    /\ isUnauthorized e = false.
Proof. eexists. split; reflexivity. Qed.

(** A realm whose scheme has a character that is no word character is
    taken to have no scheme: the expression of line 162 does not match it,
    [https://] is put in front and a request is sent. *)
Example getToken_scheme_with_plus :
  has_scheme "svn+ssh://auth.example.com/token" "svn+ssh"
  /\ getToken_tokenUrl (example_tokenOpts "svn+ssh://auth.example.com/token"
                          false)
     = Ok "https://svn+ssh://auth.example.com/token".
Proof.
  split; [| reflexivity].
  split; [discriminate |]. split; [repeat split |].
  exists "auth.example.com/token". reflexivity.
Qed.

(** ** The JWS extractor *)

Example jwsFromManifest_examples :
  (payload <$> _jwsFromManifest
     (example_manifest [example_sig (Some "ES256") None "valid" "7:}"])
     example_body) = Ok (Buffer_from "{layers}")
  /\ (exists msg,
        payload <$> _jwsFromManifest
          (example_manifest [example_sig (Some "ES256") None "valid" "7:}";
                             example_sig (Some "ES256") None "valid" "9:}"])
          example_body
        = Throw (InvalidContentError msg 1))
  /\ (payload <$> _jwsFromManifest (example_manifest []) example_body)
     = Throw (TypeError "must start with number, buffer, array or string")
  /\ (payload <$> _jwsFromManifest
        (example_manifest [example_sig (Some "ES256") None "valid" "null"])
        example_body)
     = Throw (TypeError "Cannot read property 'formatLength' of null")
  /\ (payload <$> _jwsFromManifest
        (example_manifest [{| header := None; signature := "valid";
                              protected := "7:}" |}])
        example_body)
     = Throw (TypeError "Cannot read property 'alg' of undefined").
Proof.
  split; [reflexivity |]. split; [eexists; reflexivity |].
  repeat split; reflexivity.
Qed.

Example ToNumber_examples :
  isNaN_value None = true
  /\ isNaN_value (Some JsNull) = false
  /\ isNaN_value (Some (JsBool true)) = false
  /\ isNaN_value (Some (JsString "12")) = false
  /\ isNaN_value (Some (JsString "%s")) = true
  /\ isNaN_value (Some (JsArray [])) = false
  /\ isNaN_value (Some (JsArray [JsNumber (5 # 2)])) = false
  /\ isNaN_value (Some (JsArray [JsNumber 1; JsNumber 2])) = true
  /\ isNaN_value (Some (JsObject [])) = true
  /\ Qtrunc (5 # 2) = 2%Z /\ Qtrunc (- 5 # 2) = (- 2)%Z.
Proof. repeat split; reflexivity. Qed.

Lemma Qtrunc_inject_Z (q : Q) (z : Z) : Qeq q (inject_Z z) -> Qtrunc q = z.
Proof.
  destruct q as [n d]. unfold Qeq, Qtrunc. simpl. intros Heq.
  rewrite Z.mul_1_r in Heq. subst n. apply Z.quot_mul. discriminate.
Qed.

Lemma int32_inject_Z (q : Q) (z : Z) :
  Qeq q (inject_Z z) -> (- 2 ^ 31 <= z < 2 ^ 31)%Z -> int32 q = true.
Proof.
  intros Heq Hz. unfold int32. rewrite (Qtrunc_inject_Z q z Heq).
  destruct q as [n d]. unfold Qeq in Heq. simpl in Heq.
  rewrite Z.mul_1_r in Heq. subst n. cbn [Qnum Qden].
  rewrite Z.rem_mul by discriminate.
  apply andb_true_iff. split; [apply andb_true_iff; split |].
  - reflexivity.
  - apply Z.leb_le. lia.
  - apply Z.ltb_lt. lia.
Qed.

Lemma Buffer_from_utf8_bytes (s : string) : Buffer_from s = utf8_bytes s.
Proof.
  unfold Buffer_from, utf8_bytes.
  induction (list_ascii_of_string s) as [|c l IH]; [reflexivity |].
  simpl. rewrite IH. f_equal.
  destruct c as [[] [] [] [] [] [] [] []]; reflexivity.
Qed.

Lemma utf8_bytes_ascii (s : string) :
  ascii_text s -> utf8_bytes s = map byte_of_ascii (list_ascii_of_string s).
Proof.
  unfold utf8_bytes. induction s as [|c s IH]; [reflexivity |].
  intros [Hc Hs]. simpl. apply N.ltb_lt in Hc. rewrite Hc. simpl.
  rewrite (IH Hs). reflexivity.
Qed.

Section JwsExtractor.
Context `{Platform}.

(** The error of a constructor of restify is the one asked for, or the
    plain error of the rendering of its message. *)
Lemma restify_error_cases (ctor : string -> error) (msg : string) :
  (exists m, sprintf msg = Some m /\ restify_error ctor msg = ctor m)
  \/ (sprintf msg = None
      /\ restify_error ctor msg = Error "too few args to sprintf").
Proof.
  unfold restify_error, restify_new. destruct (sprintf msg); eauto.
Qed.

Lemma restify_error_plain `{!SprintfLaws H} (ctor : string -> error)
    (msg : string) :
  no_percent msg -> restify_error ctor msg = ctor msg.
Proof.
  intros Hmsg. unfold restify_error, restify_new.
  rewrite (sprintf_plain msg Hmsg). reflexivity.
Qed.

Lemma jwsFromManifest_step_Ok i sig st st' :
  jwsFromManifest_step i sig st = Ok st' ->
  exists ph v ft,
    JSON_parse (base64url_decode (protected sig)) = Some ph
    /\ property ph "formatLength" = Ok (Some v)
    /\ isNaN_value (Some v) = false
    /\ property ph "formatTail" = Ok (Some (JsString ft)) /\ ft <> ""
    /\ match loop_formatLength st with
       | Some v0 => strict_eq v v0 = true /\ loop_formatLength st' = Some v0
       | None => loop_formatLength st' = Some v
       end
    /\ loop_formatTail st' = Some (base64url_decode ft)
    /\ (forall t0, loop_formatTail st = Some t0 -> t0 = base64url_decode ft)
    /\ exists jwsSig,
         loop_signatures st' = (loop_signatures st ++ [jwsSig])%list
         /\ extracted sig jwsSig.
Proof.
  unfold jwsFromManifest_step. intros Hstep.
  destruct (JSON_parse (base64url_decode (protected sig))) as [ph|] eqn:Hph;
    cbn [bind] in Hstep; [| discriminate].
  destruct (property ph "formatLength") as [fl_|e] eqn:Hfl;
    cbn [bind] in Hstep; [| discriminate].
  destruct (isNaN_value fl_) eqn:Hnan; cbn [bind] in Hstep; [discriminate |].
  destruct fl_ as [v|]; [| discriminate Hnan].
  destruct (loop_formatLength st) as [v0|] eqn:Hv0;
    [destruct (strict_eq v v0) eqn:Heq; cbn [negb bind] in Hstep;
       [| discriminate Hstep]
    | cbn [bind] in Hstep];
    (destruct (property ph "formatTail") as [ft_|e] eqn:Hft;
       cbn [bind] in Hstep; [| discriminate Hstep]);
    (destruct ft_ as [[| | |ft| |]|]; cbn [bind] in Hstep;
       try discriminate Hstep);
    (destruct (String.eqb ft "") eqn:Hne; cbn [bind] in Hstep;
       [discriminate Hstep |]; apply String.eqb_neq in Hne);
    (destruct (loop_formatTail st) as [t0|] eqn:Ht0; cbn [bind] in Hstep;
       [destruct (String.eqb (base64url_decode ft) t0) eqn:Hteq;
          cbn [negb bind] in Hstep;
          [apply String.eqb_eq in Hteq; subst t0 | discriminate Hstep] |]);
    (destruct (header sig) as [h|] eqn:Hh; cbn [bind] in Hstep;
       [| discriminate Hstep]);
    (destruct (jwk h) as [k|] eqn:Hk; cbn [bind] in Hstep;
       [destruct (jwkToPem k) as [p|] eqn:Hp; cbn [bind] in Hstep;
          [| discriminate Hstep] |]);
    injection Hstep as <-;
    cbn [loop_formatLength loop_formatTail loop_signatures];
    exists ph, v, ft;
    (repeat split; auto; try congruence);
    (eexists; split; [reflexivity |]; exists h;
     cbn [jws_header jws_alg jws_chain jws_jwk jws_signature jws_protected];
     rewrite Hk; repeat split; eauto).
Qed.



(** What the loop has established when it ends without an exception: the
    two variables are kept once set, every signature carries the decoded
    tail and a format length that is the one kept or strictly equal to it,
    and each signature was extracted. *)
Lemma jwsFromManifest_loop_Ok sigs : forall i st st',
  jwsFromManifest_loop i sigs st = Ok st' ->
  (forall v, loop_formatLength st = Some v -> loop_formatLength st' = Some v)
  /\ (forall t, loop_formatTail st = Some t -> loop_formatTail st' = Some t)
  /\ (sigs = [] -> st' = st)
  /\ (sigs <> [] ->
      exists v tail,
        loop_formatLength st' = Some v
        /\ loop_formatTail st' = Some tail
        /\ Forall (fun sig =>
                     exists v', carries_value v' tail sig
                                /\ isNaN_value (Some v') = false
                                /\ (v' = v \/ strict_eq v' v = true)) sigs)
  /\ exists jwsSigs,
       loop_signatures st' = (loop_signatures st ++ jwsSigs)%list
       /\ Forall2 extracted sigs jwsSigs.
Proof.
  induction sigs as [|sig rest IH]; intros i st st' Hloop; simpl in Hloop.
  - inversion Hloop; subst st'. repeat split; auto; try congruence.
    exists []. rewrite app_nil_r. split; [reflexivity | constructor].
  - destruct (jwsFromManifest_step i sig st) as [st1|e1] eqn:Hstep;
      simpl in Hloop; [| discriminate].
    apply jwsFromManifest_step_Ok in Hstep.
    destruct Hstep as (ph & v & ft & Hph & Hfl & Hnan & Hft & Hne & Hfl1 & Ht1
                       & Hkeept & jwsSig & Hsigs1 & Hext).
    destruct (IH _ _ _ Hloop) as (Hfl' & Ht' & Hnil & Hcons & js & Hjs & Hall).
    assert (Hcar : carries_value v (base64url_decode ft) sig).
    { exists ph, ft. auto. }
    assert (Hkept : exists v1, loop_formatLength st1 = Some v1
                               /\ (v = v1 \/ strict_eq v v1 = true)
                               /\ (forall v0, loop_formatLength st = Some v0
                                              -> v0 = v1)).
    { destruct (loop_formatLength st) as [v0|].
      - destruct Hfl1 as [Heq Hfl1]. exists v0.
        split; [exact Hfl1 |]. split; [auto |]. congruence.
      - exists v. split; [exact Hfl1 |]. split; [auto | discriminate]. }
    destruct Hkept as (v1 & Hv1 & Hvv1 & Hkeepfl).
    repeat split.
    + intros v0 Hv0. apply Hkeepfl in Hv0. subst v0. auto.
    + intros t0 Ht0. apply Hkeept in Ht0. subst t0. auto.
    + discriminate.
    + intros _. exists v1, (base64url_decode ft).
      split; [auto | split; [auto |]]. constructor; [eauto |].
      destruct rest as [|sig2 rest'].
      * constructor.
      * destruct Hcons as (v2 & tail2 & Hv2 & Ht2 & Hrest); [discriminate |].
        rewrite (Hfl' _ Hv1) in Hv2. rewrite (Ht' _ Ht1) in Ht2.
        inversion Hv2; inversion Ht2; subst. exact Hrest.
    + exists (jwsSig :: js). split.
      * rewrite Hjs, Hsigs1, <- app_assoc. reflexivity.
      * constructor; assumption.
Qed.

Lemma Buffer_slice0_take (buf : list byte) (n : Z) :
  (0 <= n)%Z -> Buffer_slice0 buf (Some n) = take (Z.to_nat n) buf.
Proof.
  intros Hn. unfold Buffer_slice0.
  destruct (Z.of_nat (length buf) <=? n)%Z eqn:Hlen.
  - apply Z.leb_le in Hlen. rewrite Nat2Z.id.
    rewrite firstn_all. symmetry. apply firstn_all2. lia.
  - destruct (0 <=? n)%Z eqn:H0; [reflexivity |].
    apply Z.leb_gt in H0. lia.
Qed.

(** A signature carries one format length and one tail. *)
Lemma carries_value_functional v1 t1 v2 t2 sig :
  carries_value v1 t1 sig -> carries_value v2 t2 sig -> v1 = v2 /\ t1 = t2.
Proof.
  intros (ph1 & ft1 & Hph1 & Hfl1 & Hft1 & Ht1)
         (ph2 & ft2 & Hph2 & Hfl2 & Hft2 & Ht2).
  rewrite Hph1 in Hph2. injection Hph2 as <-.
  rewrite Hfl1 in Hfl2. injection Hfl2 as <-.
  rewrite Hft1 in Hft2. injection Hft2 as <-.
  split; [reflexivity | congruence].
Qed.

(** A value strictly equal to a number is that number. *)
Lemma strict_eq_number (v : JsValue) (q : Q) :
  v = JsNumber q \/ strict_eq v (JsNumber q) = true
  \/ strict_eq (JsNumber q) v = true ->
  exists p, v = JsNumber p /\ Qeq p q.
Proof.
  intros [-> | [Heq | Heq]].
  - exists q. split; [reflexivity | apply Qeq_refl].
  - destruct v; try discriminate. simpl in Heq. apply Qeq_bool_iff in Heq.
    eauto.
  - destruct v; try discriminate. simpl in Heq. apply Qeq_bool_iff in Heq.
    eexists. split; [reflexivity | symmetry; exact Heq].
Qed.

(** C3, as the code has it: the extractor accepts no manifest without a
    signature; when it accepts one in which a signature carries a format
    length that is an integer of 32 bits and not negative, every signature
    carries that format length and the same decoded tail, and the payload
    is the first [formatLength] bytes of the raw body followed by the
    UTF-8 bytes of the decoded tail, which are its characters, byte for
    byte, when they are below 128. *)
Theorem jwsFromManifest_payload_spliced (manifest : Manifest)
    (body : list byte) (jws : Jws) :
  _jwsFromManifest manifest body = Ok jws ->
  signatures manifest <> []
  /\ forall sig fl tail,
       sig ∈ signatures manifest -> carries fl tail sig ->
       (0 <= fl < 2 ^ 31)%Z ->
       Forall (carries fl tail) (signatures manifest)
       /\ payload jws = (take (Z.to_nat fl) body ++ utf8_bytes tail)%list
       /\ (ascii_text tail ->
           payload jws
           = (take (Z.to_nat fl) body
                ++ map byte_of_ascii (list_ascii_of_string tail))%list).
Proof.
  unfold _jwsFromManifest. intros Hjws.
  destruct (jwsFromManifest_loop 0 (signatures manifest) _) as [st|e]
    eqn:Hloop; cbn [bind] in Hjws; [| discriminate].
  apply jwsFromManifest_loop_Ok in Hloop.
  destruct Hloop as (_ & _ & Hnil & Hcons & _).
  destruct (signatures manifest) as [|sig0 rest] eqn:Hsigs.
  { rewrite Hnil in Hjws by reflexivity. simpl in Hjws. discriminate. }
  split; [discriminate |].
  destruct Hcons as (v & tail0 & Hfl & Ht & Hall); [discriminate |].
  rewrite Ht, Hfl in Hjws. injection Hjws as <-. cbn [payload].
  intros sig fl tail Hin (q & Hq & Hcar) Hfl32.
  rewrite Forall_forall in Hall.
  destruct (Hall _ Hin) as (v' & Hcar' & _ & Hv').
  destruct (carries_value_functional _ _ _ _ _ Hcar Hcar') as [<- <-].
  assert (Hv : exists p, v = JsNumber p /\ Qeq p q).
  { destruct Hv' as [<- | Heq].
    - exists q. split; [reflexivity | apply Qeq_refl].
    - apply strict_eq_number. auto. }
  destruct Hv as (p & -> & Hp).
  assert (Hpfl : Qeq p (inject_Z fl)) by (rewrite Hp; exact Hq).
  assert (Hpayload : (Buffer_slice body (Some (JsNumber p))
                        ++ Buffer_from tail)%list
                     = (take (Z.to_nat fl) body ++ utf8_bytes tail)%list).
  { cbn [Buffer_slice]. rewrite (int32_inject_Z p fl Hpfl) by lia.
    rewrite (Qtrunc_inject_Z p fl Hpfl), Buffer_slice0_take by lia.
    rewrite Buffer_from_utf8_bytes. reflexivity. }
  split; [| split; [exact Hpayload |]].
  - apply Forall_forall. intros sig1 Hin1.
    destruct (Hall _ Hin1) as (v1 & Hcar1 & _ & Hv1).
    assert (Hn : exists r, v1 = JsNumber r /\ Qeq r p).
    { apply strict_eq_number. destruct Hv1; auto. }
    destruct Hn as (r & -> & Hr). exists r.
    split; [rewrite Hr; exact Hpfl | exact Hcar1].
  - intros Hascii. etransitivity; [exact Hpayload |].
    rewrite utf8_bytes_ascii by exact Hascii. reflexivity.
Qed.

End JwsExtractor.

Lemma jwsFromManifest_payload_spliced_witness :
  let manifest :=
    example_manifest [example_sig (Some "ES256") None "valid" "7:}";
                      example_sig (Some "ES256") None "valid" "7:}"] in
  match _jwsFromManifest manifest example_body with
  | Ok jws =>
      Forall (carries 7 "}") (signatures manifest)
      /\ payload jws = (take 7 example_body ++ utf8_bytes "}")%list
      /\ payload jws = Buffer_from "{layers}"
  | Throw _ => False
  end.
Proof.
  intros manifest.
  destruct (_jwsFromManifest manifest example_body) as [jws|e] eqn:E.
  - destruct (jwsFromManifest_payload_spliced manifest example_body jws E)
      as [_ Hall].
    destruct (Hall (example_sig (Some "ES256") None "valid" "7:}") 7%Z "}")
      as (Hcar & Hpayload & Hascii).
    + apply elem_of_cons. left. reflexivity.
    + exists (inject_Z 7). split; [reflexivity |].
      eexists _, "}". repeat split; reflexivity.
    + lia.
    + split; [exact Hcar |]. split; [exact Hpayload |].
      rewrite Hascii by (simpl; repeat split; reflexivity). reflexivity.
  - vm_compute in E. discriminate.
Defined.

(** A protected header with the format length -2 is accepted, and the
    payload is then the body without its last two bytes, followed by the
    tail: not the first [formatLength] bytes of the body. *)
Lemma jwsFromManifest_negative_formatLength :
  let manifest :=
    example_manifest [example_sig (Some "ES256") None "valid" "-2:}"] in
  let body := Buffer_from "abcdef" in
  exists jws,
    _jwsFromManifest manifest body = Ok jws
    /\ Forall (carries (-2) "}") (signatures manifest)
    /\ payload jws = Buffer_from "abcd}"
    /\ payload jws <> (take (Z.to_nat (-2)) body ++ Buffer_from "}")%list.
Proof.
  eexists. split; [reflexivity |]. split.
  - constructor; [| constructor]. exists (inject_Z (-2)).
    split; [reflexivity |]. eexists _, "}". repeat split; reflexivity.
  - split; [reflexivity | discriminate].
Qed.

(** C4 fails on the code: two signatures that carry different decoded
    tails, the second one [%s], make the extractor fail, but the message
    of the InvalidContent error holds that tail, the constructor cannot
    render it, and what is thrown is a plain [Error]; the same happens for
    a format length [%s], which is not a number; and a protected header
    that is the JSON [null], which has no format length, makes it throw a
    TypeError. *)
Theorem jwsFromManifest_conflict_plain_Error :
  let conflict :=
    example_manifest [example_sig (Some "ES256") None "valid" "7:}";
                      example_sig (Some "ES256") None "valid" "7:%s"] in
  let nan :=
    example_manifest [example_sig (Some "ES256") None "valid" "%s:}"] in
  carries 7 "}" (example_sig (Some "ES256") None "valid" "7:}")
  /\ carries 7 "%s" (example_sig (Some "ES256") None "valid" "7:%s")
  /\ _jwsFromManifest conflict example_body
     = Throw (Error "too few args to sprintf")
  /\ (exists ph,
        JSON_parse (base64url_decode "%s:}") = Some ph
        /\ property ph "formatLength" = Ok (Some (JsString "%s"))
        /\ isNaN_value (Some (JsString "%s")) = true)
  /\ _jwsFromManifest nan example_body
     = Throw (Error "too few args to sprintf")
  /\ JSON_parse (base64url_decode "null") = Some JsNull
  /\ _jwsFromManifest
       (example_manifest [example_sig (Some "ES256") None "valid" "null"])
       example_body
     = Throw (TypeError "Cannot read property 'formatLength' of null").
Proof.
  intros conflict nan. split; [| split].
  - exists (inject_Z 7). split; [reflexivity |].
    eexists _, "}". repeat split; reflexivity.
  - exists (inject_Z 7). split; [reflexivity |].
    eexists _, "%s". repeat split; reflexivity.
  - split; [reflexivity |]. split; [| repeat split; reflexivity].
    eexists. repeat split; reflexivity.
Qed.

(** ** The JWS verifier *)

Example verifyJws_examples :
  _verifyJws {| jws_signatures := [example_jwsSig (Some "ES256") None "valid"];
                payload := Buffer_from "{layers}" |} = Ok tt
  /\ _verifyJws {| jws_signatures := [example_jwsSig (Some "ES256") None "bad"];
                   payload := Buffer_from "{layers}" |}
     = Throw (ManifestVerificationError "JWS signature failed verification" 0)
  /\ _verifyJws {| jws_signatures := [example_jwsSig (Some "ES256") None "valid";
                                      example_jwsSig (Some "none") None "valid"];
                   payload := Buffer_from "{layers}" |}
     = Throw (ManifestVerificationError "disallowed JWS signature algorithm" 1).
Proof. repeat split; reflexivity. Qed.

Section JwsVerifier.
Context `{Platform}.

Lemma verifyJws_step_none ep i jwsSig :
  jws_alg (jws_header jwsSig) = Some "none" ->
  verifyJws_step ep i jwsSig
  = Throw (ManifestVerificationError "disallowed JWS signature algorithm" i).
Proof.
  intros Halg. unfold verifyJws_step. rewrite Halg.
  rewrite bool_decide_eq_true_2; [reflexivity |].
  unfold disallowedAlgs. apply list_elem_of_In. simpl. auto.
Qed.

Lemma verifyJws_step_plain ep i jwsSig :
  plain_signature ep jwsSig ->
  verifyJws_step ep i jwsSig = Ok tt
  \/ exists msg, verifyJws_step ep i jwsSig
                 = Throw (ManifestVerificationError msg i).
Proof.
  intros (Hchain & verified & Hver). unfold verifyJws_step.
  destruct (bool_decide (jws_alg (jws_header jwsSig) ∈ disallowedAlgs));
    [right; eauto |].
  rewrite Hchain. rewrite bool_decide_eq_false_2 by (intros [x Hx]; discriminate).
  rewrite Hver. simpl. destruct verified; simpl; [left | right]; eauto.
Qed.

Lemma verifyJws_step_Ok ep i jwsSig :
  verifyJws_step ep i jwsSig = Ok tt ->
  jws_alg (jws_header jwsSig) <> Some "none"
  /\ jws_chain (jws_header jwsSig) = None
  /\ mod_jws_verify (jwsCompact ep jwsSig) (jws_alg (jws_header jwsSig))
       (jws_jwk (jws_header jwsSig)) = Ok true.
Proof.
  unfold verifyJws_step. intros Hstep.
  destruct (bool_decide (jws_alg (jws_header jwsSig) ∈ disallowedAlgs))
    eqn:Halg; [discriminate |].
  apply bool_decide_eq_false_1 in Halg.
  destruct (jws_chain (jws_header jwsSig)) as [c|] eqn:Hchain.
  { rewrite bool_decide_eq_true_2 in Hstep by eauto. discriminate. }
  rewrite bool_decide_eq_false_2 in Hstep by (intros [x Hx]; discriminate).
  destruct (mod_jws_verify _ _ _) as [[|]|e]; simpl in Hstep;
    try discriminate.
  split; [| split; reflexivity].
  intros Hnone. apply Halg. rewrite Hnone. unfold disallowedAlgs.
  apply list_elem_of_In. simpl. auto.
Qed.

Lemma verifyJws_loop_Ok ep sigs : forall i,
  verifyJws_loop ep i sigs = Ok tt ->
  Forall (fun jwsSig =>
            jws_alg (jws_header jwsSig) <> Some "none"
            /\ jws_chain (jws_header jwsSig) = None
            /\ mod_jws_verify (jwsCompact ep jwsSig)
                 (jws_alg (jws_header jwsSig))
                 (jws_jwk (jws_header jwsSig)) = Ok true) sigs.
Proof.
  induction sigs as [|jwsSig rest IH]; intros i Hloop; [constructor |].
  simpl in Hloop.
  destruct (verifyJws_step ep i jwsSig) as [[]|e] eqn:Hstep;
    simpl in Hloop; [| discriminate].
  constructor; [eapply verifyJws_step_Ok; eassumption | eapply IH; eassumption].
Qed.

Lemma verifyJws_loop_none ep pre : forall i jwsSig post,
  jws_alg (jws_header jwsSig) = Some "none" ->
  exists e, verifyJws_loop ep i (pre ++ jwsSig :: post) = Throw e.
Proof.
  induction pre as [|x pre IH]; intros i jwsSig post Halg; simpl.
  - rewrite verifyJws_step_none by assumption. simpl. eauto.
  - destruct (verifyJws_step ep i x) as [[]|e]; simpl; eauto.
Qed.

Lemma verifyJws_loop_none_plain ep pre : forall i jwsSig post,
  jws_alg (jws_header jwsSig) = Some "none" ->
  Forall (plain_signature ep) pre ->
  exists msg j, verifyJws_loop ep i (pre ++ jwsSig :: post)
                = Throw (ManifestVerificationError msg j).
Proof.
  induction pre as [|x pre IH]; intros i jwsSig post Halg Hpre; simpl.
  - rewrite verifyJws_step_none by assumption. simpl. eauto.
  - inversion Hpre as [|? ? Hx Hrest]; subst.
    destruct (verifyJws_step_plain ep i x Hx) as [-> | [msg ->]]; simpl; eauto.
Qed.

(** C9, as the code has it: a JWS with a signature whose algorithm is
    [none] is never accepted by the verifier; the error is a
    ManifestVerification error when every signature before that one is
    without a certificate chain and its verification returns (a chain in
    an earlier signature makes the error an Internal one). *)
Theorem verifyJws_none_rejected (jws : Jws) (pre post : list JwsSig)
    (jwsSig : JwsSig) :
  jws_signatures jws = (pre ++ jwsSig :: post)%list ->
  jws_alg (jws_header jwsSig) = Some "none" ->
  (exists e, _verifyJws jws = Throw e)
  /\ (Forall (plain_signature (base64url (payload jws))) pre ->
      exists msg i, _verifyJws jws = Throw (ManifestVerificationError msg i)).
Proof.
  intros Hsigs Halg. unfold _verifyJws. rewrite Hsigs. split.
  - apply verifyJws_loop_none. exact Halg.
  - intros Hpre. apply verifyJws_loop_none_plain; assumption.
Qed.

End JwsVerifier.

Lemma verifyJws_none_rejected_witness :
  let jws := {| jws_signatures :=
                  [example_jwsSig (Some "ES256") None "valid";
                   example_jwsSig (Some "none") None "valid"];
                payload := Buffer_from "{layers}" |} in
  (exists e, _verifyJws jws = Throw e)
  /\ (exists msg i, _verifyJws jws = Throw (ManifestVerificationError msg i)).
Proof.
  intros jws.
  destruct (verifyJws_none_rejected jws
              [example_jwsSig (Some "ES256") None "valid"] []
              (example_jwsSig (Some "none") None "valid")
              eq_refl eq_refl) as [Hrej Hmv].
  split; [exact Hrej |]. apply Hmv.
  constructor; [| constructor].
  split; [reflexivity |]. exists true. reflexivity.
Defined.

(** A signature with a certificate chain before the one with the algorithm
    [none]: the verifier fails with an Internal error, not with a
    ManifestVerification error. *)
Lemma verifyJws_none_after_chain_Internal :
  let jws := {| jws_signatures :=
                  [example_jwsSig (Some "ES256") (Some ["MIIB"]) "valid";
                   example_jwsSig (Some "none") None "valid"];
                payload := Buffer_from "{layers}" |} in
  (exists jwsSig, jwsSig ∈ jws_signatures jws
                  /\ jws_alg (jws_header jwsSig) = Some "none")
  /\ exists e, _verifyJws jws = Throw e
               /\ isInternal e = true /\ isManifestVerification e = false.
Proof.
  intros jws. split.
  - exists (example_jwsSig (Some "none") None "valid"). split; [| reflexivity].
    apply list_elem_of_In. simpl. auto.
  - eexists. split; [reflexivity | split; reflexivity].
Qed.

(** ** getManifest *)

Example getManifest_examples :
  snd (getManifest example_login example_api_get "latest" example_client)
  = Called None
      (Some (example_manifest [example_sig (Some "ES256") None "valid" "7:}"]),
       Some example_manifest_response)
  /\ snd (getManifest example_login example_api_get "unknowntag"
            example_client)
     = Called (Some (HttpError 404 "manifest unknown")) (None, None)
  /\ snd (getManifest example_login
            (fun _ _ => ManifestGot example_manifest_response
               {| schemaVersion := 2; name := "library/busybox";
                  tag := "latest"; architecture := "amd64";
                  fsLayers := ["sha256:c862"]; history := ["{}"];
                  signatures :=
                    [example_sig (Some "ES256") None "valid" "7:}"] |}
               example_body)
            "latest" example_client)
     = Uncaught (InvalidContentError
                   "unsupported schema version 2 in busybox:latest manifest" 0).
Proof. repeat split; vm_compute; reflexivity. Qed.

Section GetManifest.
Context `{Platform}.

Lemma extracted_verifies (payload : list byte) sigs jwsSigs :
  Forall2 extracted sigs jwsSigs ->
  Forall (fun jwsSig =>
            jws_alg (jws_header jwsSig) <> Some "none"
            /\ jws_chain (jws_header jwsSig) = None
            /\ mod_jws_verify (jwsCompact (base64url payload) jwsSig)
                 (jws_alg (jws_header jwsSig))
                 (jws_jwk (jws_header jwsSig)) = Ok true) jwsSigs ->
  Forall (signature_verifies payload) sigs.
Proof.
  induction 1 as [|sig jwsSig sigs jwsSigs Hext _ IH]; intros Hall;
    [constructor |].
  inversion Hall as [|? ? (_ & _ & Hver) Hrest]; subst.
  constructor; [| apply IH; exact Hrest].
  destruct Hext as (h & Hh & Halg & _ & Hsig & Hprot & Hjwk).
  unfold jwsCompact in Hver. rewrite Halg, Hsig, Hprot in Hver.
  unfold signature_verifies.
  destruct (jwk h) as [k|] eqn:Hk.
  - destruct Hjwk as (pem & Hpem & Hkey). rewrite Hkey in Hver.
    left. exists h, k, pem. auto.
  - rewrite Hjwk in Hver. right. exists h. auto.
Qed.

Lemma manifest_verify_Ok res_ manifest_ body u :
  manifest_verify res_ manifest_ body = Ok u ->
  exists jws,
    _jwsFromManifest manifest_ body = Ok jws
    /\ _verifyManifestDockerContentDigest res_ jws = Ok tt
    /\ Forall (signature_verifies (payload jws)) (signatures manifest_).
Proof.
  unfold manifest_verify. intros Hver.
  destruct (_jwsFromManifest manifest_ body) as [jws|e] eqn:Hjws;
    cbn [bind] in Hver; [| discriminate].
  destruct (_verifyManifestDockerContentDigest res_ jws) as [[]|e] eqn:Hdcd;
    cbn [bind] in Hver; [| discriminate].
  exists jws. split; [reflexivity | split; [exact Hdcd |]].
  destruct u. unfold _verifyJws in Hver. apply verifyJws_loop_Ok in Hver.
  unfold _jwsFromManifest in Hjws.
  destruct (jwsFromManifest_loop 0 (signatures manifest_) _) as [st|e]
    eqn:Hloop; cbn [bind] in Hjws; [| discriminate].
  apply jwsFromManifest_loop_Ok in Hloop.
  destruct Hloop as (_ & _ & _ & _ & js & Hjs & Hext).
  destruct (loop_formatTail st); [| discriminate].
  injection Hjws as <-. cbn [payload jws_signatures] in *.
  rewrite Hjs in Hver. simpl in Hver.
  eapply extracted_verifies; eassumption.
Qed.


End GetManifest.



(** ** Blob transport *)

Example headBlob_examples :
  (blob_cb <$> headBlob example_login (example_net 0) "sha256:YmxvYg=="
                 example_client)
  = Some (Called None [Some example_blob_response])
  /\ (blob_cb <$> headBlob example_login (example_net 2) "sha256:YmxvYg=="
                    example_client)
     = Some (Called None [Some example_redirect; Some example_redirect;
                          Some example_blob_response])
  /\ (blob_sent <$> headBlob example_login (example_net 1) "sha256:YmxvYg=="
                      example_client)
     = Some [ {| req_url := "https://registry-1.docker.io";
                 req_path := "/v2/library/busybox/blobs/sha256:YmxvYg==";
                 req_headers := Some (Some "Bearer abc") |};
              {| req_url := "https://cdn.example.com";
                 req_path := "/registry-v2/blob";
                 req_headers := None |} ].
Proof. repeat split; vm_compute; reflexivity. Qed.

Section BlobTransport.
Context `{Platform}.
Variable net : nat -> string -> ReqOpts -> ReqOutcome.
Variables method digest : string.

(** [makeReq] returns: the counter bounds the recursion. *)
Lemma makeReq_total fuel : forall reqOpts st,
  0 < fuel -> MAX_NUM_REDIRS < fuel + numRedirs st ->
  exists st' fin, makeReq fuel net method digest reqOpts st = Some (st', fin).
Proof.
  induction fuel as [|fuel IH]; intros reqOpts st Hpos Hfuel; [lia |].
  cbn [makeReq].
  destruct (MAX_NUM_REDIRS <=? numRedirs st)%nat eqn:Hmax;
    [do 2 eexists; reflexivity |].
  apply Nat.leb_gt in Hmax.
  destruct (net _ method reqOpts) as [connErr | err res | res];
    [do 2 eexists; reflexivity .. |].
  destruct (is_redirect res); [| do 2 eexists; reflexivity].
  destruct (headers res !! "location") as [location|];
    [| do 2 eexists; reflexivity].
  destruct (mod_url_parse location) as [[protocol host] path].
  apply IH; simpl; lia.
Qed.

(** What a call of [makeReq] adds to the shared variables: at most one
    response for each unit of the counter, which stays within its bound,
    and requests of which all but the first have no headers. *)
Lemma makeReq_adds fuel : forall reqOpts st st' fin,
  makeReq fuel net method digest reqOpts st = Some (st', fin) ->
  numRedirs st <= MAX_NUM_REDIRS ->
  numRedirs st' <= MAX_NUM_REDIRS
  /\ length (ress st') + numRedirs st <= length (ress st) + numRedirs st'
  /\ exists more,
       sent st' = (sent st ++ more)%list
       /\ (more = []
           \/ exists redirected,
                more = reqOpts :: redirected
                /\ Forall (fun r => req_headers r = None) redirected).
Proof.
  induction fuel as [|fuel IH]; intros reqOpts st st' fin Hreq Hmax;
    cbn [makeReq] in Hreq; [discriminate |].
  destruct (MAX_NUM_REDIRS <=? numRedirs st)%nat eqn:Hlim.
  { injection Hreq as <- <-. split; [lia |]. split; [lia |].
    exists []. rewrite app_nil_r. auto. }
  apply Nat.leb_gt in Hlim.
  destruct (net _ method reqOpts) as [connErr | err res | res].
  - injection Hreq as <- <-. simpl. split; [lia |]. split; [lia |].
    exists [reqOpts]. split; [reflexivity |]. right. exists []. auto.
  - injection Hreq as <- <-. simpl. rewrite length_app. simpl.
    split; [lia |]. split; [lia |].
    exists [reqOpts]. split; [reflexivity |]. right. exists []. auto.
  - destruct (is_redirect res).
    2:{ injection Hreq as <- <-. simpl. rewrite length_app. simpl.
        split; [lia |]. split; [lia |].
        exists [reqOpts]. split; [reflexivity |]. right. exists []. auto. }
    destruct (headers res !! "location") as [location|].
    2:{ injection Hreq as <- <-. simpl. rewrite length_app. simpl.
        split; [lia |]. split; [lia |].
        exists [reqOpts]. split; [reflexivity |]. right. exists []. auto. }
    destruct (mod_url_parse location) as [[protocol host] path].
    apply IH in Hreq; [| simpl; lia]. simpl in Hreq.
    destruct Hreq as (Hn & Hlen & more & Hsent & Hmore).
    rewrite length_app in Hlen. simpl in Hlen.
    split; [exact Hn |]. split; [lia |].
    exists (reqOpts :: more). split.
    + rewrite Hsent, <- app_assoc. reflexivity.
    + right. exists more. split; [reflexivity |].
      destruct Hmore as [-> | (redirected & -> & Hall)]; [constructor |].
      constructor; [reflexivity | exact Hall].
Qed.

Variable login : LoginOpts -> result AuthInfo.

(** [_headOrGetBlob] always ends, and the responses it hands to the
    callback are at most [MAX_NUM_REDIRS]. *)
Lemma headOrGetBlob_chain_bound (self : RegistryClientV2) :
  exists r,
    _headOrGetBlob login net method digest self = Some r
    /\ forall err chain, blob_cb r = Called err chain ->
                         length chain <= MAX_NUM_REDIRS.
Proof.
  unfold _headOrGetBlob, headOrGetBlob_fuel.
  destruct (regLogin login self) as [self1 [lerr|]].
  - eexists. split; [reflexivity |]. simpl. intros err chain Hcb.
    injection Hcb as <- <-. simpl. lia.
  - match goal with
    | |- context [makeReq ?f net method digest ?o ?s] =>
        destruct (makeReq_total f o s) as (st' & fin & Hreq);
          [lia | simpl; unfold MAX_NUM_REDIRS; lia |];
        rewrite Hreq; apply makeReq_adds in Hreq; [| simpl; lia]
    end.
    simpl in Hreq. destruct Hreq as (Hn & Hlen & _).
    eexists. split; [reflexivity |]. simpl. intros err chain Hcb.
    destruct fin; [| discriminate]. injection Hcb as <- <-. lia.
Qed.

(** C5: of the requests a blob HEAD or GET sends, the first carries the
    client's headers (its authorization header) and each later one, sent
    to a redirect target, carries no headers at all, so no Authorization
    header. *)
Theorem headOrGetBlob_redirects_without_authorization
    (self : RegistryClientV2) (r : BlobResult) :
  _headOrGetBlob login net method digest self = Some r ->
  forall i req, blob_sent r !! i = Some req ->
    (i = 0 ->
     req_headers req = Some (_headers_authorization (blob_client r)))
    /\ (0 < i -> req_headers req = None).
Proof.
  unfold _headOrGetBlob, headOrGetBlob_fuel. intros Hblob i req Hi.
  destruct (regLogin login self) as [self1 [lerr|]].
  { injection Hblob as <-. simpl in Hi. rewrite lookup_nil in Hi.
    discriminate. }
  destruct (makeReq _ net method digest _ _) as [[st' fin]|] eqn:Hreq;
    [| discriminate].
  injection Hblob as <-. cbn [blob_sent blob_client] in *.
  apply makeReq_adds in Hreq; [| simpl; lia]. simpl in Hreq.
  destruct Hreq as (_ & _ & more & Hsent & Hmore). rewrite Hsent in Hi.
  destruct Hmore as [-> | (redirected & -> & Hall)].
  { rewrite lookup_nil in Hi. discriminate. }
  destruct i as [|i]; simpl in Hi.
  - injection Hi as <-. simpl. split; [reflexivity | lia].
  - split; [discriminate |]. intros _.
    rewrite Forall_forall in Hall. apply Hall.
    eapply list_elem_of_lookup_2. exact Hi.
Qed.

End BlobTransport.

Lemma headOrGetBlob_redirects_without_authorization_witness :
  exists r first second,
    headBlob example_login (example_net 1) "sha256:YmxvYg==" example_client
    = Some r
    /\ blob_sent r = [first; second]
    /\ req_headers first = Some (Some "Bearer abc")
    /\ req_headers second = None.
Proof.
  destruct (headBlob example_login (example_net 1) "sha256:YmxvYg=="
              example_client) as [r|] eqn:Hblob;
    [| vm_compute in Hblob; discriminate].
  assert (Hsent : exists first second, blob_sent r = [first; second]).
  { vm_compute in Hblob. injection Hblob as <-. simpl. eauto. }
  destruct Hsent as (first & second & Hsent).
  exists r, first, second. split; [reflexivity |]. split; [exact Hsent |].
  pose proof (headOrGetBlob_redirects_without_authorization
                (example_net 1) "head" "sha256:YmxvYg==" example_login
                example_client r Hblob) as Hreqs.
  split.
  - destruct (Hreqs 0 first) as [H0 _]; [rewrite Hsent; reflexivity |].
    rewrite H0 by reflexivity.
    vm_compute in Hblob. injection Hblob as <-. reflexivity.
  - destruct (Hreqs 1 second) as [_ H1]; [rewrite Hsent; reflexivity |].
    apply H1. lia.
Defined.

(** C1, where the code departs from it: the registry redirects three times
    and then serves the blob.  Following three redirects would give a
    chain of four responses; the counter of [makeReq] also counts the first
    request, so the third redirect is not followed and the callback gets a
    Download error with three responses. *)
Theorem headBlob_third_redirect_not_followed :
  exists r msg chain,
    headBlob example_login (example_net 3) "sha256:YmxvYg==" example_client
    = Some r
    /\ blob_cb r = Called (Some (DownloadError msg)) chain
    /\ chain = [Some example_redirect; Some example_redirect;
                Some example_redirect]
    /\ length (blob_sent r) = 3.
Proof.
  eexists. eexists. eexists. split; [vm_compute; reflexivity |].
  split; [reflexivity |]. split; reflexivity.
Qed.

(** ** Blob streams *)

Example createBlobReadStream_examples :
  (stream_cb <$> createBlobReadStream example_login (example_net 1)
                   "sha256:YmxvYg==" example_client)
  = Some (Called None
            (Some {| stream_res := example_blob_response; numBytes := 0;
                     dcdInfo := Some {| raw := "sha256:YmxvYg=="; hash := [];
                                        algorithm := "sha256";
                                        expectedDigest := "YmxvYg==" |} |},
             [Some example_redirect; Some example_blob_response]))
  /\ (stream_cb <$> createBlobReadStream example_login (example_net 1)
                      "sha256:cafe" example_client)
     = Some (Called (Some (BadDigestError
               ("Docker-Content-Digest header, sha256:YmxvYg==, does not "
                  +:+ "match given digest, sha256:cafe")))
               (None, []))
  /\ (stream_cb <$> createBlobReadStream example_login
                      (fun _ _ _ => ResultOk
                         {| statusCode := 200;
                            headers := {[ "docker-content-digest"
                                            := "cafebabe" ]} |})
                      "cafebabe" example_client)
     = Some (Uncaught (Error "too few args to sprintf")).
Proof. repeat split; vm_compute; reflexivity. Qed.

Example consume_examples :
  let stream :=
    {| stream_res := example_blob_response; numBytes := 0;
       dcdInfo := Some {| raw := "sha256:YmxvYg=="; hash := [];
                          algorithm := "sha256";
                          expectedDigest := "YmxvYg==" |} |} in
  consume [Buffer_from "bl"; Buffer_from "ob"] stream = None
  /\ consume [Buffer_from "bl"; Buffer_from "o"] stream
     = Some (DownloadError "unexpected downloaded size")
  /\ consume [Buffer_from "bl"; Buffer_from "ub"] stream
     = Some (BadDigestError "Docker-Content-Digest").
Proof. repeat split; vm_compute; reflexivity. Qed.

Section BlobStreams.
Context `{Platform}.

(** Reading the chunks adds their lengths to the byte count and feeds them,
    in order, to the hash. *)
Lemma on_data_chunks chunks : forall stream,
  let stream' := fold_left (fun st chunk => on_data chunk st) chunks stream in
  stream_res stream' = stream_res stream
  /\ numBytes stream'
     = (numBytes stream + Z.of_nat (length (List.concat chunks)))%Z
  /\ dcdInfo stream'
     = (fun d => hash_update d (List.concat chunks)) <$> dcdInfo stream.
Proof.
  induction chunks as [|chunk chunks IH]; intros stream; simpl.
  - split; [reflexivity |]. split; [lia |].
    destruct (dcdInfo stream) as [d|]; [| reflexivity]. simpl.
    unfold hash_update. rewrite app_nil_r. destruct d; reflexivity.
  - destruct (IH (on_data chunk stream)) as (Hres & Hnum & Hdcd).
    split; [rewrite Hres; reflexivity |].
    split.
    + rewrite Hnum. simpl. rewrite length_app. lia.
    + rewrite Hdcd. simpl. destruct (dcdInfo stream) as [d|]; [| reflexivity].
      simpl. unfold hash_update. simpl. rewrite app_assoc. reflexivity.
Qed.



End BlobStreams.


(** * Further properties *)

(** ** Docker-Content-Digest *)

Lemma strsplit_colon2_Some (s a b : string) :
  strsplit_colon2 s = Some (a, b) <-> s = a +:+ ":" +:+ b /\ no_colon a.
Proof.
  revert a b. induction s as [|c rest IH]; intros a b; simpl.
  - split; [discriminate |]. intros [Heq _].
    destruct a; rewrite ?append_nil_l, ?append_cons in Heq; discriminate.
  - destruct (Ascii.eqb c ":"%char) eqn:Hc.
    + apply Ascii.eqb_eq in Hc. subst c. split.
      * intros Hs. injection Hs as <- <-. split; [reflexivity | exact I].
      * intros [Heq Hno]. destruct a as [|c a].
        -- rewrite append_nil_l in Heq. injection Heq as ->. reflexivity.
        -- rewrite append_cons in Heq. injection Heq as <- _.
           destruct Hno as [Hne _]. contradiction.
    + apply Ascii.eqb_neq in Hc.
      destruct (strsplit_colon2 rest) as [[a' b']|] eqn:Hrest.
      * destruct (proj1 (IH a' b') eq_refl) as [Heq Hno]. split.
        -- intros Hs. injection Hs as <- <-. rewrite append_cons.
           split; [congruence | split; assumption].
        -- intros [Heq' Hno']. destruct a as [|c0 a].
           ++ rewrite append_nil_l in Heq'. injection Heq' as -> _.
              contradiction.
           ++ rewrite append_cons in Heq'. injection Heq' as <- Hr.
              destruct Hno' as [_ Hno'].
              assert (Hsome : Some (a', b') = Some (a, b))
                by (apply IH; split; assumption).
              congruence.
      * split; [discriminate |]. intros [Heq' Hno'].
        destruct a as [|c0 a].
        -- rewrite append_nil_l in Heq'. injection Heq' as -> _.
           contradiction.
        -- rewrite append_cons in Heq'. injection Heq' as <- Hr.
           destruct Hno' as [_ Hno'].
           assert (Hsome : None = Some (a, b))
             by (apply IH; split; assumption).
           discriminate.
Qed.

Example parseDockerContentDigest_examples :
  (exists msg,
     _parseDockerContentDigest (Some "cafebabe") = Throw (BadDigestError msg))
  /\ (exists msg,
        _parseDockerContentDigest (Some "md4:abc")
        = Throw (BadDigestError msg))
  /\ _parseDockerContentDigest (Some "abc%sdef")
     = Throw (Error "too few args to sprintf")
  /\ (exists msg, _parseDockerContentDigest None = Throw (BadDigestError msg)).
Proof.
  split; [eexists; reflexivity |]. split; [eexists; reflexivity |].
  split; [reflexivity | eexists; reflexivity].
Qed.

Lemma no_colon_strsplit (s : string) :
  no_colon s -> strsplit_colon2 s = None.
Proof.
  induction s as [|c s IH]; [reflexivity |].
  intros [Hc Hs]. cbn [strsplit_colon2].
  apply Ascii.eqb_neq in Hc. rewrite Hc, (IH Hs). reflexivity.
Qed.

Lemma no_percent_app (a b : string) :
  no_percent a -> no_percent b -> no_percent (a +:+ b).
Proof.
  intros Ha Hb. induction a as [|c a IH]; [exact Hb |].
  destruct Ha as [Hc Ha]. rewrite append_cons.
  split; [exact Hc | exact (IH Ha)].
Qed.

Section DigestCodec.
Context `{Platform} `{!SprintfLaws H}.

(** The parts of a digest header that parses. *)
Lemma parseDockerContentDigest_Ok (dcd : option string) (d : DcdInfo) :
  _parseDockerContentDigest dcd = Ok d ->
  dcd = Some (raw d)
  /\ raw d = algorithm d +:+ ":" +:+ expectedDigest d
  /\ no_colon (algorithm d)
  /\ crypto_createHash (algorithm d) = true
  /\ hash d = [].
Proof.
  unfold _parseDockerContentDigest. intros Hparse.
  destruct dcd as [s|]; [| discriminate].
  destruct (negb (truthy (Some s))); [discriminate |].
  simpl in Hparse.
  destruct (strsplit_colon2 s) as [[part0 part1]|] eqn:Hsplit;
    [| discriminate].
  destruct (crypto_createHash part0) eqn:Hhash; [| discriminate].
  simpl in Hparse. injection Hparse as <-. simpl.
  apply strsplit_colon2_Some in Hsplit. destruct Hsplit as [Heq Hno].
  auto.
Qed.

(** X1: a digest header that parses is the text [algorithm:hex] of its
    parts: the algorithm is what stands before the first colon and is one
    the platform can hash with, the expected digest is all that follows,
    and the hash starts empty. *)
Theorem parseDockerContentDigest_parts (dcd : option string) (d : DcdInfo) :
  _parseDockerContentDigest dcd = Ok d ->
  dcd = Some (raw d)
  /\ raw d = algorithm d +:+ ":" +:+ expectedDigest d
  /\ no_colon (algorithm d)
  /\ crypto_createHash (algorithm d) = true
  /\ hash d = [].
Proof. apply parseDockerContentDigest_Ok. Qed.

(** X2: every text [algorithm:hex] whose algorithm has no colon and is
    supported parses to these two parts.  When the parser fails, it is
    with a BadDigest error or, when the message made of the header cannot
    be rendered, with the plain error of the rendering: a missing or empty
    header gives a BadDigest error, and so does a header without colon
    and without percent sign. *)
Theorem parseDockerContentDigest_accepts (a b : string) :
  (no_colon a -> crypto_createHash a = true ->
   _parseDockerContentDigest (Some (a +:+ ":" +:+ b))
   = Ok {| raw := a +:+ ":" +:+ b; hash := []; algorithm := a;
           expectedDigest := b |})
  /\ (forall dcd e, _parseDockerContentDigest dcd = Throw e ->
        isBadDigest e = true \/ e = Error "too few args to sprintf")
  /\ (forall dcd, truthy dcd = false ->
        exists msg, _parseDockerContentDigest dcd = Throw (BadDigestError msg))
  /\ (forall s, s <> "" -> no_colon s -> no_percent s ->
        exists msg,
          _parseDockerContentDigest (Some s) = Throw (BadDigestError msg)).
Proof.
  split; [| split; [| split]].
  - intros Hno Hhash. unfold _parseDockerContentDigest.
    assert (Htruthy : truthy (Some (a +:+ ":" +:+ b)) = true).
    { simpl. destruct a; rewrite ?append_nil_l, ?append_cons; reflexivity. }
    rewrite Htruthy. simpl.
    rewrite (proj2 (strsplit_colon2_Some _ a b)) by auto.
    rewrite Hhash. reflexivity.
  - intros dcd e. unfold _parseDockerContentDigest.
    assert (Hctor : forall msg e',
              Throw (restify_error BadDigestError msg)
              = (Throw e' : result DcdInfo) ->
              isBadDigest e' = true \/ e' = Error "too few args to sprintf").
    { intros msg e' Heq. injection Heq as <-.
      destruct (restify_error_cases BadDigestError msg)
        as [(m & _ & ->) | (_ & ->)]; auto. }
    destruct (negb (truthy dcd)); [apply Hctor |].
    destruct (strsplit_colon2 (str dcd)) as [[part0 part1]|];
      [| apply Hctor].
    destruct (negb (crypto_createHash part0)); [apply Hctor | discriminate].
  - intros dcd Hdcd. unfold _parseDockerContentDigest. rewrite Hdcd.
    cbn [negb]. rewrite restify_error_plain.
    + eexists. reflexivity.
    + vm_compute. repeat split; discriminate.
  - intros s Hne Hcolon Hpercent. unfold _parseDockerContentDigest.
    apply String.eqb_neq in Hne. cbn [truthy]. rewrite Hne. cbn [negb].
    change (str (Some s)) with s. rewrite (no_colon_strsplit s Hcolon).
    rewrite restify_error_plain.
    + eexists. reflexivity.
    + repeat (apply no_percent_app;
                [vm_compute; repeat split; discriminate |]).
      exact Hpercent.
Qed.

Lemma verifyManifestDockerContentDigest_Ok (res : Response) (jws : Jws) u :
  _verifyManifestDockerContentDigest res jws = Ok u ->
  exists a hex,
    headers res !! "docker-content-digest" = Some (a +:+ ":" +:+ hex)
    /\ crypto_createHash a = true
    /\ crypto_digest_hex a (payload jws) = hex.
Proof.
  unfold _verifyManifestDockerContentDigest. intros Hver.
  destruct (_parseDockerContentDigest _) as [d|e] eqn:Hparse;
    cbn [bind] in Hver; [| discriminate].
  apply parseDockerContentDigest_Ok in Hparse.
  destruct Hparse as (Hdcd & Hraw & _ & Hhash & Hempty).
  destruct (negb (String.eqb _ _)) eqn:Hcmp; [discriminate |].
  apply negb_false_iff, String.eqb_eq in Hcmp.
  exists (algorithm d), (expectedDigest d).
  rewrite Hdcd, Hraw. split; [reflexivity |]. split; [exact Hhash |].
  unfold hash_digest_hex, hash_update in Hcmp. simpl in Hcmp.
  rewrite Hempty in Hcmp. simpl in Hcmp. congruence.
Qed.

(** X3: when [getManifest] hands a manifest to its callback, manifest and
    response are the ones the registry answered the manifest request with,
    the response has a Docker-Content-Digest header [algorithm:hex], and
    [hex] is the digest, by that algorithm, of the payload extracted from
    the body of that answer. *)
Theorem getManifest_digest_of_payload (login : LoginOpts -> result AuthInfo)
    (api_get : string -> option string -> ManifestReply) (ref : string)
    (self self' : RegistryClientV2) (err : option error) (manifest : Manifest)
    (res : option Response) :
  getManifest login api_get ref self
  = (self', Called err (Some manifest, res)) ->
  exists res_ body jws a hex,
    api_get (manifest_path (_api (fst (regLogin login self))) ref)
      (_headers_authorization (_api (fst (regLogin login self))))
    = ManifestGot res_ manifest body
    /\ res = Some res_
    /\ _jwsFromManifest manifest body = Ok jws
    /\ headers res_ !! "docker-content-digest" = Some (a +:+ ":" +:+ hex)
    /\ crypto_digest_hex a (payload jws) = hex.
Proof.
  unfold getManifest. intros Hget.
  destruct (regLogin login self) as [self1 [lerr|]]; [discriminate |].
  cbn [fst].
  destruct (api_get _ _) as [aerr | res_ manifest_ body] eqn:Hapi;
    [discriminate |].
  destruct (manifest_verify res_ manifest_ body) as [u|verr] eqn:Hver;
    [| discriminate].
  destruct (negb (schemaVersion manifest_ =? 1)%Z); [discriminate |].
  destruct (negb (length (fsLayers manifest_)
                  =? length (history manifest_))%nat); [discriminate |].
  destruct (length (fsLayers manifest_) =? 0)%nat; [discriminate |].
  injection Hget as <- <- <- <-.
  apply manifest_verify_Ok in Hver. destruct Hver as (jws & Hjws & Hdcd & _).
  apply verifyManifestDockerContentDigest_Ok in Hdcd.
  destruct Hdcd as (a & hex & Hhead & _ & Hhex).
  exists res_, body, jws, a, hex. auto.
Qed.

End DigestCodec.

Lemma parseDockerContentDigest_parts_witness :
  exists d,
    _parseDockerContentDigest (Some "sha256:YmxvYg==") = Ok d
    /\ raw d = algorithm d +:+ ":" +:+ expectedDigest d
    /\ algorithm d = "sha256".
Proof.
  destruct (_parseDockerContentDigest (Some "sha256:YmxvYg==")) as [d|e]
    eqn:Hparse; [| vm_compute in Hparse; discriminate].
  exists d. split; [reflexivity |].
  destruct (parseDockerContentDigest_parts _ d Hparse)
    as (_ & Hraw & _ & _ & _).
  split; [exact Hraw |].
  vm_compute in Hparse. injection Hparse as <-. reflexivity.
Defined.

Lemma parseDockerContentDigest_accepts_witness :
  _parseDockerContentDigest (Some ("sha256" +:+ ":" +:+ "YmxvYg=="))
  = Ok {| raw := "sha256" +:+ ":" +:+ "YmxvYg=="; hash := [];
          algorithm := "sha256"; expectedDigest := "YmxvYg==" |}.
Proof.
  apply (proj1 (parseDockerContentDigest_accepts "sha256" "YmxvYg==")).
  - simpl. repeat split; discriminate.
  - reflexivity.
Defined.

Lemma getManifest_digest_of_payload_witness :
  exists res_ body jws a hex,
    example_api_get "/v2/library/busybox/manifests/latest" None
    = ManifestGot res_
        (example_manifest [example_sig (Some "ES256") None "valid" "7:}"])
        body
    /\ _jwsFromManifest
         (example_manifest [example_sig (Some "ES256") None "valid" "7:}"])
         body = Ok jws
    /\ headers res_ !! "docker-content-digest" = Some (a +:+ ":" +:+ hex)
    /\ crypto_digest_hex a (payload jws) = hex.
Proof.
  destruct (getManifest example_login example_api_get "latest" example_client)
    as [self' cb] eqn:Hget.
  assert (Hcb : cb = Called None
                  (Some (example_manifest
                           [example_sig (Some "ES256") None "valid" "7:}"]),
                   Some example_manifest_response)).
  { apply (f_equal snd) in Hget. simpl in Hget. subst cb.
    vm_compute. reflexivity. }
  subst cb.
  destruct (getManifest_digest_of_payload example_login example_api_get
              "latest" example_client self' None _ _ Hget)
    as (res_ & body & jws & a & hex & Hapi & _ & Hjws & Hhead & Hhex).
  exists res_, body, jws, a, hex.
  split; [| auto]. rewrite <- Hapi. vm_compute. reflexivity.
Defined.

(** ** The JWS extractor and verifier *)

Section JwsMore.
Context `{Platform}.

(** X4: the JWS the extractor returns has the signatures of the manifest,
    as many and in the same order, each with the algorithm, chain,
    signature and protected text of its source and, for a JWK, its PEM
    text. *)
Theorem jwsFromManifest_signatures_extracted (manifest : Manifest)
    (body : list byte) (jws : Jws) :
  _jwsFromManifest manifest body = Ok jws ->
  Forall2 extracted (signatures manifest) (jws_signatures jws)
  /\ length (jws_signatures jws) = length (signatures manifest).
Proof.
  unfold _jwsFromManifest. intros Hjws.
  destruct (jwsFromManifest_loop 0 (signatures manifest) _) as [st|e]
    eqn:Hloop; cbn [bind] in Hjws; [| discriminate].
  apply jwsFromManifest_loop_Ok in Hloop.
  destruct Hloop as (_ & _ & _ & _ & js & Hjs & Hext).
  destruct (loop_formatTail st); [| discriminate].
  injection Hjws as <-. cbn [jws_signatures]. rewrite Hjs. simpl.
  split; [exact Hext |]. symmetry. eapply Forall2_length. exact Hext.
Qed.


(** X26: the extractor fails when a signature has a protected header
    whose format length is missing or not a number, and when two
    signatures carry different integers as format length or different
    decoded tails. *)
Theorem jwsFromManifest_conflict_fails (manifest : Manifest)
    (body : list byte) :
  (forall sig ph v,
     sig ∈ signatures manifest ->
     JSON_parse (base64url_decode (protected sig)) = Some ph ->
     property ph "formatLength" = Ok v ->
     isNaN_value v = true ->
     exists e, _jwsFromManifest manifest body = Throw e)
  /\ (forall sig1 sig2 fl1 fl2 tail1 tail2,
        sig1 ∈ signatures manifest -> sig2 ∈ signatures manifest ->
        carries fl1 tail1 sig1 -> carries fl2 tail2 sig2 ->
        fl1 <> fl2 \/ tail1 <> tail2 ->
        exists e, _jwsFromManifest manifest body = Throw e).
Proof.
  assert (Hmain : forall P : Prop,
    ((exists v tail,
        Forall (fun sig =>
                  exists v', carries_value v' tail sig
                             /\ isNaN_value (Some v') = false
                             /\ (v' = v \/ strict_eq v' v = true))
               (signatures manifest)) -> P) ->
    signatures manifest <> [] ->
    P \/ exists e, _jwsFromManifest manifest body = Throw e).
  { intros P HP Hne. unfold _jwsFromManifest.
    destruct (jwsFromManifest_loop 0 (signatures manifest) _) as [st|e]
      eqn:Hloop; cbn [bind]; [| right; eauto].
    left. apply HP. apply jwsFromManifest_loop_Ok in Hloop.
    destruct Hloop as (_ & _ & _ & Hcons & _).
    destruct (Hcons Hne) as (v & tail & _ & _ & Hall). eauto. }
  split.
  - intros sig ph v Hin Hph Hfl Hnan.
    destruct (Hmain False) as [[] | Hthrow]; [| | exact Hthrow].
    + intros (v0 & tail & Hall). rewrite Forall_forall in Hall.
      destruct (Hall _ Hin) as (v' & (ph' & ft & Hph' & Hfl' & _) & Hnum & _).
      rewrite Hph in Hph'. injection Hph' as <-.
      rewrite Hfl in Hfl'. injection Hfl' as ->. congruence.
    + intros Hnil. rewrite Hnil in Hin. inversion Hin.
  - intros sig1 sig2 fl1 fl2 tail1 tail2 Hin1 Hin2
           (q1 & Hq1 & Hcar1) (q2 & Hq2 & Hcar2) Hdiff.
    destruct (Hmain False) as [[] | Hthrow]; [| | exact Hthrow].
    + intros (v & tail & Hall). rewrite Forall_forall in Hall.
      destruct (Hall _ Hin1) as (v1 & Hc1 & _ & Hv1).
      destruct (Hall _ Hin2) as (v2 & Hc2 & _ & Hv2).
      destruct (carries_value_functional _ _ _ _ _ Hcar1 Hc1) as [<- <-].
      destruct (carries_value_functional _ _ _ _ _ Hcar2 Hc2) as [<- <-].
      destruct Hdiff as [Hfl | Htail]; [| congruence].
      assert (Hp1 : exists p, v = JsNumber p /\ Qeq p q1)
        by (apply strict_eq_number; destruct Hv1; auto).
      assert (Hp2 : exists p, v = JsNumber p /\ Qeq p q2)
        by (apply strict_eq_number; destruct Hv2; auto).
      destruct Hp1 as (p1 & -> & Hp1). destruct Hp2 as (p2 & Heq & Hp2).
      injection Heq as <-. apply Hfl.
      assert (Hq : Qeq (inject_Z fl1) (inject_Z fl2)).
      { rewrite <- Hq1, <- Hq2, <- Hp1, <- Hp2. reflexivity. }
      unfold Qeq in Hq. simpl in Hq. lia.
    + intros Hnil. rewrite Hnil in Hin1. inversion Hin1.
Qed.

Lemma verifyJws_step_passes ep i jwsSig :
  verifyJws_step ep i jwsSig = Ok tt <-> sig_passes ep jwsSig.
Proof.
  split; [apply verifyJws_step_Ok |].
  intros (Halg & Hchain & Hver). unfold verifyJws_step.
  rewrite bool_decide_eq_false_2.
  - rewrite Hchain.
    rewrite bool_decide_eq_false_2 by (intros [x Hx]; discriminate).
    rewrite Hver. reflexivity.
  - intros Hin. apply list_elem_of_In in Hin.
    destruct Hin as [Heq | []]. congruence.
Qed.

Lemma verifyJws_loop_passes ep sigs : forall i,
  verifyJws_loop ep i sigs = Ok tt <-> Forall (sig_passes ep) sigs.
Proof.
  induction sigs as [|x rest IH]; intros i; simpl.
  - split; [constructor | reflexivity].
  - split.
    + intros Hloop.
      destruct (verifyJws_step ep i x) as [[]|e] eqn:Hstep;
        cbn [bind] in Hloop; [| discriminate].
      constructor; [apply (verifyJws_step_passes ep i); exact Hstep |].
      apply (IH (S i)). exact Hloop.
    + intros Hall. inversion Hall as [|? ? Hx Hrest]; subst.
      rewrite (proj2 (verifyJws_step_passes ep i x) Hx). cbn [bind].
      apply IH. exact Hrest.
Qed.

(** X6: the verifier accepts a JWS exactly when each of its signatures has
    an algorithm other than [none], has no certificate chain, and is
    verified by [jws.verify] over the compact form made of its protected
    text, the base64url text of the payload and its signature text. *)
Theorem verifyJws_Ok_iff (jws : Jws) :
  _verifyJws jws = Ok tt
  <-> Forall (sig_passes (base64url (payload jws))) (jws_signatures jws).
Proof. unfold _verifyJws. apply verifyJws_loop_passes. Qed.

Lemma verifyJws_loop_first_failure ep sigs : forall i e,
  verifyJws_loop ep i sigs = Throw e ->
  exists pre x post,
    sigs = (pre ++ x :: post)%list
    /\ Forall (sig_passes ep) pre
    /\ ~ sig_passes ep x
    /\ verifyJws_step ep (i + length pre) x = Throw e.
Proof.
  induction sigs as [|x rest IH]; intros i e Hloop; simpl in Hloop;
    [discriminate |].
  destruct (verifyJws_step ep i x) as [[]|e'] eqn:Hstep; cbn [bind] in Hloop.
  - destruct (IH _ _ Hloop) as (pre & y & post & -> & Hpre & Hy & Hthrow).
    exists (x :: pre), y, post. split; [reflexivity |].
    split; [constructor; [apply (verifyJws_step_passes ep i) |]; assumption |].
    split; [exact Hy |]. simpl. rewrite <- Hthrow. f_equal. lia.
  - injection Hloop as <-. exists [], x, rest. split; [reflexivity |].
    split; [constructor |]. split.
    + intros Hx. apply (verifyJws_step_passes ep i) in Hx.
      rewrite Hx in Hstep. discriminate.
    + simpl. rewrite Nat.add_0_r. exact Hstep.
Qed.

Lemma verifyJws_loop_stops ep pre : forall i x post e,
  Forall (sig_passes ep) pre ->
  verifyJws_step ep (i + length pre) x = Throw e ->
  verifyJws_loop ep i (pre ++ x :: post) = Throw e.
Proof.
  induction pre as [|y pre IH]; intros i x post e Hpre Hstep; simpl.
  - simpl in Hstep. rewrite Nat.add_0_r in Hstep. rewrite Hstep. reflexivity.
  - inversion Hpre as [|? ? Hy Hrest]; subst.
    rewrite (proj2 (verifyJws_step_passes ep i y) Hy). cbn [bind].
    apply IH; [exact Hrest |]. rewrite <- Hstep. f_equal. simpl. lia.
Qed.

(** X7: when the verifier rejects a JWS, its error is the one raised for
    the first signature that does not pass, with the position of that
    signature as index; the signatures after it are not looked at. *)
Theorem verifyJws_first_failure (jws : Jws) (e : error) :
  _verifyJws jws = Throw e ->
  exists pre x post,
    jws_signatures jws = (pre ++ x :: post)%list
    /\ Forall (sig_passes (base64url (payload jws))) pre
    /\ ~ sig_passes (base64url (payload jws)) x
    /\ verifyJws_step (base64url (payload jws)) (length pre) x = Throw e
    /\ forall post',
         _verifyJws {| jws_signatures := (pre ++ x :: post')%list;
                       payload := payload jws |} = Throw e.
Proof.
  unfold _verifyJws. intros Hloop.
  destruct (verifyJws_loop_first_failure _ _ _ _ Hloop)
    as (pre & x & post & Hsigs & Hpre & Hx & Hstep).
  exists pre, x, post. simpl in Hstep.
  split; [exact Hsigs |]. split; [exact Hpre |]. split; [exact Hx |].
  split; [exact Hstep |].
  intros post'. cbn [jws_signatures payload].
  apply verifyJws_loop_stops; assumption.
Qed.

End JwsMore.

Lemma jwsFromManifest_signatures_extracted_witness :
  let manifest :=
    example_manifest [example_sig (Some "ES256") None "valid" "7:}";
                      example_sig (Some "ES384") None "valid" "7:}"] in
  match _jwsFromManifest manifest example_body with
  | Ok jws => Forall2 extracted (signatures manifest) (jws_signatures jws)
              /\ length (jws_signatures jws) = 2
  | Throw _ => False
  end.
Proof.
  intros manifest.
  destruct (_jwsFromManifest manifest example_body) as [jws|e] eqn:E.
  - exact (jwsFromManifest_signatures_extracted manifest example_body jws E).
  - vm_compute in E. discriminate.
Defined.


Lemma jwsFromManifest_conflict_fails_witness :
  (exists e,
     _jwsFromManifest
       (example_manifest [example_sig (Some "ES256") None "valid" "7:}";
                          example_sig (Some "ES256") None "valid" "x:}"])
       example_body = Throw e)
  /\ (exists e,
        _jwsFromManifest
          (example_manifest [example_sig (Some "ES256") None "valid" "7:}";
                             example_sig (Some "ES256") None "valid" "9:}"])
          example_body = Throw e).
Proof.
  split.
  - apply (proj1 (jwsFromManifest_conflict_fails
                    (example_manifest
                       [example_sig (Some "ES256") None "valid" "7:}";
                        example_sig (Some "ES256") None "valid" "x:}"])
                    example_body)
             (example_sig (Some "ES256") None "valid" "x:}")
             (JsObject [("formatLength", JsString "x");
                        ("formatTail", JsString "}")])
             (Some (JsString "x"))).
    + apply list_elem_of_In. simpl. auto.
    + reflexivity.
    + reflexivity.
    + reflexivity.
  - apply (proj2 (jwsFromManifest_conflict_fails
                    (example_manifest
                       [example_sig (Some "ES256") None "valid" "7:}";
                        example_sig (Some "ES256") None "valid" "9:}"])
                    example_body)
             (example_sig (Some "ES256") None "valid" "7:}")
             (example_sig (Some "ES256") None "valid" "9:}")
             7%Z 9%Z "}" "}").
    + apply list_elem_of_In. simpl. auto.
    + apply list_elem_of_In. simpl. auto.
    + exists (inject_Z 7). split; [reflexivity |].
      eexists _, "}". repeat split; reflexivity.
    + exists (inject_Z 9). split; [reflexivity |].
      eexists _, "}". repeat split; reflexivity.
    + left. discriminate.
Defined.

Lemma verifyJws_first_failure_witness :
  let jws := {| jws_signatures :=
                  [example_jwsSig (Some "ES256") None "valid";
                   example_jwsSig (Some "ES256") None "forged";
                   example_jwsSig (Some "none") None "valid"];
                payload := Buffer_from "{layers}" |} in
  let e := ManifestVerificationError "JWS signature failed verification" 1 in
  exists pre x post,
    jws_signatures jws = (pre ++ x :: post)%list
    /\ Forall (sig_passes (base64url (payload jws))) pre
    /\ ~ sig_passes (base64url (payload jws)) x
    /\ verifyJws_step (base64url (payload jws)) (length pre) x = Throw e.
Proof.
  intros jws e.
  assert (Hver : _verifyJws jws = Throw e) by (vm_compute; reflexivity).
  destruct (verifyJws_first_failure jws e Hver)
    as (pre & x & post & Hsigs & Hpre & Hx & Hstep & _).
  exists pre, x, post. auto.
Defined.

(** ** The token fetcher *)

Section TokenMore.
Context `{Platform}.

(** What a token fetch ends with. *)
Lemma getToken_results (http_get : TokenRequest -> TokenReply)
    (opts : TokenOpts) :
  (forall t, _getToken http_get opts = Ok t ->
     t <> ""
     /\ exists tokenUrl,
          getToken_tokenUrl opts = Ok tokenUrl
          /\ http_get (getToken_request opts tokenUrl) = TokenBody (Some t))
  /\ (forall e, _getToken http_get opts = Throw e ->
        isUnauthorized e = true
        \/ exists scheme msg,
             exec_scheme (realm opts) = Some scheme
             /\ scheme <> "http" /\ scheme <> "https" /\ e = Error msg).
Proof.
  unfold _getToken. split.
  - intros t Htok.
    destruct (getToken_tokenUrl opts) as [tokenUrl|e] eqn:Hurl;
      cbn [bind] in Htok; [| discriminate].
    unfold getToken_fetch in Htok.
    destruct (http_get (getToken_request opts tokenUrl))
      as [err status | body_token] eqn:Hget; [discriminate |].
    destruct (truthy body_token) eqn:Htruthy; simpl in Htok;
      [| discriminate].
    injection Htok as <-. apply truthy_present in Htruthy.
    destruct Htruthy as (t & -> & Hne). simpl.
    split; [exact Hne |]. exists tokenUrl. auto.
  - intros e Hthrow.
    destruct (getToken_tokenUrl opts) as [tokenUrl|e'] eqn:Hurl;
      cbn [bind] in Hthrow.
    + left. unfold getToken_fetch in Hthrow.
      destruct (http_get (getToken_request opts tokenUrl))
        as [err status | body_token];
        [injection Hthrow as <-; reflexivity |].
      destruct (negb (truthy body_token)); [| discriminate].
      injection Hthrow as <-. reflexivity.
    + right. injection Hthrow as <-. unfold getToken_tokenUrl in Hurl.
      destruct (exec_scheme (realm opts)) as [scheme|]; [| discriminate].
      destruct (bool_decide (scheme ∉ ["http"; "https"])) eqn:Hin;
        [| discriminate].
      apply bool_decide_eq_true_1 in Hin. injection Hurl as <-.
      exists scheme. eexists. split; [reflexivity |].
      split; [| split; [| reflexivity]]; intros ->; apply Hin;
        apply list_elem_of_In; simpl; auto.
Qed.

(** X8: a token fetch that succeeds returns the [token] of the body the
    auth server answered with, and that token is not empty; one that fails
    does so with an Unauthorized error, except for a realm whose scheme is
    not supported, where the error is a plain [Error]. *)
Theorem getToken_outcomes (http_get : TokenRequest -> TokenReply)
    (opts : TokenOpts) :
  (forall t, _getToken http_get opts = Ok t ->
     t <> ""
     /\ exists tokenUrl,
          getToken_tokenUrl opts = Ok tokenUrl
          /\ http_get (getToken_request opts tokenUrl) = TokenBody (Some t))
  /\ (forall e, _getToken http_get opts = Throw e ->
        isUnauthorized e = true
        \/ exists scheme msg,
             exec_scheme (realm opts) = Some scheme
             /\ scheme <> "http" /\ scheme <> "https" /\ e = Error msg).
Proof. apply getToken_results. Qed.

(** X9: the token request carries an Authorization header exactly when the
    options have both a username and a password, and it is then the Basic
    header of the two; the password appears nowhere else: the query has
    only the keys [service], [scope] and [account], and [account], present
    exactly with a username, holds the username. *)
Theorem getToken_request_credentials (opts : TokenOpts) (tokenUrl : string) :
  (forall u p, tok_username opts = Some u -> u <> "" ->
               tok_password opts = Some p -> p <> "" ->
     tokreq_authorization (getToken_request opts tokenUrl)
     = Some ("Basic " +:+ base64_encode (Buffer_from (u +:+ ":" +:+ p))))
  /\ (~ present (tok_username opts) \/ ~ present (tok_password opts) ->
      tokreq_authorization (getToken_request opts tokenUrl) = None)
  /\ (forall k vs, (k, vs) ∈ getToken_query opts ->
        k ∈ ["service"; "scope"; "account"])
  /\ (forall vs, ("account", vs) ∈ getToken_query opts <->
        exists u, tok_username opts = Some u /\ u <> "" /\ vs = [u]).
Proof.
  assert (Hauth : tokreq_authorization (getToken_request opts tokenUrl)
                  = if truthy (tok_username opts) && truthy (tok_password opts)
                    then Some (_basicAuthHeader (tok_username opts)
                                 (tok_password opts))
                    else None).
  { unfold getToken_request.
    destruct (getToken_query opts);
      destruct (mod_url_parse _) as [[protocol host] path]; reflexivity. }
  assert (Hquery : forall k vs, (k, vs) ∈ getToken_query opts ->
            (k = "service" /\ truthy (service opts) = true)
            \/ (k = "scope" /\ exists sc scs, scopes opts = Some (sc :: scs))
            \/ (k = "account" /\ truthy (tok_username opts) = true
                /\ vs = [str (tok_username opts)])).
  { intros k vs Hin. unfold getToken_query in Hin.
    apply elem_of_app in Hin. destruct Hin as [Hin | Hin].
    - destruct (truthy (service opts)); [| inversion Hin].
      apply list_elem_of_In in Hin. destruct Hin as [Heq | []].
      injection Heq as <- <-. auto.
    - apply elem_of_app in Hin. destruct Hin as [Hin | Hin].
      + destruct (scopes opts) as [[|sc scs]|]; try (inversion Hin; fail).
        apply list_elem_of_In in Hin. destruct Hin as [Heq | []].
        injection Heq as <- <-. right. left. eauto.
      + destruct (truthy (tok_username opts)); [| inversion Hin].
        apply list_elem_of_In in Hin. destruct Hin as [Heq | []].
        injection Heq as <- <-. auto. }
  split; [| split; [| split]].
  - intros u p Hu Hune Hp Hpne. rewrite Hauth.
    assert (Hu' : truthy (tok_username opts) = true)
      by (apply truthy_present; exists u; auto).
    assert (Hp' : truthy (tok_password opts) = true)
      by (apply truthy_present; exists p; auto).
    rewrite Hu', Hp'. simpl. unfold _basicAuthHeader. rewrite Hu, Hp.
    reflexivity.
  - intros Hno. rewrite Hauth.
    destruct Hno as [Hu | Hp].
    + apply truthy_absent in Hu. rewrite Hu. reflexivity.
    + apply truthy_absent in Hp. rewrite Hp, andb_false_r. reflexivity.
  - intros k vs Hin. apply list_elem_of_In. simpl.
    destruct (Hquery k vs Hin) as [[-> _] | [[-> _] | [-> _]]]; auto.
  - intros vs. split.
    + intros Hin.
      destruct (Hquery _ vs Hin) as [[Hk _] | [[Hk _] | (_ & Hu & ->)]];
        try discriminate.
      apply truthy_present in Hu. destruct Hu as (u & Hu & Hne).
      exists u. rewrite Hu. auto.
    + intros (u & Hu & Hne & ->). unfold getToken_query.
      assert (Hu' : truthy (tok_username opts) = true)
        by (apply truthy_present; exists u; auto).
      rewrite Hu', Hu. simpl.
      apply elem_of_app. right. apply elem_of_app. right.
      apply list_elem_of_In. simpl. auto.
Qed.

End TokenMore.

Lemma getToken_outcomes_witness :
  (exists tokenUrl,
     getToken_tokenUrl (example_tokenOpts "auth.docker.io/token" false)
     = Ok tokenUrl
     /\ example_http_get
          (getToken_request (example_tokenOpts "auth.docker.io/token" false)
             tokenUrl) = TokenBody (Some "abc"))
  /\ exists e,
       _getToken example_http_get
         (example_tokenOpts "auth.example.com/token" false) = Throw e
       /\ isUnauthorized e = true.
Proof.
  split.
  - assert (Htok : _getToken example_http_get
                     (example_tokenOpts "auth.docker.io/token" false)
                   = Ok "abc") by (vm_compute; reflexivity).
    apply (proj1 (getToken_outcomes example_http_get _) "abc" Htok).
  - destruct (_getToken example_http_get
                (example_tokenOpts "auth.example.com/token" false))
      as [t|e] eqn:Htok; [vm_compute in Htok; discriminate |].
    exists e. split; [reflexivity |].
    destruct (proj2 (getToken_outcomes example_http_get _) e Htok)
      as [Hun | (scheme & msg & Hs & _)]; [exact Hun |].
    vm_compute in Hs. discriminate.
Defined.

Lemma getToken_request_credentials_witness :
  let opts := {| indexName := "docker.io"; realm := "auth.docker.io/token";
                 service := None; scopes := None;
                 tok_username := Some "user"; tok_password := Some "pass";
                 insecure := false |} in
  tokreq_authorization (getToken_request opts "https://auth.docker.io/token")
  = Some "Basic dXNlcjpwYXNz"
  /\ ("account", ["user"]) ∈ getToken_query opts.
Proof.
  intros opts.
  destruct (getToken_request_credentials opts "https://auth.docker.io/token")
    as (Hboth & _ & _ & Hacc).
  split.
  - apply (Hboth "user" "pass"); [reflexivity | discriminate
                                  | reflexivity | discriminate].
  - apply Hacc. exists "user". split; [reflexivity |].
    split; [discriminate | reflexivity].
Defined.

(** ** The client and its login *)

Section ClientMore.
Context `{Platform}.

(** [login] of the client changes it only when the module's [login]
    succeeds: the client is then logged in and holds the auth info and the
    header made of it, the rest being as before; when the module's [login]
    fails, its error is passed on and the client is left as it was.  The
    scope asked for is [repository:<remoteName>:pull]. *)
Theorem regLogin_effects (login : LoginOpts -> result AuthInfo)
    (self self' : RegistryClientV2) (err : option error) :
  regLogin login self = (self', err) ->
  let opts := {| login_username := client_username self;
                 login_password := client_password self;
                 login_scope := "repository:" +:+ remoteName self
                                  +:+ ":pull" |} in
  (_loggedIn self = true -> self' = self /\ err = None)
  /\ (_loggedIn self = false ->
      match login opts with
      | Throw e => self' = self /\ err = Some e
      | Ok authInfo =>
          err = None
          /\ _loggedIn self' = true
          /\ _authInfo self' = Some authInfo
          /\ _headers_authorization self' = _authHeaderFromAuthInfo authInfo
          /\ remoteName self' = remoteName self
          /\ _url self' = _url self
          /\ __api self' = __api self
          /\ _clientsToClose self' = _clientsToClose self
      end).
Proof.
  intros Hlogin opts. unfold regLogin in Hlogin. split.
  - intros Hin. rewrite Hin in Hlogin. injection Hlogin as <- <-. auto.
  - intros Hout. rewrite Hout in Hlogin. fold opts in Hlogin.
    destruct (login opts) as [authInfo|e]; injection Hlogin as <- <-;
      simpl; auto 10.
Qed.

(** X10: a client logs in once.  After a login that succeeded, a further
    login is a no-op that does not call the module's [login], and
    [getManifest], [listTags] and the blob operations on the logged-in
    client do what they do on the client before the login, whatever
    [login] they are given. *)
Theorem regLogin_once (login : LoginOpts -> result AuthInfo)
    (self self1 : RegistryClientV2) :
  regLogin login self = (self1, None) ->
  forall login' : LoginOpts -> result AuthInfo,
    regLogin login' self1 = (self1, None)
    /\ (forall api_get ref,
          getManifest login' api_get ref self1
          = getManifest login api_get ref self)
    /\ (forall net method digest,
          _headOrGetBlob login' net method digest self1
          = _headOrGetBlob login net method digest self)
    /\ (forall net digest,
          createBlobReadStream login' net digest self1
          = createBlobReadStream login net digest self)
    /\ (forall api_get,
          listTags login' api_get self1 = listTags login api_get self).
Proof.
  intros Hlogin login'.
  assert (Hagain : regLogin login' self1 = (self1, None)).
  { unfold regLogin in *. destruct (_loggedIn self) eqn:Hin.
    - injection Hlogin as <-. rewrite Hin. reflexivity.
    - destruct (login _) as [authInfo|e]; [| discriminate].
      injection Hlogin as <-. reflexivity. }
  split; [exact Hagain |].
  assert (Hblob : forall net method digest,
            _headOrGetBlob login' net method digest self1
            = _headOrGetBlob login net method digest self).
  { intros net method digest. unfold _headOrGetBlob, headOrGetBlob_fuel.
    rewrite Hlogin, Hagain. reflexivity. }
  split; [| split; [exact Hblob |]; split].
  - intros api_get ref. unfold getManifest. rewrite Hlogin, Hagain.
    reflexivity.
  - intros net digest. unfold createBlobReadStream. rewrite Hblob.
    reflexivity.
  - intros api_get. unfold listTags. rewrite Hlogin, Hagain. reflexivity.
Qed.

Lemma regLogin_inv login self :
  client_inv self -> client_inv (fst (regLogin login self)).
Proof.
  intros Hinv. unfold regLogin. destruct (_loggedIn self) eqn:Hin;
    [exact Hinv |].
  destruct (login _) as [authInfo|e]; [| exact Hinv].
  intros _. exists authInfo. split; reflexivity.
Qed.

(** X11: a client made by the constructor is not logged in, and every
    operation keeps the link between the login state and the header: a
    client that is logged in holds the auth info of its login, and its
    Authorization header is the one made of that auth info. *)
Theorem client_inv_kept (login : LoginOpts -> result AuthInfo) :
  (forall opts, client_inv (createClient opts))
  /\ (forall self, client_inv self ->
        client_inv (fst (regLogin login self))
        /\ client_inv (_api self)
        /\ client_inv (close self)
        /\ (forall api_get ref,
              client_inv (fst (getManifest login api_get ref self)))
        /\ (forall net method digest r,
              _headOrGetBlob login net method digest self = Some r ->
              client_inv (blob_client r))
        /\ (forall net digest r,
              createBlobReadStream login net digest self = Some r ->
              client_inv (stream_client r))
        /\ (forall api_get, client_inv (fst (listTags login api_get self)))).
Proof.
  split; [intros opts Hin; discriminate |].
  intros self Hinv.
  assert (Hapi : forall s, client_inv s -> client_inv (_api s)).
  { intros s Hs. unfold _api. destruct (__api s); exact Hs. }
  assert (Hblob : forall net method digest r,
            _headOrGetBlob login net method digest self = Some r ->
            client_inv (blob_client r)).
  { intros net method digest r. unfold _headOrGetBlob, headOrGetBlob_fuel.
    pose proof (regLogin_inv login self Hinv) as Hl.
    destruct (regLogin login self) as [self1 [lerr|]]; simpl in Hl.
    - intros Hr. injection Hr as <-. exact Hl.
    - destruct (makeReq _ net method digest _ _) as [[st' fin]|];
        [| discriminate].
      intros Hr. injection Hr as <-. exact Hl. }
  split; [apply regLogin_inv; exact Hinv |].
  split; [apply Hapi; exact Hinv |].
  split; [exact Hinv |].
  split; [| split; [exact Hblob |]; split].
  3:{ intros api_get. unfold listTags.
      pose proof (regLogin_inv login self Hinv) as Hl.
      destruct (regLogin login self) as [self1 [lerr|]]; simpl in Hl;
        [exact Hl |].
      apply Hapi in Hl. destruct (api_get _ _); exact Hl. }
  - intros api_get ref. unfold getManifest.
    pose proof (regLogin_inv login self Hinv) as Hl.
    destruct (regLogin login self) as [self1 [lerr|]]; simpl in Hl;
      [exact Hl |].
    apply Hapi in Hl.
    destruct (api_get _ _) as [aerr | res_ manifest_ body]; [exact Hl |].
    destruct (manifest_verify res_ manifest_ body); [| exact Hl].
    destruct (negb (schemaVersion manifest_ =? 1)%Z); [exact Hl |].
    destruct (negb (length (fsLayers manifest_)
                    =? length (history manifest_))%nat); [exact Hl |].
    destruct (length (fsLayers manifest_) =? 0)%nat; exact Hl.
  - intros net digest r. unfold createBlobReadStream.
    destruct (_headOrGetBlob login net "get" digest self) as [b|] eqn:Hb;
      [| discriminate].
    intros Hr. injection Hr as <-. simpl. eapply Hblob. exact Hb.
Qed.

(** X12: the JSON client of the API is made at the first use of [_api] and
    tracked once; later uses change nothing.  [close] empties the list of
    tracked clients but keeps the API client: a use of [_api] after it
    neither makes nor tracks a client. *)
Theorem api_client_made_once (self : RegistryClientV2) :
  _api (_api self) = _api self
  /\ (__api self = false ->
      _clientsToClose (_api self)
      = (_clientsToClose self ++ [_url self])%list)
  /\ _clientsToClose (close (_api self)) = []
  /\ _clientsToClose (_api (close (_api self))) = [].
Proof.
  unfold _api, close, set_clientsToClose.
  destruct (__api self) eqn:Hapi; simpl; rewrite ?Hapi; simpl;
    repeat split; try reflexivity; discriminate.
Qed.

End ClientMore.

Lemma regLogin_once_witness :
  exists self1,
    regLogin example_login example_client = (self1, None)
    /\ regLogin (fun _ => Throw (UnauthorizedError "no")) self1 = (self1, None)
    /\ _headers_authorization self1 = Some "Bearer abc".
Proof.
  destruct (regLogin example_login example_client) as [self1 err] eqn:Hlogin.
  assert (Herr : err = None).
  { apply (f_equal snd) in Hlogin. simpl in Hlogin. subst err. reflexivity. }
  subst err. exists self1. split; [reflexivity |].
  split.
  - apply (regLogin_once example_login example_client self1 Hlogin).
  - apply (f_equal fst) in Hlogin. simpl in Hlogin. subst self1. reflexivity.
Defined.

Lemma regLogin_effects_witness :
  let r := regLogin example_login example_client in
  _loggedIn (fst r) = true
  /\ _headers_authorization (fst r) = Some "Bearer abc"
  /\ snd r = None.
Proof.
  intros r.
  destruct (regLogin example_login example_client) as [self' err] eqn:Hlogin.
  subst r.
  destruct (regLogin_effects example_login example_client self' err Hlogin)
    as [_ Hout].
  specialize (Hout eq_refl). simpl in Hout.
  destruct Hout as (-> & Hin & _ & Hhead & _). simpl. auto.
Defined.

Lemma client_inv_kept_witness :
  client_inv (fst (regLogin example_login example_client))
  /\ client_inv (close (fst (regLogin example_login example_client))).
Proof.
  destruct (client_inv_kept example_login) as [Hnew Hkept].
  destruct (Hkept example_client (Hnew _)) as (Hlogin & _).
  split; [exact Hlogin |].
  destruct (Hkept _ Hlogin) as (_ & _ & Hclose & _). exact Hclose.
Defined.

Lemma api_client_made_once_witness :
  _clientsToClose (_api example_client) = ["https://registry-1.docker.io"].
Proof.
  apply (proj1 (proj2 (api_client_made_once example_client))). reflexivity.
Defined.

(** ** Blob transport *)

Section BlobMore.
Context `{Platform}.
Variable net : nat -> string -> ReqOpts -> ReqOutcome.
Variables method digest : string.

(** What one call of [makeReq] adds: the requests [more] and the responses
    [got].  A client is made for each request; each request after the
    first goes where the response before it redirects to; and when the
    call ends without error, each request was answered and the last
    answer is not a redirect. *)
Lemma makeReq_trace fuel : forall reqOpts st st' fin,
  makeReq fuel net method digest reqOpts st = Some (st', fin) ->
  exists more got,
    sent st' = (sent st ++ more)%list
    /\ ress st' = (ress st ++ got)%list
    /\ clients st' = (clients st ++ map req_url more)%list
    /\ numRedirs st' = numRedirs st + length more
    /\ (more = [] \/ exists tl, more = reqOpts :: tl)
    /\ length got <= length more <= S (length got)
    /\ (forall i req, more !! (S i) = Some req ->
          exists res location,
            got !! i = Some (Some res)
            /\ is_redirect res = true
            /\ headers res !! "location" = Some location
            /\ req = redirect_request location)
    /\ (fin = Next None ->
          length got = length more
          /\ exists res, last got = Some (Some res)
                         /\ is_redirect res = false).
Proof.
  induction fuel as [|fuel IH]; intros reqOpts st st' fin Hreq;
    cbn [makeReq] in Hreq; [discriminate |].
  assert (Hnone : forall i (req : ReqOpts) (P : Prop),
            (@nil ReqOpts) !! i = Some req -> P).
  { intros i req P Hi. rewrite lookup_nil in Hi. discriminate. }
  destruct (MAX_NUM_REDIRS <=? numRedirs st)%nat.
  { injection Hreq as <- <-. exists [], []. rewrite !app_nil_r. simpl.
    split; [reflexivity |]. split; [reflexivity |]. split; [reflexivity |].
    split; [lia |]. split; [auto |]. split; [lia |].
    split; [| discriminate].
    intros i req Hi. discriminate. }
  destruct (net _ method reqOpts) as [connErr | err res | res].
  - injection Hreq as <- <-. exists [reqOpts], []. simpl.
    rewrite app_nil_r.
    split; [reflexivity |]. split; [reflexivity |]. split; [reflexivity |].
    split; [lia |]. split; [eauto |]. split; [lia |].
    split; [| discriminate]. intros i req. apply Hnone.
  - injection Hreq as <- <-. exists [reqOpts], [res]. simpl.
    split; [reflexivity |]. split; [reflexivity |]. split; [reflexivity |].
    split; [lia |]. split; [eauto |]. split; [lia |].
    split; [| discriminate]. intros i req. apply Hnone.
  - destruct (is_redirect res) eqn:Hredir.
    2:{ injection Hreq as <- <-. exists [reqOpts], [Some res]. simpl.
        split; [reflexivity |]. split; [reflexivity |].
        split; [reflexivity |].
        split; [lia |]. split; [eauto |]. split; [lia |].
        split; [intros i req; apply Hnone |].
        intros _. split; [reflexivity |]. exists res. auto. }
    destruct (headers res !! "location") as [location|] eqn:Hloc.
    2:{ injection Hreq as <- <-. exists [reqOpts], [Some res]. simpl.
        split; [reflexivity |]. split; [reflexivity |].
        split; [reflexivity |].
        split; [lia |]. split; [eauto |]. split; [lia |].
        split; [| discriminate]. intros i req. apply Hnone. }
    assert (Hnext : makeReq fuel net method digest (redirect_request location)
              {| numRedirs := numRedirs st + 1;
                 ress := ress st ++ [Some res];
                 clients := clients st ++ [req_url reqOpts];
                 sent := sent st ++ [reqOpts] |} = Some (st', fin)).
    { unfold redirect_request.
      destruct (mod_url_parse location) as [[protocol host] path].
      exact Hreq. }
    clear Hreq. apply IH in Hnext. simpl in Hnext.
    destruct Hnext as (more & got & Hsent & Hress & Hclients & Hnum & Hfirst
                       & Hlen & Hfollow & Hend).
    exists (reqOpts :: more), (Some res :: got). simpl.
    split; [rewrite Hsent, <- app_assoc; reflexivity |].
    split; [rewrite Hress, <- app_assoc; reflexivity |].
    split; [rewrite Hclients, <- app_assoc; reflexivity |].
    split; [lia |]. split; [eauto |]. split; [lia |]. split.
    + intros [|i] req Hi; simpl in Hi.
      * exists res, location. simpl.
        destruct Hfirst as [-> | (tl & ->)];
          [rewrite lookup_nil in Hi; discriminate |].
        simpl in Hi. injection Hi as <-. auto.
      * simpl. apply Hfollow. exact Hi.
    + intros Hfin. destruct (Hend Hfin) as (Hsame & res' & Hlast & Hnot).
      split; [lia |]. exists res'. split; [| exact Hnot].
      destruct got as [|g got']; [discriminate |].
      rewrite last_cons. rewrite Hlast. reflexivity.
Qed.

Variable login : LoginOpts -> result AuthInfo.

(** X13: a blob HEAD or GET always ends; it sends at most three requests
    (the first one and two redirects) and hands the callback a response
    for each request but, possibly, the last. *)
Theorem headOrGetBlob_ends_bounded (self : RegistryClientV2) :
  exists r,
    _headOrGetBlob login net method digest self = Some r
    /\ length (blob_sent r) <= MAX_NUM_REDIRS
    /\ forall err chain,
         blob_cb r = Called err chain ->
         length chain <= length (blob_sent r)
         /\ length (blob_sent r) <= S (length chain).
Proof.
  unfold _headOrGetBlob, headOrGetBlob_fuel.
  destruct (regLogin login self) as [self1 [lerr|]].
  - eexists. split; [reflexivity |]. simpl. split; [lia |].
    intros err chain Hcb. injection Hcb as <- <-. simpl. lia.
  - match goal with
    | |- context [makeReq ?f net method digest ?o ?s] =>
        destruct (makeReq_total net method digest f o s)
          as (st' & fin & Hreq);
          [lia | simpl; unfold MAX_NUM_REDIRS; lia |];
        rewrite Hreq;
        pose proof (makeReq_adds net method digest f o s st' fin Hreq)
          as Hadds;
        apply makeReq_trace in Hreq
    end.
    simpl in Hreq, Hadds.
    destruct Hadds as (Hmax & _); [lia |].
    destruct Hreq as (more & got & Hsent & Hress & _ & Hnum & _ & Hlen & _).
    eexists. split; [reflexivity |]. simpl. rewrite Hsent.
    split; [lia |].
    intros err chain Hcb. destruct fin as [e|]; [| discriminate].
    injection Hcb as <- <-. rewrite Hress. simpl. lia.
Qed.

Lemma regLogin_keeps (self : RegistryClientV2) :
  let self1 := fst (regLogin login self) in
  _url self1 = _url self
  /\ remoteName self1 = remoteName self
  /\ _clientsToClose self1 = _clientsToClose self.
Proof.
  unfold regLogin. destruct (_loggedIn self); [auto |].
  destruct (login _); simpl; auto.
Qed.

(** What [_headOrGetBlob] makes of the state [makeReq] ends in. *)
Lemma headOrGetBlob_trace (self : RegistryClientV2) (r : BlobResult) :
  _headOrGetBlob login net method digest self = Some r ->
  (exists e, snd (regLogin login self) = Some e
             /\ blob_sent r = [] /\ blob_cb r = Called (Some e) []
             /\ blob_client r = fst (regLogin login self))
  \/ (snd (regLogin login self) = None
      /\ exists st' fin,
           makeReq (S MAX_NUM_REDIRS) net method digest
             {| req_url := _url self;
                req_path := blob_path self digest;
                req_headers :=
                  Some (_headers_authorization (fst (regLogin login self))) |}
             {| numRedirs := 0; ress := [];
                clients := _clientsToClose self; sent := [] |}
           = Some (st', fin)
           /\ blob_sent r = sent st'
           /\ _clientsToClose (blob_client r) = clients st'
           /\ blob_cb r = match fin with
                          | Next err => Called err (ress st')
                          | Escaped e => Uncaught e
                          end).
Proof.
  unfold _headOrGetBlob, headOrGetBlob_fuel.
  pose proof (regLogin_keeps self) as Hkeep.
  destruct (regLogin login self) as [self1 [lerr|]]; simpl in Hkeep;
    cbn [fst snd].
  - intros Hr. injection Hr as <-. left. eauto.
  - destruct Hkeep as (Hurl & Hname & Hclients).
    unfold blob_path. rewrite Hurl, Hname, Hclients.
    destruct (makeReq _ net method digest _ _) as [[st' fin]|] eqn:Hreq;
      [| discriminate].
    intros Hr. injection Hr as <-. right. split; [reflexivity |].
    exists st', fin. simpl. auto.
Qed.

(** The chain of a blob operation that ends without error. *)
Lemma headOrGetBlob_chain_shape (self : RegistryClientV2)
    (r : BlobResult) (chain : list (option Response)) :
  _headOrGetBlob login net method digest self = Some r ->
  blob_cb r = Called None chain ->
  length chain = length (blob_sent r)
  /\ (exists res, last chain = Some (Some res) /\ is_redirect res = false)
  /\ forall i, S i < length chain ->
       exists res location,
         chain !! i = Some (Some res)
         /\ (statusCode res = 302%Z \/ statusCode res = 307%Z)
         /\ headers res !! "location" = Some location.
Proof.
  intros Hblob Hcb. apply headOrGetBlob_trace in Hblob.
  destruct Hblob as [(e & _ & _ & Hcb' & _)
                    | (_ & st' & fin & Hreq & Hsent & _ & Hcb')];
    rewrite Hcb' in Hcb; [discriminate |].
  destruct fin as [err|]; [| discriminate]. injection Hcb as -> <-.
  apply makeReq_trace in Hreq. simpl in Hreq.
  destruct Hreq as (more & got & Hmore & -> & _ & _ & _ & _ & Hfollow & Hend).
  destruct (Hend eq_refl) as (Hlen & Hlast).
  rewrite Hsent, Hmore. split; [exact Hlen |]. split; [exact Hlast |].
  intros i Hi. rewrite Hlen in Hi.
  destruct (lookup_lt_is_Some_2 more (S i) Hi) as [req Hreq].
  destruct (Hfollow i req Hreq) as (res & location & Hgot & Hredir & Hloc & _).
  exists res, location. split; [exact Hgot |]. split; [| exact Hloc].
  unfold is_redirect in Hredir. apply orb_true_iff in Hredir.
  destruct Hredir as [H2 | H7]; [left | right]; apply Z.eqb_eq; assumption.
Qed.

(** X14: the chain of a blob HEAD or GET that ends without error has a
    response for each request sent; its last response is not a redirect
    and each response before it is a 302 or 307 with a Location header. *)
Theorem headOrGetBlob_success_chain (self : RegistryClientV2)
    (r : BlobResult) (chain : list (option Response)) :
  _headOrGetBlob login net method digest self = Some r ->
  blob_cb r = Called None chain ->
  length chain = length (blob_sent r)
  /\ (exists res, last chain = Some (Some res) /\ is_redirect res = false)
  /\ forall i, S i < length chain ->
       exists res location,
         chain !! i = Some (Some res)
         /\ (statusCode res = 302%Z \/ statusCode res = 307%Z)
         /\ headers res !! "location" = Some location.
Proof. apply headOrGetBlob_chain_shape. Qed.

(** X15: the first request of a blob HEAD or GET goes to the registry, for
    the path [/v2/<name>/blobs/<digest>]; each later request goes to the
    origin and path of the Location header of the response before it. *)
Theorem headOrGetBlob_follows_location (self : RegistryClientV2)
    (r : BlobResult) (err : option error) (chain : list (option Response)) :
  _headOrGetBlob login net method digest self = Some r ->
  blob_cb r = Called err chain ->
  (forall req, blob_sent r !! 0 = Some req ->
     req_url req = _url self
     /\ req_path req
        = "/v2/" +:+ encodeURI (remoteName self) +:+ "/blobs/"
            +:+ encodeURIComponent digest)
  /\ (forall i req, blob_sent r !! (S i) = Some req ->
        exists res location,
          chain !! i = Some (Some res)
          /\ headers res !! "location" = Some location
          /\ req = redirect_request location).
Proof.
  intros Hblob Hcb. apply headOrGetBlob_trace in Hblob.
  destruct Hblob as [(e & _ & Hsent & Hcb' & _)
                    | (_ & st' & fin & Hreq & Hsent & _ & Hcb')];
    rewrite Hcb' in Hcb.
  { rewrite Hsent. split; intros; discriminate. }
  destruct fin as [err'|]; [| discriminate]. injection Hcb as <- <-.
  apply makeReq_trace in Hreq. simpl in Hreq.
  destruct Hreq as (more & got & Hmore & -> & _ & _ & Hfirst & _ & Hfollow & _).
  rewrite Hsent, Hmore. split.
  - intros req H0. destruct Hfirst as [-> | (tl & ->)]; [discriminate |].
    simpl in H0. injection H0 as <-. split; reflexivity.
  - intros i req Hi.
    destruct (Hfollow i req Hi) as (res & location & Hgot & _ & Hloc & Heq).
    exists res, location. auto.
Qed.

(** X16: each request of a blob HEAD or GET is sent through an HTTP client
    of its own, made for the URL of the request, and all of them are added
    to the clients the registry client closes; [close] leaves none. *)
Theorem headOrGetBlob_clients_tracked (self : RegistryClientV2)
    (r : BlobResult) :
  _headOrGetBlob login net method digest self = Some r ->
  _clientsToClose (blob_client r)
  = (_clientsToClose self ++ map req_url (blob_sent r))%list
  /\ _clientsToClose (close (blob_client r)) = [].
Proof.
  intros Hblob. split; [| reflexivity].
  apply headOrGetBlob_trace in Hblob.
  destruct Hblob as [(e & _ & Hsent & _ & Hclient)
                    | (_ & st' & fin & Hreq & Hsent & Hclients & _)].
  - rewrite Hsent, Hclient. simpl. rewrite app_nil_r.
    apply (regLogin_keeps self).
  - rewrite Hclients, Hsent. apply makeReq_trace in Hreq. simpl in Hreq.
    destruct Hreq as (more & got & -> & _ & -> & _). reflexivity.
Qed.

End BlobMore.

Lemma headOrGetBlob_success_chain_witness :
  exists r chain,
    headBlob example_login (example_net 2) "sha256:YmxvYg==" example_client
    = Some r
    /\ blob_cb r = Called None chain
    /\ length chain = length (blob_sent r)
    /\ exists res, last chain = Some (Some res) /\ is_redirect res = false.
Proof.
  destruct (headBlob example_login (example_net 2) "sha256:YmxvYg=="
              example_client) as [r|] eqn:Hblob;
    [| vm_compute in Hblob; discriminate].
  assert (Hcb : blob_cb r
                = Called None [Some example_redirect; Some example_redirect;
                               Some example_blob_response]).
  { pose proof Hblob as Hr. vm_compute in Hr. injection Hr as <-.
    vm_compute. reflexivity. }
  exists r, [Some example_redirect; Some example_redirect;
             Some example_blob_response].
  split; [reflexivity |]. split; [exact Hcb |].
  destruct (headOrGetBlob_success_chain (example_net 2) "head"
              "sha256:YmxvYg==" example_login example_client r _ Hblob Hcb)
    as (Hlen & Hlast & _).
  split; assumption.
Defined.

Lemma headOrGetBlob_follows_location_witness :
  exists r second,
    headBlob example_login (example_net 1) "sha256:YmxvYg==" example_client
    = Some r
    /\ blob_sent r !! 1 = Some second
    /\ second
       = redirect_request "https://cdn.example.com/registry-v2/blob".
Proof.
  destruct (headBlob example_login (example_net 1) "sha256:YmxvYg=="
              example_client) as [r|] eqn:Hblob;
    [| vm_compute in Hblob; discriminate].
  assert (Hr : blob_cb r = Called None [Some example_redirect;
                                        Some example_blob_response]
               /\ exists second, blob_sent r !! 1 = Some second).
  { pose proof Hblob as Hr. vm_compute in Hr. injection Hr as <-.
    split; [vm_compute; reflexivity | eexists; reflexivity]. }
  destruct Hr as (Hcb & second & Hsecond).
  exists r, second. split; [reflexivity |]. split; [exact Hsecond |].
  destruct (headOrGetBlob_follows_location (example_net 1) "head"
              "sha256:YmxvYg==" example_login example_client r _ _ Hblob Hcb)
    as (_ & Hfollow).
  destruct (Hfollow 0 second Hsecond) as (res & location & Hres & Hloc & ->).
  simpl in Hres. injection Hres as <-.
  vm_compute in Hloc. injection Hloc as <-. reflexivity.
Defined.

Lemma headOrGetBlob_clients_tracked_witness :
  exists r,
    headBlob example_login (example_net 1) "sha256:YmxvYg==" example_client
    = Some r
    /\ _clientsToClose (blob_client r)
       = (_clientsToClose example_client ++ map req_url (blob_sent r))%list.
Proof.
  destruct (headBlob example_login (example_net 1) "sha256:YmxvYg=="
              example_client) as [r|] eqn:Hblob;
    [| vm_compute in Hblob; discriminate].
  exists r. split; [reflexivity |].
  apply (headOrGetBlob_clients_tracked (example_net 1) "head"
           "sha256:YmxvYg==" example_login example_client r Hblob).
Defined.

(** ** Blob streams *)

Lemma quoted_no_percent (s : string) :
  no_percent s -> no_percent (quoted s).
Proof.
  intros Hs. unfold quoted. split; [discriminate |].
  apply no_percent_app; [exact Hs |]. split; [discriminate | exact I].
Qed.

Section StreamMore.
Context `{Platform} `{!SprintfLaws H}.
Variable login : LoginOpts -> result AuthInfo.
Variable net : nat -> string -> ReqOpts -> ReqOutcome.

(** X17: the stream [createBlobReadStream] hands over comes without error;
    it is the last response of the chain, which is not a redirect, and no
    byte is counted yet.  The digest header is read from the first
    response: without one (or with an empty one) the stream has no hash
    and the digest is not checked; with one, the header is the digest
    asked for, [algorithm:hex], and the stream has a fresh hash of that
    algorithm that expects [hex]. *)
Theorem createBlobReadStream_stream (digest : string)
    (self : RegistryClientV2) (r : StreamResult) (err : option error)
    (stream : BlobStream) (chain : list (option Response)) :
  createBlobReadStream login net digest self = Some r ->
  stream_cb r = Called err (Some stream, chain) ->
  err = None
  /\ last chain = Some (Some (stream_res stream))
  /\ is_redirect (stream_res stream) = false
  /\ numBytes stream = 0%Z
  /\ exists first,
       head chain = Some (Some first)
       /\ match dcdInfo stream with
          | None => truthy (headers first !! "docker-content-digest") = false
          | Some d =>
              headers first !! "docker-content-digest" = Some digest
              /\ digest = algorithm d +:+ ":" +:+ expectedDigest d
              /\ raw d = digest
              /\ hash d = []
          end.
Proof.
  unfold createBlobReadStream. intros Hcreate Hcb.
  destruct (_headOrGetBlob login net "get" digest self) as [b|] eqn:Hblob;
    [| discriminate].
  injection Hcreate as <-. simpl in Hcb.
  destruct (blob_cb b) as [berr bchain|] eqn:Hbcb; [| discriminate].
  unfold createBlobReadStream_cb in Hcb.
  destruct berr as [e|]; [discriminate |].
  destruct (headOrGetBlob_chain_shape net "get" digest login self b bchain
              Hblob Hbcb) as (_ & (lastRes & Hlast & Hnot) & _).
  rewrite Hlast in Hcb.
  destruct (head bchain) as [[first|]|] eqn:Hhead; try discriminate.
  destruct (truthy (headers first !! "docker-content-digest")) eqn:Htruthy.
  - destruct (_parseDockerContentDigest _) as [d|pe] eqn:Hparse;
      [| destruct (restify_new _ _); discriminate].
    destruct (String.eqb (raw d) digest) eqn:Hraw; cbn [negb] in Hcb;
      [| destruct (restify_new _ _); discriminate].
    injection Hcb as <- <- <-. simpl.
    apply String.eqb_eq in Hraw.
    apply parseDockerContentDigest_Ok in Hparse.
    destruct Hparse as (Hdcd & Hparts & _ & _ & Hempty).
    split; [reflexivity |]. split; [exact Hlast |]. split; [exact Hnot |].
    split; [reflexivity |]. exists first. split; [exact Hhead |].
    rewrite Hdcd, <- Hraw. auto.
  - injection Hcb as <- <- <-. simpl.
    split; [reflexivity |]. split; [exact Hlast |]. split; [exact Hnot |].
    split; [reflexivity |]. exists first. auto.
Qed.

(** X18: when the transport ends without error and the first response has
    a digest header, not empty, that is not the digest asked for, no stream
    is handed over.  When the header parses and the message of the error
    can be rendered, the callback gets a BadDigest error alone.  When the
    header does not parse and has no percent sign, the message made for it
    ends in [%s], the error cannot be made, and the callback is not called
    at all. *)
Theorem createBlobReadStream_digest_mismatch (digest : string)
    (self : RegistryClientV2) (b : BlobResult)
    (chain : list (option Response)) (first : Response) (dcd : string) :
  _headOrGetBlob login net "get" digest self = Some b ->
  blob_cb b = Called None chain ->
  head chain = Some (Some first) ->
  headers first !! "docker-content-digest" = Some dcd ->
  dcd <> "" -> dcd <> digest ->
  exists r,
    createBlobReadStream login net digest self = Some r
    /\ (forall err stream chain',
          stream_cb r <> Called err (Some stream, chain'))
    /\ (forall d m,
          _parseDockerContentDigest (Some dcd) = Ok d ->
          sprintf ("Docker-Content-Digest header, " +:+ dcd
                     +:+ ", does not match given digest, " +:+ digest)
          = Some m ->
          stream_cb r = Called (Some (BadDigestError m)) (None, []))
    /\ (forall e,
          _parseDockerContentDigest (Some dcd) = Throw e ->
          no_percent dcd ->
          stream_cb r = Uncaught (Error "too few args to sprintf")).
Proof.
  intros Hblob Hcb Hhead Hdcd Hne Hdiff.
  unfold createBlobReadStream. rewrite Hblob.
  eexists. split; [reflexivity |]. cbn [stream_cb]. rewrite Hcb.
  unfold createBlobReadStream_cb.
  destruct (headOrGetBlob_chain_shape net "get" digest login self b chain
              Hblob Hcb) as (_ & (lastRes & Hlast & _) & _).
  rewrite Hlast, Hhead, Hdcd.
  assert (Htruthy : truthy (Some dcd) = true)
    by (apply truthy_present; exists dcd; auto).
  rewrite Htruthy. change (str (Some dcd)) with dcd.
  destruct (_parseDockerContentDigest (Some dcd)) as [d|pe] eqn:Hparse.
  - apply parseDockerContentDigest_Ok in Hparse.
    destruct Hparse as (Hraw & _). injection Hraw as Hraw.
    assert (Hneq : String.eqb (raw d) digest = false)
      by (apply String.eqb_neq; congruence).
    rewrite Hneq, <- Hraw. cbn [negb]. unfold restify_new.
    split; [| split].
    + intros err stream chain'.
      destruct (sprintf _); discriminate.
    + intros d' m _ Hm. rewrite Hm. reflexivity.
    + discriminate.
  - unfold restify_new. split; [| split].
    + intros err stream chain'.
      destruct (sprintf _); discriminate.
    + discriminate.
    + intros e _ Hpercent.
      replace ("could not parse Docker-Content-Digest header, "
                 +:+ quoted dcd +:+ ": %s")
        with (("could not parse Docker-Content-Digest header, "
                 +:+ quoted dcd +:+ ": ") +:+ "%s" +:+ "")
        by (rewrite !append_assoc; reflexivity).
      rewrite sprintf_conversion; [reflexivity |].
      apply no_percent_app; [vm_compute; repeat split; discriminate |].
      apply no_percent_app; [| vm_compute; repeat split; discriminate].
      apply quoted_no_percent. exact Hpercent.
Qed.

(** X19: how the bytes of a blob are cut into chunks does not matter: the
    end of a stream finds the same for the chunks as for one chunk of all
    their bytes. *)
Theorem consume_chunking (chunks : list (list byte)) (stream : BlobStream) :
  consume chunks stream = consume [List.concat chunks] stream.
Proof.
  unfold consume, on_end.
  destruct (on_data_chunks chunks stream) as (Hres & Hnum & Hdcd).
  destruct (on_data_chunks [List.concat chunks] stream)
    as (Hres' & Hnum' & Hdcd').
  simpl List.concat in Hnum', Hdcd'. rewrite app_nil_r in Hnum', Hdcd'.
  rewrite Hres, Hnum, Hdcd, Hres', Hnum', Hdcd'. reflexivity.
Qed.

End StreamMore.

Lemma createBlobReadStream_stream_witness :
  exists r chain,
    createBlobReadStream example_login (example_net 1) "sha256:YmxvYg=="
      example_client = Some r
    /\ stream_cb r = Called None (Some example_stream, chain)
    /\ last chain = Some (Some (stream_res example_stream))
    /\ is_redirect (stream_res example_stream) = false.
Proof.
  destruct (createBlobReadStream example_login (example_net 1)
              "sha256:YmxvYg==" example_client) as [r|] eqn:Hcreate;
    [| vm_compute in Hcreate; discriminate].
  assert (Hcb : stream_cb r
                = Called None (Some example_stream,
                               [Some example_redirect;
                                Some example_blob_response])).
  { pose proof Hcreate as Hr. vm_compute in Hr. injection Hr as <-.
    vm_compute. reflexivity. }
  exists r, [Some example_redirect; Some example_blob_response].
  split; [reflexivity |]. split; [exact Hcb |].
  destruct (createBlobReadStream_stream example_login (example_net 1)
              "sha256:YmxvYg==" example_client r None example_stream _
              Hcreate Hcb) as (_ & Hlast & Hnot & _).
  split; assumption.
Defined.

Lemma createBlobReadStream_digest_mismatch_witness :
  exists r,
    createBlobReadStream example_login (example_net 1) "sha256:cafe"
      example_client = Some r
    /\ (forall err stream chain',
          stream_cb r <> Called err (Some stream, chain'))
    /\ exists m, stream_cb r = Called (Some (BadDigestError m)) (None, []).
Proof.
  destruct (_headOrGetBlob example_login (example_net 1) "get" "sha256:cafe"
              example_client) as [b|] eqn:Hblob;
    [| vm_compute in Hblob; discriminate].
  assert (Hcb : blob_cb b = Called None [Some example_redirect;
                                         Some example_blob_response]).
  { pose proof Hblob as Hb. vm_compute in Hb. injection Hb as <-.
    vm_compute. reflexivity. }
  destruct (createBlobReadStream_digest_mismatch example_login (example_net 1)
              "sha256:cafe" example_client b _ example_redirect
              "sha256:YmxvYg==" Hblob Hcb)
    as (r & Hr & Hnone & Hbad & _).
  - reflexivity.
  - vm_compute. reflexivity.
  - discriminate.
  - discriminate.
  - exists r. split; [exact Hr |]. split; [exact Hnone |].
    eexists. eapply Hbad; reflexivity.
Defined.

(** ** Sanitizing errors *)

Example sanitizeErr_examples :
  _sanitizeErr {| err_statusCode := Some 404%Z; err_message := "<html>" |}
    (Some {| statusCode := 404;
             headers := {[ "content-type" := "text/html; charset=utf-8" ]} |})
    None
  = {| err_statusCode := Some 404%Z; err_message := "not found" |}
  /\ _sanitizeErr {| err_statusCode := Some 404%Z; err_message := "unknown" |}
       (Some {| statusCode := 404;
                headers := {[ "content-type"
                                := "application/json; charset=utf-8" ]} |})
       (Some "no such tag")
     = {| err_statusCode := Some 404%Z; err_message := "unknown" |}.
Proof. split; vm_compute; reflexivity. Qed.

Lemma before_semicolon_idem (s : string) :
  before_semicolon (before_semicolon s) = before_semicolon s.
Proof.
  induction s as [|c rest IH]; simpl; [reflexivity |].
  destruct (Ascii.eqb c ";"%char) eqn:Hc; [reflexivity |].
  simpl. rewrite Hc, IH. reflexivity.
Qed.

(** X20: [_sanitizeErr] never changes the status code and changes the
    message of 404 errors only; the message is kept when there is no
    response, no content type, or the content type
    [application/json], with or without parameters; sanitizing twice
    is sanitizing once; and a 404 with another content type, not empty,
    gets the fallback message, or [not found] without one. *)
Theorem sanitizeErr_spares_json (err : ErrObject) (res : option Response)
    (errmsg : option string) :
  err_statusCode (_sanitizeErr err res errmsg) = err_statusCode err
  /\ (err_statusCode err <> Some 404%Z -> _sanitizeErr err res errmsg = err)
  /\ (forall r parameters,
        res = Some r ->
        headers r !! "content-type"
        = Some ("application/json" +:+ parameters) ->
        parameters = "" \/ (exists p, parameters = String ";"%char p) ->
        _sanitizeErr err res errmsg = err)
  /\ (forall r, res = Some r -> headers r !! "content-type" = None ->
        _sanitizeErr err res errmsg = err)
  /\ _sanitizeErr (_sanitizeErr err res errmsg) res errmsg
     = _sanitizeErr err res errmsg
  /\ (res = None -> _sanitizeErr err res errmsg = err)
  /\ (forall r contentType,
        res = Some r -> err_statusCode err = Some 404%Z ->
        headers r !! "content-type" = Some contentType ->
        contentType <> "" ->
        before_semicolon contentType <> "application/json" ->
        err_message (_sanitizeErr err res errmsg)
        = if truthy errmsg then str errmsg else "not found").
Proof.
  unfold _sanitizeErr. destruct res as [r|].
  2:{ repeat split; auto; intros; discriminate. }
  destruct (bool_decide (err_statusCode err = Some 404%Z)) eqn:H404.
  2:{ apply bool_decide_eq_false_1 in H404. simpl.
      rewrite (bool_decide_eq_false_2 _ H404). simpl.
      repeat split; auto. intros; contradiction. }
  apply bool_decide_eq_true_1 in H404.
  split; [| split; [| split; [| split; [| split; [| split]]]]].
  7:{ intros r' ct Hr _ Hct Hne Hjson. injection Hr as <-. rewrite Hct.
      change (str (Some ct)) with ct. cbn [truthy].
      apply String.eqb_neq in Hne. rewrite Hne.
      apply String.eqb_neq in Hjson. rewrite Hjson. reflexivity. }
  6:{ intros; discriminate. }
  - destruct (_ && _ && _); reflexivity.
  - intros Hne. contradiction.
  - intros r' parameters Hr Hct Hpar. injection Hr as <-. rewrite Hct.
    assert (Hjson : before_semicolon (str (Some ("application/json"
                                                   +:+ parameters)))
                    = "application/json").
    { destruct Hpar as [-> | (p & ->)]; reflexivity. }
    rewrite Hjson. rewrite String.eqb_refl. simpl negb.
    rewrite andb_false_r. reflexivity.
  - intros r' Hr Hct. injection Hr as <-. rewrite Hct.
    cbn [truthy]. rewrite andb_false_r. reflexivity.
  - destruct (true && truthy (headers r !! "content-type")
              && negb (String.eqb
                         (before_semicolon (str (headers r !! "content-type")))
                         "application/json")) eqn:Hcond;
      [| rewrite bool_decide_eq_true_2 by exact H404;
         rewrite Hcond; reflexivity].
    simpl err_statusCode. rewrite bool_decide_eq_true_2 by exact H404.
    rewrite Hcond. reflexivity.
Qed.

Lemma sanitizeErr_spares_json_witness :
  _sanitizeErr {| err_statusCode := Some 404%Z; err_message := "unknown" |}
    (Some {| statusCode := 404;
             headers := {[ "content-type"
                             := "application/json; charset=utf-8" ]} |})
    (Some "no such tag")
  = {| err_statusCode := Some 404%Z; err_message := "unknown" |}.
Proof.
  apply (proj1 (proj2 (proj2 (sanitizeErr_spares_json _ _ _)))
           _ "; charset=utf-8" eq_refl).
  - vm_compute. reflexivity.
  - right. eexists. reflexivity.
Defined.

(** ** Ping and login of the module *)

Section ModuleMore.
Context `{Platform} `{Common}.


Lemma login_challenge_outcomes (http_get : TokenRequest -> TokenReply)
    (opts : LoginArgs) (index : Index) (chalHeader : string)
    (pingErr : option error) (err : option error) (a : option AuthInfo) :
  login_challenge http_get opts index chalHeader pingErr = Done err a ->
  match err with
  | None => exists t, t <> "" /\ a = Some (bearer_authInfo t)
  | Some e =>
      a = None
      /\ (isUnauthorized e = true \/ (exists msg, e = Error msg)
          \/ pingErr = Some e)
  end.
Proof.
  unfold login_challenge. intros Hchal.
  destruct (_parseWWWAuthenticate chalHeader) as [c|chalErr].
  2:{ injection Hchal as <- <-. auto. }
  cbv zeta in Hchal.
  destruct (String.eqb (toLowerCase (chal_scheme c)) "basic").
  { destruct pingErr as [e|]; [| discriminate].
    injection Hchal as <- <-. auto. }
  destruct (String.eqb (toLowerCase (chal_scheme c)) "bearer").
  2:{ injection Hchal as <- <-. auto. }
  destruct (chal_parms c !! "realm") as [realm|]; [| discriminate].
  destruct (_getToken http_get _) as [t|e] eqn:Htok.
  - injection Hchal as <- <-.
    apply (proj1 (getToken_results http_get _)) in Htok.
    destruct Htok as (Hne & _). eauto.
  - injection Hchal as <- <-.
    apply (proj2 (getToken_results http_get _)) in Htok.
    split; [reflexivity |].
    destruct Htok as [Hun | (scheme & msg & _ & _ & _ & ->)]; eauto.
Qed.

(** X22: a login that succeeds gives auth info of one of two kinds: the
    username and password of the options, when the ping was answered
    without error, or a token, not empty, fetched for a Bearer challenge;
    the header made of the latter is [Bearer <token>]. *)
Theorem login_success_authInfo (client_get : PingRequest -> PingReply)
    (http_get : TokenRequest -> TokenReply) (opts : LoginArgs)
    (a : option AuthInfo) :
  login client_get http_get opts = Done None a ->
  a = Some (basic_authInfo opts)
  \/ exists t,
       t <> "" /\ a = Some (bearer_authInfo t)
       /\ _authHeaderFromAuthInfo (bearer_authInfo t)
          = Some ("Bearer " +:+ t).
Proof.
  assert (Hbearer : forall t, t <> "" ->
            _authHeaderFromAuthInfo (bearer_authInfo t)
            = Some ("Bearer " +:+ t)).
  { intros t Hne. unfold _authHeaderFromAuthInfo, bearer_authInfo. simpl.
    apply String.eqb_neq in Hne. rewrite Hne. reflexivity. }
  assert (Hchal : forall index chal pingErr,
            login_challenge http_get opts index chal pingErr = Done None a ->
            exists t, t <> "" /\ a = Some (bearer_authInfo t)
                      /\ _authHeaderFromAuthInfo (bearer_authInfo t)
                         = Some ("Bearer " +:+ t)).
  { intros index chal pingErr Hc.
    apply login_challenge_outcomes in Hc. destruct Hc as (t & Hne & ->).
    exists t. auto. }
  unfold login. intros Hlogin.
  destruct (match lg_pingRes opts with Some _ => _ | None => false end);
    [discriminate |].
  destruct (match lg_index opts with IndexName _ => _ | IndexObject _ => _ end)
    as [index|ie]; [| discriminate].
  destruct (truthy _); [right; eapply Hchal; exact Hlogin |].
  destruct (ping client_get _) as [[perr|] [[res|] host] | t];
    try discriminate.
  - destruct (statusCode res =? 401)%Z; [| discriminate].
    destruct (negb (truthy _)); [discriminate |].
    right. eapply Hchal. exact Hlogin.
  - destruct (statusCode res =? 200)%Z; [| discriminate].
    injection Hlogin as <-. left. reflexivity.
Qed.

Lemma ping_Done (client_get : PingRequest -> PingReply) (opts : PingOpts)
    (err : option error) (res : option Response) (host : string) :
  ping client_get opts = Done err (res, host) ->
  (exists req, ping_request opts = PrepRequest req
               /\ err = reply_err (client_get req)
               /\ res = reply_res (client_get req)
               /\ host = reply_host (client_get req))
  \/ (exists name e, ping_index opts = IndexName name
                     /\ parseIndex name = Throw e /\ err = Some e).
Proof.
  unfold ping. destruct (ping_request opts) as [t | e | req] eqn:Hprep;
    [discriminate | |].
  - intros Hd. injection Hd as <- <- <-. right.
    unfold ping_request in Hprep.
    destruct (truthy _ && _); [discriminate |].
    destruct (ping_index opts) as [name | index].
    + destruct (parseIndex name) as [index|e'] eqn:Hparse.
      * destruct (match ping_insecure opts with Some _ => _ | None => _ end);
          discriminate.
      * injection Hprep as <-. eauto.
    + destruct (match ping_insecure opts with Some _ => _ | None => _ end);
        discriminate.
  - intros Hd. injection Hd as <- <- <-. left. eauto.
Qed.

(** X23: a login that fails passes an error and no auth info; the error is
    an Unauthorized error, or a plain [Error] (a token realm with an
    unsupported scheme), or the error of the ping (the one given with the
    options or the one the ping request ended with), or the error of
    parsing the index name. *)
Theorem login_errors (client_get : PingRequest -> PingReply)
    (http_get : TokenRequest -> TokenReply) (opts : LoginArgs)
    (e : error) (a : option AuthInfo) :
  login client_get http_get opts = Done (Some e) a ->
  a = None
  /\ (isUnauthorized e = true
      \/ (exists msg, e = Error msg)
      \/ lg_pingErr opts = Some e
      \/ (exists req, reply_err (client_get req) = Some e)
      \/ (exists name, lg_index opts = IndexName name
                       /\ parseIndex name = Throw e)).
Proof.
  assert (Hchal : forall index chal pingErr,
            login_challenge http_get opts index chal pingErr
            = Done (Some e) a ->
            a = None
            /\ (isUnauthorized e = true \/ (exists msg, e = Error msg)
                \/ pingErr = Some e)).
  { intros index chal pingErr Hc.
    apply login_challenge_outcomes in Hc. exact Hc. }
  unfold login. intros Hlogin.
  destruct (match lg_pingRes opts with Some _ => _ | None => false end);
    [discriminate |].
  destruct (lg_index opts) as [name | index0] eqn:Hindex.
  - destruct (parseIndex name) as [index|ie] eqn:Hparse.
    2:{ injection Hlogin as <- <-. split; [reflexivity |].
        do 4 right. eauto. }
    destruct (truthy _).
    { destruct (Hchal _ _ _ Hlogin) as (-> & [Hu | [He | Hp]]); auto 6. }
    destruct (ping client_get _) as [[perr|] [[res|] host] | t] eqn:Hping;
      try discriminate.
    + apply ping_Done in Hping.
      assert (Hperr : (exists req, reply_err (client_get req) = Some perr)
                      \/ exists name', IndexName name = IndexName name'
                                       /\ parseIndex name' = Throw perr).
      { destruct Hping as [(req & _ & Herr & _) | (n & e' & Hn & Hp & He)].
        - left. exists req. auto.
        - right. simpl in Hn. exists n. injection He as <-. auto. }
      destruct (statusCode res =? 401)%Z.
      * destruct (negb (truthy _)).
        { injection Hlogin as <- <-. auto. }
        destruct (Hchal _ _ _ Hlogin) as (-> & [Hu | [He | Hp]]); auto 6.
        injection Hp as <-. split; [reflexivity |].
        destruct Hperr as [Hr | Hn]; auto 8.
      * injection Hlogin as <- <-. split; [reflexivity |].
        destruct Hperr as [Hr | Hn]; auto 8.
    + apply ping_Done in Hping. injection Hlogin as <- <-.
      split; [reflexivity |].
      destruct Hping as [(req & _ & Herr & _) | (n & e' & Hn & Hp & He)].
      * do 3 right. left. exists req. auto.
      * do 4 right. simpl in Hn. exists n. injection He as <-. auto.
    + destruct (statusCode res =? 200)%Z; discriminate.
  - destruct (truthy _).
    { destruct (Hchal _ _ _ Hlogin) as (-> & [Hu | [He | Hp]]); auto 6. }
    destruct (ping client_get _) as [[perr|] [[res|] host] | t] eqn:Hping;
      try discriminate.
    + apply ping_Done in Hping.
      destruct Hping as [(req & _ & Herr & _) | (n & e' & Hn & _)];
        [| discriminate].
      destruct (statusCode res =? 401)%Z.
      * destruct (negb (truthy _)).
        { injection Hlogin as <- <-. auto. }
        destruct (Hchal _ _ _ Hlogin) as (-> & [Hu | [He | Hp]]); auto 6.
        injection Hp as <-. split; [reflexivity |].
        do 3 right. left. exists req. auto.
      * injection Hlogin as <- <-. split; [reflexivity |].
        do 3 right. left. exists req. auto.
    + apply ping_Done in Hping. injection Hlogin as <- <-.
      split; [reflexivity |].
      destruct Hping as [(req & _ & Herr & _) | (n & e' & Hn & _)];
        [| discriminate].
      do 3 right. left. exists req. auto.
    + destruct (statusCode res =? 200)%Z; discriminate.
Qed.

(** X24: a login given the response of an earlier ping with a challenge,
    not empty, in its [www-authenticate] header does not ping: it goes on
    from that challenge, whatever the registry would answer. *)
Theorem login_supplied_challenge_no_ping
    (client_get client_get' : PingRequest -> PingReply)
    (http_get : TokenRequest -> TokenReply) (opts : LoginArgs)
    (pingRes : Response) (challenge : string) :
  lg_pingRes opts = Some pingRes ->
  headers pingRes !! "www-authenticate" = Some challenge ->
  challenge <> "" ->
  login client_get http_get opts = login client_get' http_get opts
  /\ forall index,
       match lg_index opts with
       | IndexName name => parseIndex name
       | IndexObject index => Ok index
       end = Ok index ->
       is_Some (lg_pingErr opts) ->
       login client_get http_get opts
       = login_challenge http_get opts index challenge (lg_pingErr opts).
Proof.
  intros Hres Hchal Hne. unfold login. rewrite Hres, Hchal.
  assert (Htruthy : truthy (Some challenge) = true)
    by (apply truthy_present; exists challenge; auto).
  rewrite Htruthy. split.
  - destruct (negb _ && negb _); [reflexivity |].
    destruct (match lg_index opts with IndexName _ => _ | IndexObject _ => _
              end); reflexivity.
  - intros index -> Herr.
    rewrite (bool_decide_eq_true_2 _ Herr). simpl.
    rewrite andb_false_r. reflexivity.
Qed.

(** X25: the hack for quay.io.  A ping answered with 401 and no challenge
    by the host [quay.io] is treated as one answered with the challenge
    [Bearer realm=https://quay.io/v2/auth, service=quay.io]. *)
Theorem login_quay_challenge (http_get : TokenRequest -> TokenReply)
    (opts : LoginArgs) (err : error) (res : Response) :
  statusCode res = 401%Z ->
  truthy (headers res !! "www-authenticate") = false ->
  login (fun _ => {| reply_err := Some err; reply_res := Some res;
                     reply_host := "quay.io" |}) http_get opts
  = login (fun _ => {| reply_err := Some err;
                       reply_res :=
                         Some {| statusCode := 401;
                                 headers := <[ "www-authenticate"
                                                 := quay_challenge ]>
                                              (headers res) |};
                       reply_host := "quay.io" |}) http_get opts.
Proof.
  intros Hstatus Hnone. unfold login.
  destruct (match lg_pingRes opts with Some _ => _ | None => false end);
    [reflexivity |].
  destruct (match lg_index opts with IndexName _ => _ | IndexObject _ => _ end)
    as [index|ie]; [| reflexivity].
  destruct (truthy (match lg_pingRes opts with
                    | Some pingRes => headers pingRes !! "www-authenticate"
                    | None => None
                    end)); [reflexivity |].
  unfold ping. destruct (ping_request _) as [t | e | req]; try reflexivity.
  cbn [reply_err reply_res reply_host statusCode headers].
  rewrite Hstatus, Hnone. rewrite lookup_insert_eq.
  change (401 =? 401)%Z with true. cbv iota.
  assert (Hq : truthy (Some quay_challenge) = true) by reflexivity.
  rewrite Hq. reflexivity.
Qed.

End ModuleMore.

Lemma login_success_authInfo_witness :
  exists t,
    login (example_ping_401 (Some example_challenge) "registry-1.docker.io")
      example_http_get (example_loginArgs "docker.io")
    = Done None (Some (bearer_authInfo t))
    /\ t <> ""
    /\ _authHeaderFromAuthInfo (bearer_authInfo t) = Some ("Bearer " +:+ t).
Proof.
  assert (Hlogin : login (example_ping_401 (Some example_challenge)
                            "registry-1.docker.io")
                     example_http_get (example_loginArgs "docker.io")
                   = Done None (Some (bearer_authInfo "abc")))
    by (vm_compute; reflexivity).
  destruct (login_success_authInfo _ _ _ _ Hlogin)
    as [Hbasic | (t & Hne & Ha & Hhead)];
    [vm_compute in Hbasic; discriminate |].
  exists t. rewrite Hlogin, Ha. auto.
Defined.

Lemma login_errors_witness :
  exists e,
    login (example_ping_401 (Some "Basic realm=registry") "registry")
      example_http_get (example_loginArgs "registry.example.com")
    = Done (Some e) None
    /\ exists req,
         reply_err (example_ping_401 (Some "Basic realm=registry")
                      "registry" req) = Some e.
Proof.
  assert (Hlogin : login (example_ping_401 (Some "Basic realm=registry")
                            "registry")
                     example_http_get (example_loginArgs "registry.example.com")
                   = Done (Some (HttpError 401 "Unauthorized")) None)
    by (vm_compute; reflexivity).
  exists (HttpError 401 "Unauthorized"). split; [exact Hlogin |].
  destruct (login_errors _ _ _ _ _ Hlogin)
    as (_ & [Hu | [(msg & He) | [Hp | [Hr | (n & Hname & Hn)]]]]).
  - vm_compute in Hu. discriminate.
  - discriminate.
  - vm_compute in Hp. discriminate.
  - exact Hr.
  - simpl in Hname. injection Hname as <-. vm_compute in Hn. discriminate.
Defined.

Lemma login_supplied_challenge_no_ping_witness :
  let opts :=
    {| lg_index := IndexName "docker.io";
       lg_username := None; lg_password := None;
       lg_scope := Some "repository:library/busybox:pull";
       lg_pingRes :=
         Some {| statusCode := 401;
                 headers := {[ "www-authenticate" := example_challenge ]} |};
       lg_pingErr := Some (HttpError 401 "Unauthorized");
       lg_insecure := None; lg_rejectUnauthorized := Some true |} in
  login example_ping_200 example_http_get opts
  = login (example_ping_401 None "nowhere") example_http_get opts.
Proof.
  intros opts.
  refine (proj1 (login_supplied_challenge_no_ping example_ping_200
                   (example_ping_401 None "nowhere") example_http_get opts
                   {| statusCode := 401;
                      headers := {[ "www-authenticate"
                                      := example_challenge ]} |}
                   example_challenge eq_refl _ _)).
  - vm_compute. reflexivity.
  - discriminate.
Defined.

Lemma login_quay_challenge_witness :
  login (fun _ => {| reply_err := Some (HttpError 401 "Unauthorized");
                     reply_res := Some {| statusCode := 401; headers := ∅ |};
                     reply_host := "quay.io" |})
    example_http_get (example_loginArgs "quay.io")
  = login (fun _ => {| reply_err := Some (HttpError 401 "Unauthorized");
                       reply_res :=
                         Some {| statusCode := 401;
                                 headers := <[ "www-authenticate"
                                                 := quay_challenge ]> ∅ |};
                       reply_host := "quay.io" |})
      example_http_get (example_loginArgs "quay.io").
Proof.
  apply (login_quay_challenge example_http_get (example_loginArgs "quay.io")
           (HttpError 401 "Unauthorized")
           {| statusCode := 401; headers := ∅ |}).
  - reflexivity.
  - vm_compute. reflexivity.
Defined.
